(** * gimme: a shallow embedding of third_party/gimme/gimme

    The script installs Go toolchains.  This development embeds the parts
    of it that resolve version specifiers, keep the cached list of known
    versions, download with checksum verification, check out git
    revisions and reuse or wipe existing installations, and states their
    properties.

    Conventions of the embedding.
    - A text file is the list of its newline-terminated lines; the empty
      file has no line.
    - The filesystem is a finite map from paths to nodes.  A file is
      kept under one name, its canonical one: absolute, without empty
      components and without the components . and .. (what realpath
      prints, as the script does for its two prefixes).  Writing,
      moving and removing a file are modelled for paths that hold a
      regular file or nothing; directories matter for the tests on
      them and for the recursive removal.
    - Shell arithmetic is that of bash: 64-bit integers that wrap
      around.
    - A shell function is a computation over a [World]; its exit status
      is the returned integer, what it prints on standard output is
      appended to the [stdout] of the world.
    - External programs (the download tool, git, the checksum tool, the
      installed go binary) are oracles; sed, awk, sort and uniq are
      modelled for the scripts the program passes to them.  Where the
      answer of awk or rm depends on the implementation or on state
      that the world does not have (the working directory), it is left
      to an oracle as well. *)

From Stdlib Require Import ZArith Lia List Bool Ascii String QArith Sorted.
From stdpp Require Import base option list strings gmap.

Local Open Scope string_scope.
Local Open Scope Z_scope.

(* stdpp keeps [simpl] from unfolding the concatenation of strings. *)
Arguments String.append !s1 s2 : simpl nomatch.

(** ** Text *)

Module Text.

Definition is_digit (c : ascii) : bool :=
  ((48 <=? nat_of_ascii c)%nat && (nat_of_ascii c <=? 57)%nat)%bool.

Definition is_lower (c : ascii) : bool :=
  ((97 <=? nat_of_ascii c)%nat && (nat_of_ascii c <=? 122)%nat)%bool.

Definition is_upper (c : ascii) : bool :=
  ((65 <=? nat_of_ascii c)%nat && (nat_of_ascii c <=? 90)%nat)%bool.

Definition is_alpha (c : ascii) : bool := (is_lower c || is_upper c)%bool.

(** [[:alnum:]] in the C locale. *)
Definition is_alnum (c : ascii) : bool := (is_alpha c || is_digit c)%bool.

Definition is_dot (c : ascii) : bool := Ascii.eqb c ".".

(** The bracket expression [[0-9.]]. *)
Definition is_digit_or_dot (c : ascii) : bool := (is_digit c || is_dot c)%bool.

(** The bracket expression [[0-9a-f]]. *)
Definition is_lower_hex (c : ascii) : bool :=
  (is_digit c
   || ((97 <=? nat_of_ascii c)%nat && (nat_of_ascii c <=? 102)%nat))%bool.

(** The default IFS blanks that [read] strips from both ends of a line. *)
Definition is_blank (c : ascii) : bool :=
  (Ascii.eqb c " " || Ascii.eqb c "009")%bool.

Fixpoint all_chars (p : ascii -> bool) (s : string) : bool :=
  match s with
  | EmptyString => true
  | String c r => (p c && all_chars p r)%bool
  end.

Fixpoint any_char (p : ascii -> bool) (s : string) : bool :=
  match s with
  | EmptyString => false
  | String c r => (p c || any_char p r)%bool
  end.

Definition nonempty (s : string) : bool :=
  match s with EmptyString => false | String _ _ => true end.

(** [strip_prefix p s] is what follows [p] in [s], when [s] starts with [p]. *)
Fixpoint strip_prefix (p s : string) : option string :=
  match p, s with
  | EmptyString, _ => Some s
  | String a p', String b s' =>
      if Ascii.eqb a b then strip_prefix p' s' else None
  | String _ _, EmptyString => None
  end.

Definition starts_with (p s : string) : bool :=
  match strip_prefix p s with Some _ => true | None => false end.

Fixpoint rev_string (acc s : string) : string :=
  match s with
  | EmptyString => acc
  | String c r => rev_string (String c acc) r
  end.

Definition reverse (s : string) : string := rev_string EmptyString s.

(** [strip_suffix q s] is what precedes [q] in [s], when [s] ends with [q]. *)
Definition strip_suffix (q s : string) : option string :=
  match strip_prefix (reverse q) (reverse s) with
  | Some r => Some (reverse r)
  | None => None
  end.

Definition ends_with (q s : string) : bool :=
  match strip_suffix q s with Some _ => true | None => false end.

Fixpoint contains (needle s : string) : bool :=
  (starts_with needle s
   || match s with
      | EmptyString => false
      | String _ r => contains needle r
      end)%bool.

Fixpoint take_while (p : ascii -> bool) (s : string) : string :=
  match s with
  | EmptyString => EmptyString
  | String c r => if p c then String c (take_while p r) else EmptyString
  end.

Fixpoint drop_while (p : ascii -> bool) (s : string) : string :=
  match s with
  | EmptyString => EmptyString
  | String c r => if p c then drop_while p r else s
  end.

(** What [read -r] stores for a line: the line without the blanks at
    its two ends. *)
Definition ifs_trim (s : string) : string :=
  reverse (drop_while is_blank (reverse (drop_while is_blank s))).

(** Fields of [s] separated by the character [sep]. *)
Fixpoint split_on (sep : ascii) (s : string) : list string :=
  match s with
  | EmptyString => [EmptyString]
  | String c r =>
      if Ascii.eqb c sep then EmptyString :: split_on sep r
      else match split_on sep r with
           | f :: fs => String c f :: fs
           | [] => [String c EmptyString]
           end
  end.

Definition newline : string := String "010" EmptyString.

(** The double-quote character, as a string. *)
Definition dquote : string := String "034" EmptyString.

Fixpoint join (sep : string) (l : list string) : string :=
  match l with
  | [] => EmptyString
  | [x] => x
  | x :: r => x ++ sep ++ join sep r
  end.

Fixpoint drop_trailing_empty (l : list string) : list string :=
  match l with
  | [] => []
  | x :: r =>
      match drop_trailing_empty r with
      | [] => if nonempty x then [x] else []
      | r' => x :: r'
      end
  end.

(** The value of a command substitution whose command printed the
    lines [l]: the lines joined by newlines, trailing newlines removed. *)
Definition subst_value (l : list string) : string :=
  join newline (drop_trailing_empty l).

(** The value of a run of decimal digits. *)
Fixpoint digits_value (acc : N) (s : string) : N :=
  match s with
  | EmptyString => acc
  | String c r =>
      digits_value (10 * acc + N.of_nat (nat_of_ascii c - 48))%N r
  end.

Definition digit_char (n : N) : ascii := ascii_of_N (48 + n mod 10).

Fixpoint N_digits (fuel : nat) (n : N) (acc : string) : string :=
  match fuel with
  | O => acc
  | S f =>
      let acc' := String (digit_char n) acc in
      if (n <? 10)%N then acc' else N_digits f (n / 10)%N acc'
  end.

(** Decimal notation of a natural number and of an integer. *)
Definition show_N (n : N) : string := N_digits (S (N.to_nat (N.log2 n))) n EmptyString.

Definition show_Z (z : Z) : string :=
  match z with
  | Z0 => "0"
  | Zpos p => show_N (Npos p)
  | Zneg p => "-" ++ show_N (Npos p)
  end.

(** All non-overlapping matches of a pattern replaced from left to
    right, as sed's [s/.../.../g] does.  [m s] says whether the pattern
    matches at the start of [s], and then gives the replacement and
    what follows the match.  The patterns used here never match the
    empty string. *)
Fixpoint gsub (fuel : nat) (m : string -> option (string * string))
    (s : string) : string :=
  match fuel with
  | O => s
  | S f =>
      match m s with
      | Some (rep, rest) => rep ++ gsub f m rest
      | None =>
          match s with
          | EmptyString => EmptyString
          | String c r => String c (gsub f m r)
          end
      end
  end.

Definition sed_g (m : string -> option (string * string)) (s : string) : string :=
  gsub (S (String.length s)) m s.

(** adjacent equal lines collapsed, as uniq does. *)
Fixpoint uniq (l : list string) : list string :=
  match l with
  | [] => []
  | x :: r =>
      match r with
      | y :: _ => if String.eqb x y then uniq r else x :: uniq r
      | [] => [x]
      end
  end.

(** Insertion sort for a comparison [le]; the comparisons used below
    order any two different lines, so the result does not depend on
    the sorting algorithm. *)
Fixpoint insert_by (le : string -> string -> bool) (x : string)
    (l : list string) : list string :=
  match l with
  | [] => [x]
  | y :: r => if le x y then x :: l else y :: insert_by le x r
  end.

Definition sort_by (le : string -> string -> bool) (l : list string) : list string :=
  foldr (insert_by le) [] l.

End Text.

(** ** Version sorting ([_version_sort], lines 121-134) *)

Module VersionSort.
Import Text.

(** *** The fallback: pad with sed, sort -g, strip the padding *)

(** The pattern of [s/\.([0-9](\.|$))/.00\1/g]: a dot, one digit, and
    then a dot or the end of the line.  The dot that ends the match
    is part of the match. *)
Definition pad_one_digit (s : string) : option (string * string) :=
  match s with
  | String c (String d r) =>
      if (is_dot c && is_digit d)%bool then
        match r with
        | EmptyString => Some (".00" ++ String d EmptyString, EmptyString)
        | String e r' =>
            if is_dot e then Some (".00" ++ String d ".", r') else None
        end
      else None
  | _ => None
  end.

(** The pattern of [s/\.([0-9][0-9](\.|$))/.0\1/g]. *)
Definition pad_two_digits (s : string) : option (string * string) :=
  match s with
  | String c (String d1 (String d2 r)) =>
      if (is_dot c && is_digit d1 && is_digit d2)%bool then
        match r with
        | EmptyString => Some (".0" ++ String d1 (String d2 EmptyString), EmptyString)
        | String e r' =>
            if is_dot e then Some (".0" ++ String d1 (String d2 "."), r')
            else None
        end
      else None
  | _ => None
  end.

Definition is_zero (c : ascii) : bool := Ascii.eqb c "0".

(** The pattern of [s/\.00*/./g]: a dot and all the zeros after it,
    at least one. *)
Definition strip_zeros (s : string) : option (string * string) :=
  match s with
  | String c (String z r) =>
      if (is_dot c && is_zero z)%bool then Some (".", drop_while is_zero r)
      else None
  | _ => None
  end.

(** The first sed command of the fallback, both substitutions in turn. *)
Definition sed_pad (line : string) : string :=
  sed_g pad_two_digits (sed_g pad_one_digit line).

(** The last sed command of the fallback. *)
Definition sed_strip (line : string) : string := sed_g strip_zeros line.

(** The number that [sort --general-numeric-sort] reads at the start
    of a line: digits, then optionally a dot and digits.  (strtod
    also reads signs, exponents, hexadecimal and the words inf and
    nan; lines of dotted decimal components have none of these.)  The
    value is kept exact. *)
Definition numeric_key (line : string) : option Q :=
  let s := drop_while is_blank line in
  let ip := take_while is_digit s in
  let fp :=
    match drop_while is_digit s with
    | String c r => if is_dot c then take_while is_digit r else EmptyString
    | EmptyString => EmptyString
    end in
  if (nonempty ip || nonempty fp)%bool then
    Some (inject_Z (Z.of_N (digits_value 0 ip))
          + Qmake (Z.of_N (digits_value 0 fp))
                  (Z.to_pos (10 ^ Z.of_nat (String.length fp))))%Q
  else None.

(** The order of [sort --general-numeric-sort]: lines without a number
    first, then by number; lines that compare equal are ordered by
    their bytes (sort's last-resort comparison, C locale). *)
Definition general_numeric_le (a b : string) : bool :=
  match numeric_key a, numeric_key b with
  | None, Some _ => true
  | Some _, None => false
  | None, None => String.leb a b
  | Some x, Some y =>
      match (x ?= y)%Q with
      | Lt => true
      | Gt => false
      | Eq => String.leb a b
      end
  end.

Definition fallback_version_sort (lines : list string) : list string :=
  map sed_strip (sort_by general_numeric_le (map sed_pad lines)).

(** *** The native [sort --version-sort] *)

(** GNU sort compares two lines with filevercmp: runs of non-digits
    are compared character by character with the weights of [order],
    runs of digits by value.  (filevercmp also sets aside a suffix
    made of a dot and letters and treats a leading dot specially;
    neither occurs in a line that starts with a digit and has digits
    after each dot.) *)
Definition order (s : string) : Z :=
  match s with
  | EmptyString => -1
  | String c _ =>
      if is_digit c then 0
      else if is_alpha c then Z.of_nat (nat_of_ascii c)
      else if Ascii.eqb c "~" then -2
      else Z.of_nat (nat_of_ascii c) + 256
  end.

Definition head_nondigit (s : string) : bool :=
  match s with
  | EmptyString => false
  | String c _ => negb (is_digit c)
  end.

Definition tail (s : string) : string :=
  match s with EmptyString => EmptyString | String _ r => r end.

(** The first difference of two digit runs of the same length. *)
Fixpoint first_diff (a b : string) : Z :=
  match a, b with
  | String x a', String y b' =>
      if Ascii.eqb x y then first_diff a' b'
      else Z.of_nat (nat_of_ascii x) - Z.of_nat (nat_of_ascii y)
  | _, _ => 0
  end.

Fixpoint verrevcmp (fuel : nat) (a b : string) : Z :=
  match fuel with
  | O => 0
  | S f =>
      if (negb (nonempty a) && negb (nonempty b))%bool then 0
      else if (head_nondigit a || head_nondigit b)%bool then
        if order a =? order b then verrevcmp f (tail a) (tail b)
        else order a - order b
      else
        let a' := drop_while is_zero a in
        let b' := drop_while is_zero b in
        let da := take_while is_digit a' in
        let db := take_while is_digit b' in
        if (String.length db <? String.length da)%nat then 1
        else if (String.length da <? String.length db)%nat then -1
        else if first_diff da db =? 0 then
          verrevcmp f (drop_while is_digit a') (drop_while is_digit b')
        else first_diff da db
  end.

Definition filevercmp (a b : string) : Z :=
  verrevcmp (S (String.length a + String.length b)) a b.

(** The order of [sort --version-sort], with sort's last-resort byte
    comparison for lines that filevercmp finds equal. *)
Definition version_le (a b : string) : bool :=
  if filevercmp a b <? 0 then true
  else if 0 <? filevercmp a b then false
  else String.leb a b.

Definition native_version_sort (lines : list string) : list string :=
  sort_by version_le lines.

(** [_version_sort] is defined when the script starts, by testing
    whether sort accepts --version-sort. *)
Definition _version_sort (has_version_sort : bool) (lines : list string)
    : list string :=
  if has_version_sort then native_version_sort lines
  else fallback_version_sort lines.

End VersionSort.

(** ** The world a run of the script acts on *)

(** A filesystem node.  A regular file has its lines, its modification
    time in seconds and its execute permission; a directory has its
    modification time. *)
Inductive Node : Type :=
| File (lines : list string) (mtime : Z) (exec : bool)
| Dir (mtime : Z).

(** What the server answers to a download: the body, or a failure with
    the (non-zero) status of the download tool and, when the transfer
    broke off, the part of the body that reached the output file. *)
Inductive Fetched : Type :=
| Served (body : list string)
| Refused (status : positive) (partial : option (list string)).

(** The git invocations of the script. *)
Inductive GitCmd : Type :=
| GitResetHard (rev : string)
| GitRevParse (rev : string)
| GitRevParseShort (rev : string)
| GitFetchAll
| GitFetchTags
| GitClone.

(** git, acting on the repository [${GIMME_VERSION_PREFIX}/go]. *)
Class Git (Repo : Type) : Type := {
  (** [git reset -q --hard rev]: the repository moved to [rev], or failure. *)
  git_reset_hard : Repo -> string -> option Repo;
  (** [git rev-parse --verify -q rev]: the object name printed, or failure. *)
  git_rev_parse : Repo -> string -> option string;
  (** [git rev-parse --verify -q --short=12 rev]. *)
  git_rev_parse_short : Repo -> string -> option string;
  (** [git fetch -q --all], [git fetch -q --tags] and [git clone -q]. *)
  git_fetch_all : Repo -> option Repo;
  git_fetch_tags : Repo -> option Repo;
  git_clone : Repo -> option Repo
}.

(** The settings of a run (the GIMME_ variables after their defaults
    have been applied, and the two force flags), what the host offers,
    and the oracles for the network and the external tools. *)
Record Env : Type := {
  program_name : string;
  GIMME_OS : string;
  GIMME_ARCH : string;
  GIMME_HOSTOS : string;
  GIMME_ENV_PREFIX : string;
  GIMME_VERSION_PREFIX : string;
  GIMME_TMP : string;
  GIMME_TYPE : string;
  GIMME_LIST_KNOWN : string;
  GIMME_KNOWN_CACHE_MAX : Z;
  GIMME_SILENT_ENV : string;
  force_known_update : bool;
  (** one of curl, wget and fetch is installed *)
  have_transport : bool;
  (** sort accepts --version-sort *)
  have_version_sort : bool;
  (** what a download of the URL gives *)
  remote : string -> Fetched;
  (** [sha256sum -c file] on the given filesystem succeeds *)
  sha256sum_check : gmap string Node -> string -> bool;
  (** for the go binary under a directory: whether it runs on this
      host, and then its GOHOSTOS and GOHOSTARCH *)
  go_tool : string -> option (string * string);
  (** what the awk program of [_update_oldstable] prints for a line
      whose second field awk does not read as a plain number of at
      most nine digits: the implementations of awk differ there *)
  awk_other : string -> string;
  (** [rm -rf path] for a path that is not a canonical name: the
      status of rm and the files it leaves, given the files there are *)
  rm_other : gmap string Node -> string -> Z * gmap string Node
}.

Section Machine.
Context {Repo : Type} `{Git Repo}.

Record World : Type := {
  fs : gmap string Node;
  (** the time [date +%s] prints; it stands still during a call *)
  clock : Z;
  repo : Repo;
  (** the URLs requested so far, oldest first *)
  net_log : list string;
  (** the git invocations so far, oldest first *)
  git_log : list GitCmd;
  stdout : list string;
  stderr : list string
}.

Definition with_fs (f : gmap string Node) (w : World) : World :=
  {| fs := f; clock := clock w; repo := repo w; net_log := net_log w;
     git_log := git_log w; stdout := stdout w; stderr := stderr w |}.

Definition with_repo (r : Repo) (w : World) : World :=
  {| fs := fs w; clock := clock w; repo := r; net_log := net_log w;
     git_log := git_log w; stdout := stdout w; stderr := stderr w |}.

Definition with_net_log (l : list string) (w : World) : World :=
  {| fs := fs w; clock := clock w; repo := repo w; net_log := l;
     git_log := git_log w; stdout := stdout w; stderr := stderr w |}.

Definition with_git_log (l : list GitCmd) (w : World) : World :=
  {| fs := fs w; clock := clock w; repo := repo w; net_log := net_log w;
     git_log := l; stdout := stdout w; stderr := stderr w |}.

Definition with_stdout (l : list string) (w : World) : World :=
  {| fs := fs w; clock := clock w; repo := repo w; net_log := net_log w;
     git_log := git_log w; stdout := l; stderr := stderr w |}.

Definition with_stderr (l : list string) (w : World) : World :=
  {| fs := fs w; clock := clock w; repo := repo w; net_log := net_log w;
     git_log := git_log w; stdout := stdout w; stderr := l |}.

(** *** Shell computations *)

(** A command returns, or makes the shell exit with a status, or the
    model runs out of fuel (only [_resolve_version], which the script
    defines recursively, takes fuel). *)
Inductive Outcome (A : Type) : Type :=
| Ret (a : A) (w : World)
| Exit (code : Z) (w : World)
| OutOfFuel.
Global Arguments Ret {A} a w.
Global Arguments Exit {A} code w.
Global Arguments OutOfFuel {A}.

Definition Sh (A : Type) : Type := World -> Outcome A.

Definition ret {A} (a : A) : Sh A := fun w => Ret a w.

Definition bind {A B} (m : Sh A) (k : A -> Sh B) : Sh B :=
  fun w =>
    match m w with
    | Ret a w' => k a w'
    | Exit c w' => Exit c w'
    | OutOfFuel => OutOfFuel
    end.

Definition exit {A} (code : Z) : Sh A := fun w => Exit code w.

Definition out_of_fuel {A} : Sh A := fun _ => OutOfFuel.

Definition get : Sh World := fun w => Ret w w.

Definition modify (f : World -> World) : Sh unit := fun w => Ret tt (f w).

End Machine.

Arguments World : clear implicits.
Arguments Outcome : clear implicits.
Arguments Sh : clear implicits.

Declare Scope sh_scope.
Delimit Scope sh_scope with sh.
Notation "x <- m ;; k" := (bind m (fun x => k))
  (at level 100, m at next level, right associativity) : sh_scope.
Notation "m ;; k" := (bind m (fun _ => k))
  (at level 100, right associativity) : sh_scope.

(** ** Shell primitives *)

Section Primitives.
Context {Repo : Type} `{Git Repo}.
Import Text.
Local Open Scope sh_scope.
Local Abbreviation Sh := (Sh Repo).
Local Abbreviation World := (World Repo).

(** [echo line] *)
Definition echo (line : string) : Sh unit :=
  modify (fun w => with_stdout (stdout w ++ [line]) w).

(** [echo >&2 line] *)
Definition echo_err (line : string) : Sh unit :=
  modify (fun w => with_stderr (stderr w ++ [line]) w).

Fixpoint echo_all (lines : list string) : Sh unit :=
  match lines with
  | [] => ret tt
  | l :: r => echo l ;; echo_all r
  end.

(** A simple command where the errexit option ([set -e]) is in force
    when [e] holds: a non-zero status ends the shell. *)
Definition sh (e : bool) (m : Sh Z) : Sh Z :=
  s <- m ;; if (e && negb (s =? 0))%bool then exit s else ret s.

(** Command substitution [$(m)]: [m] runs in a subshell, what it
    prints is the value, and an exit ends only the subshell.  Returns
    the status and the printed lines. *)
Definition capture (m : Sh Z) : Sh (Z * list string) :=
  fun w =>
    match m (with_stdout [] w) with
    | Ret s w' => Ret (s, stdout w') (with_stdout (stdout w) w')
    | Exit c w' => Ret (c, stdout w') (with_stdout (stdout w) w')
    | OutOfFuel => OutOfFuel
    end.

(** [m 2>/dev/null] *)
Definition quiet {A} (m : Sh A) : Sh A :=
  fun w =>
    match m w with
    | Ret a w' => Ret a (with_stderr (stderr w) w')
    | Exit c w' => Exit c (with_stderr (stderr w) w')
    | OutOfFuel => OutOfFuel
    end.

(** *** Files *)

Definition write_node (w : World) (path : string) (lines : list string) : World :=
  with_fs (<[path := File lines (clock w) false]> (fs w)) w.

(** [m >path]: the file receives what [m] prints. *)
Definition redirect (path : string) (m : Sh Z) : Sh Z :=
  fun w =>
    match m (with_stdout [] w) with
    | Ret s w' => Ret s (with_stdout (stdout w) (write_node w' path (stdout w')))
    | Exit c w' => Exit c (with_stdout (stdout w) (write_node w' path (stdout w')))
    | OutOfFuel => OutOfFuel
    end.

Definition write_file (path : string) (lines : list string) : Sh unit :=
  modify (fun w => write_node w path lines).

(** The lines of a file, if it can be opened for reading. *)
Definition file_lines (f : gmap string Node) (path : string) : option (list string) :=
  match f !! path with
  | Some (File lines _ _) => Some lines
  | _ => None
  end.

(** [[ -e path ]] *)
Definition test_e (f : gmap string Node) (path : string) : bool :=
  match f !! path with Some _ => true | None => false end.

(** [[ -d path ]] *)
Definition test_d (f : gmap string Node) (path : string) : bool :=
  match f !! path with Some (Dir _) => true | _ => false end.

(** [[ -x path ]] *)
Definition test_x (f : gmap string Node) (path : string) : bool :=
  match f !! path with
  | Some (File _ _ x) => x
  | Some (Dir _) => true
  | None => false
  end.

(** [[ -s path ]]: the file exists and is not empty. *)
Definition test_s (f : gmap string Node) (path : string) : bool :=
  match f !! path with
  | Some (File lines _ _) => match lines with [] => false | _ => true end
  | Some (Dir _) => true
  | None => false
  end.

(** [cat path] *)
Definition cat (path : string) : Sh Z :=
  w <- get ;;
  match file_lines (fs w) path with
  | Some lines => echo_all lines ;; ret 0
  | None => echo_err ("cat: " ++ path ++ ": No such file or directory") ;; ret 1
  end.

(** [rm -f path] *)
Definition rm_f (path : string) : Sh unit :=
  modify (fun w => with_fs (delete path (fs w)) w).

(** A canonical name: a slash and a component, any number of times,
    no component being empty, . or .. *)
Definition is_canonical (path : string) : bool :=
  match split_on "/" path with
  | first :: (_ :: _) as components =>
      (negb (nonempty first)
       && forallb (fun c => nonempty c && negb (String.eqb c ".")
                            && negb (String.eqb c ".."))%bool
                  (List.tl components))%bool
  | _ => false
  end.

(** [path] is the canonical name [dir] or one below it. *)
Definition under (dir path : string) : bool :=
  (String.eqb path dir || starts_with (dir ++ "/") path)%bool.

(** [mv src dst] for a file. *)
Definition mv (src dst : string) : Sh Z :=
  w <- get ;;
  match fs w !! src with
  | Some n => modify (with_fs (<[dst := n]> (delete src (fs w)))) ;; ret 0
  | None => ret 1
  end.

(** [mkdir -p path] *)
Definition mkdir_p (path : string) : Sh unit :=
  modify (fun w =>
    match fs w !! path with
    | Some _ => w
    | None => with_fs (<[path := Dir (clock w)]> (fs w)) w
    end).

(** [dirname path] for a path with a directory part. *)
Definition dirname (path : string) : string :=
  match drop_while (fun c => negb (Ascii.eqb c "/")) (reverse path) with
  | EmptyString => "."
  | String _ EmptyString => "/"
  | String _ r => reverse r
  end.

(** *** git *)

Definition git_record (c : GitCmd) : Sh unit :=
  modify (fun w => with_git_log (git_log w ++ [c]) w).

(** [git -C godir reset -q --hard rev], with or without a final [--].
    Returns whether it succeeded. *)
Definition git_reset (rev : string) : Sh bool :=
  git_record (GitResetHard rev) ;;
  w <- get ;;
  match git_reset_hard (repo w) rev with
  | Some r => modify (with_repo r) ;; ret true
  | None => ret false
  end.

Definition git_update (c : GitCmd) (f : Repo -> option Repo) : Sh bool :=
  git_record c ;;
  w <- get ;;
  match f (repo w) with
  | Some r => modify (with_repo r) ;; ret true
  | None => ret false
  end.

End Primitives.

(** ** The functions of the script *)

Section Script.
Context {Repo : Type} `{Git Repo}.
Variable E : Env.
Import Text.
Local Open Scope sh_scope.
Local Abbreviation Sh := (Sh Repo).
Local Abbreviation World := (World Repo).

(** [warn] (line 66) *)
Definition warn (msg : string) : Sh unit :=
  echo_err (program_name E ++ ": " ++ msg).

(** [_do_curl url file] (lines 88-108).  The status is that of the
    download tool; without any download tool the shell exits. *)
Definition _do_curl (url file : string) : Sh Z :=
  mkdir_p (dirname file) ;;
  if have_transport E then
    modify (fun w => with_net_log (net_log w ++ [url]) w) ;;
    match remote E url with
    | Served body => write_file file body ;; ret 0
    | Refused st partial =>
        match partial with
        | Some part => write_file file part
        | None => ret tt
        end ;;
        ret (Zpos st)
    end
  else
    echo_err "error: no curl, wget, or fetch found" ;;
    exit 1.

(** [_sha256sum -c file &>/dev/null] (lines 111-119) *)
Definition _sha256sum_c (file : string) : Sh bool :=
  w <- get ;; ret (sha256sum_check E (fs w) file).

(** [_version_sort] (lines 124-134) *)
Definition _version_sort (lines : list string) : list string :=
  VersionSort._version_sort (have_version_sort E) lines.

(** *** [_do_curls file url...] (lines 137-159) *)

Fixpoint _do_curls_loop (f : string) (urls : list string) : Sh Z :=
  match urls with
  | [] =>
      rm_f f ;;
      ret 1
  | url :: rest =>
      got <- _do_curl url f ;;
      if got =? 0 then
        sum <- _do_curl (url ++ ".sha256") (f ++ ".sha256") ;;
        if sum =? 0 then
          w <- get ;;
          write_file (f ++ ".sha256.tmp")
            [subst_value (default [] (file_lines (fs w) (f ++ ".sha256")))
             ++ "  " ++ f] ;;
          mv (f ++ ".sha256.tmp") (f ++ ".sha256") ;;
          ok <- _sha256sum_c (f ++ ".sha256") ;;
          if ok then ret 0
          else
            warn ("sha256sum failed for '" ++ f ++ "'") ;;
            warn "continuing to next candidate URL" ;;
            _do_curls_loop f rest
        else ret 0
      else _do_curls_loop f rest
  end.

Definition _do_curls (f : string) (urls : list string) : Sh Z :=
  cached <- _sha256sum_c (f ++ ".sha256") ;;
  if cached then ret 0 else _do_curls_loop f urls.

(** *** [_checkout spec godir] (lines 218-271) *)

(** [[ spec =~ ^[0-9a-f]{6,}$ ]] *)
Definition looks_like_sha (spec : string) : bool :=
  (all_chars is_lower_hex spec && (6 <=? String.length spec)%nat)%bool.

(** The bracket expression [[@^~:{}]]. *)
Definition is_disallowed (c : ascii) : bool :=
  (Ascii.eqb c "@" || Ascii.eqb c "^" || Ascii.eqb c "~"
   || Ascii.eqb c ":" || Ascii.eqb c "{" || Ascii.eqb c "}")%bool.

(** [try_spec rev] (line 244): [git reset -q --hard rev --]. *)
Definition try_spec (rev : string) : Sh bool := git_reset rev.

(** [a || b] for commands that succeed or fail. *)
Definition or_else (a b : Sh bool) : Sh bool :=
  ok <- a ;; if ok then ret true else b.

(** The chain of probes of lines 249-253. *)
Definition probe_named_refs (spec : string) : Sh bool :=
  or_else (try_spec ("origin/" ++ spec))
    (or_else (try_spec ("origin/go" ++ spec))
       (or_else (if String.eqb spec "tip" then try_spec "origin/master"
                 else ret false)
          (or_else (try_spec ("refs/tags/" ++ spec))
             (try_spec ("refs/tags/go" ++ spec))))).

(** Lines 261-265: reset to origin/master, parse the spec there, reset
    to what it names and print its short name. *)
Definition resolve_relative (spec : string) : Sh bool :=
  ok <- try_spec "origin/master" ;;
  if ok then
    git_record (GitRevParse (spec ++ "^{object}")) ;;
    w <- get ;;
    match git_rev_parse (repo w) (spec ++ "^{object}") with
    | Some rev =>
        ok' <- try_spec rev ;;
        if ok' then
          git_record (GitRevParseShort rev) ;;
          w' <- get ;;
          match git_rev_parse_short (repo w') rev with
          | Some short => echo short ;; ret true
          | None => ret false
          end
        else ret false
    | None => ret false
    end
  else ret false.

(** [godir] is the repository of the world.  An empty argument stops
    the shell at [${1:?}] (bash leaves with status 127, or 1 inside a
    command substitution; the callers only test for zero). *)
Definition _checkout (spec godir : string) : Sh Z :=
  if (negb (nonempty spec) || negb (nonempty godir))%bool then exit 1
  else if looks_like_sha spec then
    ok <- git_reset spec ;;
    if ok then ret 0 else ret 1
  else
    let probe_named := negb (any_char is_disallowed spec) in
    let spec' :=
      if (negb probe_named && String.eqb spec "@")%bool then "HEAD" else spec in
    retval <-
      (if probe_named then
         ok <- probe_named_refs spec' ;; ret (if ok then 0 else 1)
       else ret 1) ;;
    if negb (retval =? 0) then
      ok <- resolve_relative spec' ;; ret (if ok then 0 else 1)
    else ret retval.

(** *** [_env dir] (lines 359-394) *)

Definition _env (dir : string) : Sh Z :=
  w <- get ;;
  if negb (test_d (fs w) (dir ++ "/bin") && test_x (fs w) (dir ++ "/bin/go"))
  then ret 1
  else
    match go_tool E dir with
    | None => ret 1
    | Some (hostos, hostarch) =>
        echo EmptyString ;;
        (if String.eqb hostos (GIMME_OS E) then echo "unset GOOS;"
         else echo ("export GOOS=" ++ dquote ++ GIMME_OS E ++ dquote ++ ";")) ;;
        (if String.eqb hostarch (GIMME_ARCH E) then echo "unset GOARCH;"
         else echo ("export GOARCH=" ++ dquote ++ GIMME_ARCH E ++ dquote ++ ";")) ;;
        echo ("export GOROOT='" ++ dir ++ "';") ;;
        echo ("export PATH=" ++ dquote ++ dir ++ "/bin:${PATH}" ++ dquote ++ ";") ;;
        (if nonempty (GIMME_SILENT_ENV E) then ret tt
         else echo "go version >&2;") ;;
        echo EmptyString ;;
        ret 0
    end.

(** *** [_try_existing] (lines 414-450) *)

(** [sed -e 's/\([^;]\)$/\1;/']: a semicolon is added to a line that
    is not empty and does not end with one. *)
Definition sed_add_semicolon (line : string) : string :=
  match reverse line with
  | EmptyString => line
  | String c _ => if Ascii.eqb c ";" then line else line ++ ";"
  end.

(** The longest [g] such that the text starts with [g] followed by
    [needle]: what a greedy [\(.*\)] before [needle] captures. *)
Fixpoint longest_before (needle s : string) : option string :=
  match s with
  | EmptyString => if starts_with needle s then Some EmptyString else None
  | String c r =>
      match longest_before needle r with
      | Some g => Some (String c g)
      | None => if starts_with needle s then Some EmptyString else None
      end
  end.

(** The second sed command (line 441) matches a line that starts
    with export PATH= and a double quote, captures greedily up to
    /bin: and prints export GOROOT= with the capture in single quotes
    and a semicolon.  This is the line printed for an input line, if
    the pattern matches it. *)
Definition sed_goroot_from_path (line : string) : option string :=
  match strip_prefix ("export PATH=" ++ dquote) line with
  | Some r =>
      match longest_before "/bin:" r with
      | Some g => Some ("export GOROOT='" ++ g ++ "';")
      | None => None
      end
  | None => None
  end.

(** [grep -qs '^unset GOROOT'] *)
Definition grep_unset_goroot (lines : list string) : bool :=
  existsb (starts_with "unset GOROOT") lines.

(** The part of [_try_existing] after its [case], lines 430-449, for
    the installation directory and the env file chosen by the case. *)
Definition try_existing_at (existing_ver existing_env : string) : Sh Z :=
  w <- get ;;
  if (test_x (fs w) (existing_ver ++ "/bin/go") && test_s (fs w) existing_env)%bool
  then
    let lines := default [] (file_lines (fs w) existing_env) in
    echo_all (map sed_add_semicolon lines) ;;
    (if grep_unset_goroot lines then
       echo_all (omap sed_goroot_from_path lines) ;;
       echo EmptyString
     else ret tt) ;;
    echo ("export GIMME_ENV='" ++ existing_env ++ "';") ;;
    ret 0
  else ret 1.

(** [_try_existing kind] for the version [ver] (GIMME_GO_VERSION).
    Any argument other than binary and source, and no argument, tries
    binary and then source: the function calls itself with these two. *)
Definition _try_existing (kind ver : string) : Sh Z :=
  let binary :=
    try_existing_at
      (GIMME_VERSION_PREFIX E ++ "/go" ++ ver ++ "." ++ GIMME_OS E ++ "." ++ GIMME_ARCH E)
      (GIMME_ENV_PREFIX E ++ "/go" ++ ver ++ "." ++ GIMME_OS E ++ "." ++ GIMME_ARCH E ++ ".env") in
  let source :=
    try_existing_at
      (GIMME_VERSION_PREFIX E ++ "/go" ++ ver ++ ".src")
      (GIMME_ENV_PREFIX E ++ "/go" ++ ver ++ ".src.env") in
  if String.eqb kind "binary" then binary
  else if String.eqb kind "source" then source
  else s <- binary ;; if s =? 0 then ret 0 else source.

(** *** [_wipe_version version] (lines 510-517) *)

(** The awk command of line 514, whose field separator is the double
    quote and whose program is [/GOROOT/ { print $2 }]: for each line
    that contains GOROOT, its second field; a line without a second
    field gives an empty line. *)
Definition awk_goroot_field (lines : list string) : list string :=
  map (fun line => nth 1 (split_on "034" line) EmptyString)
      (List.filter (contains "GOROOT") lines).

(** [rm -rf path], its status.  The empty string names no file:
    nothing is removed for it, and with -f this is no failure.  For a
    canonical name the node and all below it are removed.  Any other
    text (a relative path, one with a trailing slash or with . or ..
    in it) names a file only together with the working directory and
    the directories that exist, or is refused by rm with status 1:
    what rm does for it is left to [rm_other]. *)
Definition rm_rf (path : string) : Sh Z :=
  if negb (nonempty path) then ret 0
  else if is_canonical path then
    modify (fun w =>
      with_fs (filter (fun kv => negb (under path kv.1) = true) (fs w)) w) ;;
    ret 0
  else
    w <- get ;;
    modify (with_fs (rm_other E (fs w) path).2) ;;
    ret (rm_other E (fs w) path).1.

(** The function is called on line 912 as the last command of an
    and-list, where errexit is in force: a failure of rm ends the
    shell with the status of rm. *)
Definition _wipe_version (ver : string) : Sh Z :=
  let env_file :=
    GIMME_ENV_PREFIX E ++ "/go" ++ ver ++ "." ++ GIMME_OS E ++ "." ++ GIMME_ARCH E ++ ".env" in
  w <- get ;;
  if test_s (fs w) env_file then
    s <- rm_rf (subst_value (awk_goroot_field (default [] (file_lines (fs w) env_file)))) ;;
    if s =? 0 then
      rm_f env_file ;;
      ret 0
    else exit s
  else ret 0.

(** *** The cache of known versions (lines 544-572, 684-703) *)

(** [stat] printing the modification time: status and output. *)
Definition stat_mtime (w : World) (file : string) : Z * option Z :=
  match fs w !! file with
  | Some (File _ t _) => (0, Some t)
  | Some (Dir t) => (0, Some t)
  | None => (1, None)
  end.

(** [_last_mod_timestamp file]: status and output.  The [case] on
    GIMME_HOSTOS has the patterns [darwin | *bsd] and [linux]; for any
    other host nothing runs, nothing is printed and the status is 0. *)
Definition _last_mod_timestamp (w : World) (file : string) : Z * option Z :=
  if (String.eqb (GIMME_HOSTOS E) "darwin" || ends_with "bsd" (GIMME_HOSTOS E))%bool
  then stat_mtime w file
  else if String.eqb (GIMME_HOSTOS E) "linux" then stat_mtime w file
  else (0, None).

(** The value of the variable [ts] in an arithmetic expression: a
    variable that is empty counts as 0. *)
Definition arith_value (printed : option Z) : Z := default 0 printed.

(** The integers of bash arithmetic have 64 bits: a number that does
    not fit, written or computed, wraps around. *)
Definition wrap64 (z : Z) : Z := (z + 2 ^ 63) mod 2 ^ 64 - 2 ^ 63.

(** [_file_older_than_secs file age_secs]: [true] is status 0.  The
    test is [(( ($(date +%s) - ts) > age_secs ))]. *)
Definition _file_older_than_secs (w : World) (file : string) (age_secs : Z) : bool :=
  let (st, ts) := _last_mod_timestamp w file in
  if negb (st =? 0) then true
  else wrap64 age_secs <? wrap64 (wrap64 (clock w) - wrap64 (arith_value ts)).

(** The bracket expression of the pattern [exp] of line 546: an
    alphanumeric, a backslash (which stands for itself between
    brackets) or a dot. *)
Definition is_known_char (c : ascii) : bool :=
  (is_alnum c || Ascii.eqb c "092" || is_dot c)%bool.

(** The pattern is go, a captured run of such characters, then .src
    and anything.  This is the capture at the leftmost place of the
    line where the pattern matches. *)
Fixpoint match_known (line : string) : option string :=
  let here :=
    match strip_prefix "go" line with
    | Some r => longest_before ".src" (take_while is_known_char r)
    | None => None
    end in
  match here with
  | Some g => Some g
  | None =>
      match line with
      | EmptyString => None
      | String _ r => match_known r
      end
  end.

Definition known_list : string := GIMME_VERSION_PREFIX E ++ "/known-versions.txt".

(** Both callers run this function in a command substitution, where
    bash (not in posix mode) clears the errexit option: no status is
    checked in its body. *)
Definition _update_remote_known_list_if_needed : Sh Z :=
  let list := known_list in
  let dlfile := GIMME_TMP E ++ "/known-dl" in
  w <- get ;;
  if (test_e (fs w) list
      && negb (force_known_update E)
      && negb (_file_older_than_secs w list (GIMME_KNOWN_CACHE_MAX E)))%bool
  then
    echo list ;;
    ret 0
  else
    (if test_d (fs w) (GIMME_VERSION_PREFIX E) then ret tt
     else mkdir_p (GIMME_VERSION_PREFIX E)) ;;
    _do_curl (GIMME_LIST_KNOWN E) dlfile ;;
    w' <- get ;;
    (** a download file that cannot be opened gives the loop no line *)
    let lines := default [] (file_lines (fs w') dlfile) in
    write_file (list ++ ".new")
      (uniq (_version_sort (omap (fun l => match_known (ifs_trim l)) lines))) ;;
    rm_f list ;;
    mv (list ++ ".new") list ;;
    rm_f dlfile ;;
    echo list ;;
    ret 0.

(** *** The current stable version (lines 645-653, 665-672) *)

(** [sed -e 's/^go\(.*\)/\1/'] on one line. *)
Definition sed_strip_go (line : string) : string :=
  match strip_prefix "go" line with
  | Some r => r
  | None => line
  end.

(** [sed -i.old -e ... file]: the file is rewritten and the original
    kept as [file.old]; status 2 when the file cannot be read. *)
Definition sed_i_old (f : string -> string) (file : string) : Sh Z :=
  w <- get ;;
  match fs w !! file with
  | Some (File lines t x) =>
      modify (with_fs (<[file := File (map f lines) (clock w) x]>
                         (<[file ++ ".old" := File lines t x]> (fs w)))) ;;
      ret 0
  | _ => ret 2
  end.

Definition _update_stable (e : bool) (stable : string) : Sh Z :=
  sh e (_do_curl "https://golang.org/VERSION?m=text" stable) ;;
  sh e (sed_i_old sed_strip_go stable) ;;
  rm_f (stable ++ ".old") ;;
  ret 0.

Definition _get_curr_stable (e : bool) : Sh Z :=
  let stable := GIMME_VERSION_PREFIX E ++ "/stable" in
  w <- get ;;
  (if _file_older_than_secs w stable 86400 then _update_stable e stable
   else ret 0) ;;
  sh e (cat stable).

(** *** The previous stable version (lines 655-663, 674-682) *)

(** Where the number that awk reads at the start of a field ends for
    every awk: at the end of the field, or at a letter that cannot go
    on with an exponent (e, and d for some C libraries), a hexadecimal
    number (x) or the words inf and nan. *)
Definition awk_number_ends (rest : string) : bool :=
  match rest with
  | EmptyString => true
  | String c _ =>
      (is_alpha c
       && negb (existsb (Ascii.eqb c)
                  ["e"; "E"; "d"; "D"; "x"; "X"; "i"; "I"; "n"; "N"]%char))%bool
  end.

(** The number awk reads in a field, when it is a plain one: the value
    of the digits the field starts with, which is 0 when there are
    none, provided that the number ends after them and that there are
    at most nine (a number that awk prints in full whatever the awk).
    For any other field, such as 22e1, which awk reads as 220, 0x16,
    -3 or a field of twenty digits, there is no answer here. *)
Definition awk_number (field : string) : option Z :=
  let digits := take_while is_digit field in
  if ((String.length digits <=? 9)%nat
      && awk_number_ends (drop_while is_digit field))%bool
  then Some (Z.of_N (digits_value 0 digits))
  else None.

(** The awk program of lines 677-680, with the dot as field
    separator, on one line: the second field is decremented, and the
    first field, a dot, the second field and .x are printed. *)
Definition awk_decrement_minor (line : string) : string :=
  let fields := split_on "." line in
  match awk_number (nth 1 fields EmptyString) with
  | Some n => nth 0 fields EmptyString ++ "." ++ show_Z (n - 1) ++ "." ++ "x"
  | None => awk_other E line
  end.

(** [resolve] stands for [_resolve_version], which this function
    calls. *)
Definition _update_oldstable (resolve : bool -> string -> Sh Z)
    (e : bool) (oldstable : string) : Sh Z :=
  (** the pipeline runs in a command substitution, without errexit;
      with pipefail its status is that of [_get_curr_stable] *)
  r <- capture (_get_curr_stable false) ;;
  let oldstable_x := subst_value (map awk_decrement_minor r.2) in
  sh e (ret r.1) ;;
  sh e (redirect oldstable (resolve e oldstable_x)).

Definition _get_old_stable (resolve : bool -> string -> Sh Z) (e : bool) : Sh Z :=
  let oldstable := GIMME_VERSION_PREFIX E ++ "/oldstable" in
  w <- get ;;
  (if _file_older_than_secs w oldstable 86400
   then _update_oldstable resolve e oldstable
   else ret 0) ;;
  sh e (cat oldstable).

(** *** [_fetch dir] (lines 201-214) *)

(** In an existing clone the URL of origin is set first, which changes
    no revision; then all remotes and the tags are fetched. *)

Definition _fetch (e : bool) (dir : string) : Sh Z :=
  mkdir_p (dirname dir) ;;
  w <- get ;;
  if test_d (fs w) (dir ++ "/.git") then
    ok <- git_update GitFetchAll git_fetch_all ;;
    ok' <- (if ok then git_update GitFetchTags git_fetch_tags else ret false) ;;
    sh e (ret (if ok' then 0 else 1))
  else
    ok <- git_update GitClone git_clone ;;
    (if ok then mkdir_p (dir ++ "/.git") else ret tt) ;;
    sh e (ret (if ok then 0 else 1)).

(** *** [_assert_version_given] (lines 705-753) *)

(** The glob [+([[:digit:]]).+([[:digit:]])*]: digits, a dot, a digit,
    and anything after. *)
Definition looks_like_release (ver : string) : bool :=
  (nonempty (take_while is_digit ver)
   && match drop_while is_digit ver with
      | String c (String d _) => is_dot c && is_digit d
      | _ => false
      end)%bool.

(** [ver] is GIMME_GO_VERSION when the function is entered; the
    result is the status and GIMME_GO_VERSION when it returns.
    [abort_returns] tells that ASSERT_ABORT is [return] and not unset. *)
Definition _assert_version_given (resolve : bool -> string -> Sh Z)
    (e abort_returns : bool) (ver : string) : Sh (Z * string) :=
  let abort (v : string) : Sh (Z * string) :=
    if abort_returns then ret (1, v) else exit 1 in
  if negb (nonempty ver) then
    (** two lines of examples follow on standard error *)
    echo_err "error: no GIMME_GO_VERSION supplied" ;;
    abort ver
  else
    r <- (if ends_with ".x" ver then
            c <- capture (resolve false ver) ;;
            ret (c.1, subst_value c.2)
          else ret (0, ver)) ;;
    let ver := r.2 in
    if negb (r.1 =? 0) then abort ver
    else if looks_like_release ver then ret (0, ver)
    else
      tried <-
        (if (String.eqb (GIMME_TYPE E) "auto" || String.eqb (GIMME_TYPE E) "git")%bool
         then
           sh e (_fetch e (GIMME_VERSION_PREFIX E ++ "/go")) ;;
           c <- capture (_checkout ver (GIMME_VERSION_PREFIX E ++ "/go")) ;;
           if c.1 =? 0 then
             let resolved_sha := subst_value c.2 in
             if nonempty resolved_sha then
               warn ("resolved '" ++ ver ++ "' to '" ++ resolved_sha ++ "'") ;;
               ret (Some resolved_sha)
             else ret (Some ver)
           else ret None
         else ret None) ;;
      match tried with
      | Some v => ret (0, v)
      | None =>
          echo_err "error: GIMME_GO_VERSION not recognized as valid" ;;
          echo_err ("  got: " ++ ver) ;;
          abort ver
      end.

(** *** [_resolve_version] (lines 588-638) *)

(** [[ ver =~ $search ]] for the search pattern built from [base] on
    line 625: [base], then optionally a dot and one or more digits or
    dots.  ([base] consists of digits and dots when the pattern is
    used, and its dots are escaped, so it stands for itself.) *)
Definition wild_match (base ver : string) : bool :=
  match strip_prefix base ver with
  | Some EmptyString => true
  | Some (String c r) => (is_dot c && nonempty r && all_chars is_digit_or_dot r)%bool
  | None => false
  end.

(** The loop of lines 627-630 on the lines of the list: the value of
    [last] when it ends. *)
Definition scan_known (base : string) (lines : list string) : string :=
  fold_left (fun last line =>
               let ver := ifs_trim line in
               if wild_match base ver then ver else last)
            lines EmptyString.

(** [e] tells whether errexit is in force where the function is
    called. *)
Fixpoint _resolve_version (fuel : nat) (e : bool) (spec : string) : Sh Z :=
  match fuel with
  | O => out_of_fuel
  | S fuel' =>
      if String.eqb spec "stable" then
        _get_curr_stable e ;;
        ret 0
      else if String.eqb spec "oldstable" then
        _get_old_stable (_resolve_version fuel') e ;;
        ret 0
      else if String.eqb spec "tip" then
        echo "tip" ;;
        ret 0
      else if ends_with ".x" spec then
        let base := default EmptyString (strip_suffix ".x" spec) in
        k <- capture _update_remote_known_list_if_needed ;;
        sh e (ret k.1) ;;
        let known := subst_value k.2 in
        if negb (nonempty base && all_chars is_digit_or_dot base) then
          warn ("resolve pattern '" ++ base ++ ".x' invalid for .x finding") ;;
          ret 2
        else
          w <- get ;;
          last <-
            match file_lines (fs w) known with
            | Some lines => ret (scan_known base lines)
            | None => sh e (ret 1) ;; ret EmptyString
            end ;;
          if nonempty last then
            echo last ;;
            ret 0
          else
            echo spec ;;
            warn ("given '" ++ spec ++ "' but no release for '" ++ base ++ "' found") ;;
            ret 2
      else
        echo spec ;;
        r <- quiet (_assert_version_given (_resolve_version fuel') false true spec) ;;
        if r.1 =? 0 then ret 0
        else
          warn ("version specifier '" ++ spec ++ "' unknown") ;;
          ret 2
  end.

(** *** The choice of the installation type (lines 935-949) *)

(** [_try_binary], [_try_source] and [_try_git] unpack archives and
    build go with external tools; the dispatch takes them as given. *)
Definition install (_try_binary _try_source _try_git : Sh Z) (ver : string) : Sh Z :=
  let orelse (a b : Sh Z) : Sh Z := s <- a ;; if s =? 0 then ret 0 else b in
  let fail : Sh Z :=
    echo_err ("I don't have any idea what to do with '" ++ ver ++ "'.") ;;
    echo_err ("  (using download type '" ++ GIMME_TYPE E ++ "')") ;;
    exit 1 in
  if String.eqb (GIMME_TYPE E) "binary" then
    s <- orelse (_try_existing "binary" ver) _try_binary ;;
    if s =? 0 then ret 0 else fail
  else if String.eqb (GIMME_TYPE E) "source" then
    s <- orelse (_try_existing "source" ver) (orelse _try_source _try_git) ;;
    if s =? 0 then ret 0 else fail
  else if String.eqb (GIMME_TYPE E) "git" then
    s <- _try_git ;;
    if s =? 0 then ret 0 else fail
  else if String.eqb (GIMME_TYPE E) "auto" then
    s <- orelse (_try_existing EmptyString ver)
           (orelse _try_binary (orelse _try_source _try_git)) ;;
    if s =? 0 then ret 0 else fail
  else
    echo_err ("I don't know how to '" ++ GIMME_TYPE E ++ "'.") ;;
    echo_err "  Try 'auto', 'binary', 'source', or 'git'." ;;
    exit 1.

End Script.

(** ** Concrete hosts, repositories and filesystems *)

Module Examples.
Import Text.

(** A repository given by the commit checked out and the revisions
    that git can resolve, each with the object it names. *)
Record ToyRepo : Type := {
  head : string;
  revs : list (string * string)
}.

Fixpoint assoc (k : string) (l : list (string * string)) : option string :=
  match l with
  | [] => None
  | (k', v) :: r => if String.eqb k k' then Some v else assoc k r
  end.

#[global] Instance toy_git : Git ToyRepo := {
  git_reset_hard r rev :=
    match assoc rev (revs r) with
    | Some c => Some {| head := c; revs := revs r |}
    | None => None
    end;
  git_rev_parse r rev := assoc rev (revs r);
  git_rev_parse_short r rev :=
    match assoc rev (revs r) with
    | Some c => Some (String.substring 0 12 c)
    | None => None
    end;
  git_fetch_all r := Some r;
  git_fetch_tags r := Some r;
  git_clone r := Some r
}.

Definition sha_a : string := "a1b2c3d4e5f60718293a4b5c6d7e8f9012345678".
Definition sha_b : string := "0f1e2d3c4b5a69788796a5b4c3d2e1f001234567".

Definition repo0 : ToyRepo :=
  {| head := sha_b;
     revs := [ ("origin/master", sha_b);
               ("origin/release-branch.go1.20", sha_a);
               ("a1b2c3d4e5f6", sha_a);
               ("HEAD~1^{object}", sha_a);
               (sha_a, sha_a);
               (sha_b, sha_b) ] |}.

(** A linux host with GNU sort, a download tool and a server that
    serves the list of downloads and the current version. *)
Definition downloads_page : list string :=
  [ "<a class=download href=/dl/go1.22.3.src.tar.gz>";
    "<a class=download href=/dl/go1.21.10.src.tar.gz>";
    "<a class=download href=/dl/go1.21.9.src.tar.gz>";
    "<a class=download href=/dl/go1.21.0.src.tar.gz>";
    "<a class=download href=/dl/go1.22.3.linux-amd64.tar.gz>" ].

Definition server (url : string) : Fetched :=
  if String.eqb url "https://golang.org/dl" then Served downloads_page
  else if String.eqb url "https://golang.org/VERSION?m=text" then Served ["go1.22.3"]
  else Refused 22 None.

(** A linux host with GNU sort.  The worlds of the examples give awk
    plain numbers and rm canonical names or nothing, so the two
    oracles for the other cases are never asked. *)
Definition linux : Env :=
  {| program_name := "gimme";
     GIMME_OS := "linux";
     GIMME_ARCH := "amd64";
     GIMME_HOSTOS := "linux";
     GIMME_ENV_PREFIX := "/home/u/.gimme/envs";
     GIMME_VERSION_PREFIX := "/home/u/.gimme/versions";
     GIMME_TMP := "/tmp/gimme";
     GIMME_TYPE := "auto";
     GIMME_LIST_KNOWN := "https://golang.org/dl";
     GIMME_KNOWN_CACHE_MAX := 10800;
     GIMME_SILENT_ENV := EmptyString;
     force_known_update := false;
     have_transport := true;
     have_version_sort := true;
     remote := server;
     sha256sum_check := fun _ _ => false;
     go_tool := fun _ => Some ("linux", "amd64");
     awk_other := fun _ => EmptyString;
     rm_other := fun f _ => (1, f) |}.

Definition with_remote (r : string -> Fetched) (E : Env) : Env :=
  {| program_name := program_name E;
     GIMME_OS := GIMME_OS E;
     GIMME_ARCH := GIMME_ARCH E;
     GIMME_HOSTOS := GIMME_HOSTOS E;
     GIMME_ENV_PREFIX := GIMME_ENV_PREFIX E;
     GIMME_VERSION_PREFIX := GIMME_VERSION_PREFIX E;
     GIMME_TMP := GIMME_TMP E;
     GIMME_TYPE := GIMME_TYPE E;
     GIMME_LIST_KNOWN := GIMME_LIST_KNOWN E;
     GIMME_KNOWN_CACHE_MAX := GIMME_KNOWN_CACHE_MAX E;
     GIMME_SILENT_ENV := GIMME_SILENT_ENV E;
     force_known_update := force_known_update E;
     have_transport := have_transport E;
     have_version_sort := have_version_sort E;
     remote := r;
     sha256sum_check := sha256sum_check E;
     go_tool := go_tool E;
     awk_other := awk_other E;
     rm_other := rm_other E |}.

Definition with_hostos (h : string) (E : Env) : Env :=
  {| program_name := program_name E;
     GIMME_OS := GIMME_OS E;
     GIMME_ARCH := GIMME_ARCH E;
     GIMME_HOSTOS := h;
     GIMME_ENV_PREFIX := GIMME_ENV_PREFIX E;
     GIMME_VERSION_PREFIX := GIMME_VERSION_PREFIX E;
     GIMME_TMP := GIMME_TMP E;
     GIMME_TYPE := GIMME_TYPE E;
     GIMME_LIST_KNOWN := GIMME_LIST_KNOWN E;
     GIMME_KNOWN_CACHE_MAX := GIMME_KNOWN_CACHE_MAX E;
     GIMME_SILENT_ENV := GIMME_SILENT_ENV E;
     force_known_update := force_known_update E;
     have_transport := have_transport E;
     have_version_sort := have_version_sort E;
     remote := remote E;
     sha256sum_check := sha256sum_check E;
     go_tool := go_tool E;
     awk_other := awk_other E;
     rm_other := rm_other E |}.

Definition world_of (f : gmap string Node) (now : Z) : World ToyRepo :=
  {| fs := f; clock := now; repo := repo0; net_log := []; git_log := [];
     stdout := []; stderr := [] |}.

Definition known_file : string := "/home/u/.gimme/versions/known-versions.txt".

(** A list of known versions written a minute before the clock time. *)
Definition fs_known (lines : list string) (now : Z) : gmap string Node :=
  {[ known_file := File lines (now - 60) false ]}.

(** A world whose list of known versions is one minute old. *)
Definition w_cached : World ToyRepo :=
  world_of (fs_known ["1.21.0"; "1.21.5"; "1.22.0"] 1000000) 1000000.

(** A server whose first archive has a digest file and whose second
    archive has none; the checksum tool of [linux] accepts nothing. *)
Definition mirrors (url : string) : Fetched :=
  if String.eqb url "https://dl.google.com/go/go1.21.5.src.tar.gz"
  then Served ["archive from the first candidate"]
  else if String.eqb url "https://dl.google.com/go/go1.21.5.src.tar.gz.sha256"
  then Served ["0000000000000000000000000000000000000000000000000000000000000000"]
  else if String.eqb url "https://github.com/golang/go/archive/go1.21.5.tar.gz"
  then Served ["archive from the second candidate"]
  else Refused 22 None.

Definition source_urls : list string :=
  [ "https://dl.google.com/go/go1.21.5.src.tar.gz";
    "https://github.com/golang/go/archive/go1.21.5.tar.gz" ].





(** A world whose list of known versions is older than the cache
    lifetime. *)
Definition w_stale : World ToyRepo :=
  world_of {[ known_file := File ["1.21.0"; "1.21.5"; "1.22.0"] 0 false ]} 1000000.

(** A server that is down. *)
Definition server_down (url : string) : Fetched := Refused 7 None.

(** A server whose answer breaks off after two lines. *)
Definition server_cut (url : string) : Fetched :=
  Refused 18 (Some [ "<a class=download href=/dl/go1.22.3.src.tar.gz>";
                     "<a class=download href=/dl/go1.21.10.src.tar.gz>" ]).

(** The host of a shell of MSYS2 or Git for Windows: uname -s in lower
    case. *)
Definition mingw : Env := with_hostos "mingw64_nt-10.0" linux.

Definition go_dir : string := "/home/u/.gimme/versions/go1.21.0.linux.amd64".
Definition go_env : string := "/home/u/.gimme/envs/go1.21.0.linux.amd64.env".

(** An unpacked binary release of go 1.21.0. *)
Definition fs_unpacked : gmap string Node :=
  {[ go_dir := Dir 999000;
     go_dir ++ "/bin" := Dir 999000;
     go_dir ++ "/bin/go" := File ["ELF"] 999000 true ]}.

(** The world after [_try_binary] has written the env file of that
    release with [_env] (line 468). *)
Definition w_installed : World ToyRepo :=
  match redirect go_env (_env linux go_dir) (world_of fs_unpacked 999000) with
  | Ret _ w => world_of (fs w) 1000000
  | _ => world_of fs_unpacked 1000000
  end.

(** An installation whose env file was written by an older gimme,
    without semicolons. *)
Definition w_legacy : World ToyRepo :=
  world_of (<[ go_env := File [ "export GOROOT='" ++ go_dir ++ "'";
                                "export PATH=" ++ dquote ++ go_dir
                                ++ "/bin:${PATH}" ++ dquote ] 900000 false ]>
              fs_unpacked) 1000000.

(** The lines of the env file of [w_installed] and of [w_legacy]. *)
Definition installed_lines : list string :=
  [ EmptyString; "unset GOOS;"; "unset GOARCH;";
    "export GOROOT='" ++ go_dir ++ "';";
    "export PATH=" ++ dquote ++ go_dir ++ "/bin:${PATH}" ++ dquote ++ ";";
    "go version >&2;"; EmptyString ].

Definition legacy_lines : list string :=
  [ "export GOROOT='" ++ go_dir ++ "'";
    "export PATH=" ++ dquote ++ go_dir ++ "/bin:${PATH}" ++ dquote ].




(** A host whose sort lacks --version-sort, and a download page that
    lists 1.9.1, 1.9.2 and 1.9.10. *)
Definition page_1_9 (url : string) : Fetched :=
  Served [ "<a class=download href=/dl/go1.9.10.src.tar.gz>";
           "<a class=download href=/dl/go1.9.2.src.tar.gz>";
           "<a class=download href=/dl/go1.9.1.src.tar.gz>" ].

Definition plain_sort : Env :=
  {| program_name := "gimme";
     GIMME_OS := "darwin";
     GIMME_ARCH := "amd64";
     GIMME_HOSTOS := "darwin";
     GIMME_ENV_PREFIX := "/home/u/.gimme/envs";
     GIMME_VERSION_PREFIX := "/home/u/.gimme/versions";
     GIMME_TMP := "/tmp/gimme";
     GIMME_TYPE := "auto";
     GIMME_LIST_KNOWN := "https://golang.org/dl";
     GIMME_KNOWN_CACHE_MAX := 10800;
     GIMME_SILENT_ENV := EmptyString;
     force_known_update := false;
     have_transport := true;
     have_version_sort := false;
     remote := page_1_9;
     sha256sum_check := fun _ _ => false;
     go_tool := fun _ => Some ("darwin", "amd64");
     awk_other := fun _ => EmptyString;
     rm_other := fun f _ => (1, f) |}.

End Examples.

(** ** Facts about text *)

Section TextFacts.
Import Text.

Lemma strip_prefix_app (p s : string) : strip_prefix p (p ++ s) = Some s.
Proof.
  induction p as [|c p IH]; simpl; [reflexivity|].
  rewrite Ascii.eqb_refl. exact IH.
Qed.

Lemma strip_prefix_sound (p s r : string) :
  strip_prefix p s = Some r -> s = p ++ r.
Proof.
  revert s. induction p as [|c p IH]; intros s Hs; simpl in *.
  - congruence.
  - destruct s as [|d s]; [discriminate|].
    destruct (Ascii.eqb c d) eqn:Hcd; [|discriminate].
    apply Ascii.eqb_eq in Hcd. subst d. f_equal. auto.
Qed.

Lemma append_nil_r (s : string) : s ++ EmptyString = s.
Proof. induction s; simpl; congruence. Qed.

Lemma append_assoc (a b c : string) : (a ++ b) ++ c = a ++ (b ++ c).
Proof. induction a; simpl; congruence. Qed.

Lemma rev_string_app (acc s : string) :
  rev_string acc s = rev_string EmptyString s ++ acc.
Proof.
  revert acc. induction s as [|c s IH]; intros acc; simpl; [reflexivity|].
  rewrite IH. rewrite (IH (String c EmptyString)).
  rewrite append_assoc. reflexivity.
Qed.

Lemma reverse_app (a b : string) : reverse (a ++ b) = reverse b ++ reverse a.
Proof.
  unfold reverse. induction a as [|c a IH]; simpl.
  - rewrite append_nil_r. reflexivity.
  - rewrite rev_string_app, IH, (rev_string_app (String c EmptyString) a).
    rewrite append_assoc. reflexivity.
Qed.

Lemma reverse_involutive (s : string) : reverse (reverse s) = s.
Proof.
  induction s as [|c s IH]; [reflexivity|].
  change (String c s) with (String c EmptyString ++ s) at 1.
  rewrite reverse_app, reverse_app. rewrite IH. reflexivity.
Qed.

Lemma strip_suffix_app (q s : string) : strip_suffix q (s ++ q) = Some s.
Proof.
  unfold strip_suffix. rewrite reverse_app, strip_prefix_app.
  rewrite reverse_involutive. reflexivity.
Qed.

Lemma ends_with_app (q s : string) : ends_with q (s ++ q) = true.
Proof. unfold ends_with. rewrite strip_suffix_app. reflexivity. Qed.

Lemma all_chars_app (p : ascii -> bool) (a b : string) :
  all_chars p (a ++ b) = (all_chars p a && all_chars p b)%bool.
Proof.
  induction a as [|c a IH]; simpl; [reflexivity|].
  rewrite IH. destruct (p c); reflexivity.
Qed.

(** A specifier that starts with a digit or a dot is none of the
    three names that [_resolve_version] treats first. *)
Lemma digits_not_keyword (base rest kw : string) :
  nonempty base = true ->
  all_chars is_digit_or_dot base = true ->
  all_chars is_digit_or_dot (String.substring 0 1 kw) = false ->
  String.eqb (base ++ rest) kw = false.
Proof.
  intros Hne Hall Hkw.
  destruct base as [|c base]; [discriminate|].
  destruct kw as [|k kw]; [reflexivity|].
  simpl in *. apply andb_prop in Hall as [Hc _].
  destruct (Ascii.eqb c k) eqn:Hck; [|reflexivity].
  apply Ascii.eqb_eq in Hck. subst k.
  rewrite Hc in Hkw. simpl in Hkw.
  destruct kw; discriminate.
Qed.

Lemma subst_value_single (line : string) :
  nonempty line = true -> subst_value [line] = line.
Proof. intros Hl. unfold subst_value. cbn. rewrite Hl. reflexivity. Qed.

Lemma nonempty_app_r (a b : string) :
  nonempty b = true -> nonempty (a ++ b) = true.
Proof. intros Hb. destruct a; [exact Hb|reflexivity]. Qed.

End TextFacts.

(** ** Resolution of a wildcard specifier *)

(** What the words of the specification say of a catalog entry [v] and
    a wildcard base: the entry equals the base or extends it with a dot
    and further digits and dots. *)
Definition extends_base (base v : string) : Prop :=
  v = base \/
  exists more, Text.nonempty more = true
               /\ Text.all_chars Text.is_digit_or_dot more = true
               /\ v = base ++ "." ++ more.

(** The last entry of the catalog, in the order of the file, that the
    search pattern matches. *)
Definition last_match (base : string) (catalog : list string) : option string :=
  last (List.filter (wild_match base) (map Text.ifs_trim catalog)).

Section WildcardFacts.
Import Text.

Lemma wild_match_extends (base v : string) :
  wild_match base v = true <-> extends_base base v.
Proof.
  unfold wild_match, extends_base. split.
  - destruct (strip_prefix base v) as [r|] eqn:Hr; [|discriminate].
    apply strip_prefix_sound in Hr. subst v.
    destruct r as [|c r]; intros Hm.
    + left. apply append_nil_r.
    + right. apply andb_prop in Hm as [Hm Hall].
      apply andb_prop in Hm as [Hdot Hne].
      apply Ascii.eqb_eq in Hdot. subst c.
      exists r. auto.
  - intros [-> | (more & Hne & Hall & ->)].
    + rewrite <- (append_nil_r base) at 2.
      rewrite strip_prefix_app. reflexivity.
    + rewrite strip_prefix_app. simpl. rewrite Hne, Hall. reflexivity.
Qed.

Lemma wild_match_nonempty (base v : string) :
  nonempty base = true -> wild_match base v = true -> nonempty v = true.
Proof.
  unfold wild_match. intros Hb Hm.
  destruct (strip_prefix base v) as [r|] eqn:Hr; [|discriminate].
  apply strip_prefix_sound in Hr. subst v.
  destruct base; [discriminate | reflexivity].
Qed.

Lemma scan_known_from (base : string) (lines : list string) (acc : string) :
  fold_left (fun last line =>
               let ver := ifs_trim line in
               if wild_match base ver then ver else last) lines acc
  = default acc (last_match base lines).
Proof.
  unfold last_match. revert acc.
  induction lines as [|l lines IH]; intros acc; simpl; [reflexivity|].
  rewrite IH.
  destruct (wild_match base (ifs_trim l)) eqn:Hm; [|reflexivity].
  destruct (List.filter (wild_match base) (map ifs_trim lines)) as [|x xs] eqn:Hf;
    [reflexivity|].
  change (last (ifs_trim l :: x :: xs)) with (last (x :: xs)).
  destruct (last (x :: xs)) eqn:Hl; [reflexivity|].
  apply last_None in Hl. discriminate.
Qed.

Lemma scan_known_last (base : string) (lines : list string) :
  scan_known base lines = default EmptyString (last_match base lines).
Proof. apply scan_known_from. Qed.

Lemma last_match_matches (base v : string) (catalog : list string) :
  last_match base catalog = Some v ->
  wild_match base v = true /\ In v (map ifs_trim catalog).
Proof.
  unfold last_match. intros Hl.
  assert (Hin : In v (List.filter (wild_match base) (map ifs_trim catalog))).
  { apply list_elem_of_In. apply last_Some_elem_of. exact Hl. }
  apply filter_In in Hin. tauto.
Qed.

(** In a list that ascends for [R], the last element that satisfies a
    test is above the other elements that satisfy it. *)
Lemma last_filter_highest (R : string -> string -> Prop) (p : string -> bool)
    (l : list string) (v : string) :
  StronglySorted R l ->
  last (List.filter p l) = Some v ->
  forall u, In u l -> p u = true -> u = v \/ R u v.
Proof.
  induction 1 as [|x l Hs IH Hx]; intros Hl u Hu Hp; [destruct Hu|].
  simpl in Hl.
  destruct (List.filter p l) as [|y ys] eqn:Hf.
  - destruct Hu as [<- | Hu].
    + rewrite Hp in Hl. simpl in Hl. left. congruence.
    + assert (Hin : In u (List.filter p l)) by (apply filter_In; auto).
      rewrite Hf in Hin. destruct Hin.
  - assert (Hv : last (y :: ys) = Some v).
    { destruct (p x); exact Hl. }
    destruct Hu as [<- | Hu].
    + right. rewrite List.Forall_forall in Hx. apply Hx.
      assert (Hin : In v (List.filter p l)).
      { rewrite Hf. apply list_elem_of_In. apply last_Some_elem_of. exact Hv. }
      apply filter_In in Hin. tauto.
    + apply IH; auto.
Qed.

End WildcardFacts.

Section ResolveFacts.
Context {Repo : Type} `{Git Repo}.
Variable E : Env.
Import Text.

(** The world after [_resolve_version] has found no release: the
    specifier is printed and a warning is given. *)
Definition not_found_world (spec base : string) (w : World Repo) : World Repo :=
  with_stderr
    (stderr w ++ [program_name E ++ ": "
                  ++ "given '" ++ spec ++ "' but no release for '" ++ base ++ "' found"])
    (with_stdout (stdout w ++ [spec]) w).

(** The run of [_resolve_version] on a wildcard specifier, once the
    list of known versions has been obtained. *)
Lemma resolve_wildcard_run (fuel : nat) (e : bool) (base : string)
    (w w' : World Repo) (out catalog : list string) :
  nonempty base = true ->
  all_chars is_digit_or_dot base = true ->
  capture (_update_remote_known_list_if_needed E) w = Ret (0, out) w' ->
  file_lines (fs w') (subst_value out) = Some catalog ->
  _resolve_version E (S fuel) e (base ++ ".x") w
  = match last_match base catalog with
    | Some v => Ret 0 (with_stdout (stdout w' ++ [v]) w')
    | None => Ret 2 (not_found_world (base ++ ".x") base w')
    end.
Proof.
  intros Hne Hall Hcap Hfile.
  cbn [_resolve_version].
  rewrite !(digits_not_keyword base ".x") by (assumption || reflexivity).
  rewrite ends_with_app, strip_suffix_app.
  cbn [default from_option id]. rewrite Hne, Hall. cbn [andb negb].
  unfold bind at 1. rewrite Hcap. cbn [fst snd].
  unfold bind at 1, sh at 1, bind at 1, ret at 1.
  cbn [Z.eqb negb]. rewrite andb_false_r.
  unfold ret at 1, bind at 1, get at 1.
  rewrite Hfile. unfold bind at 1, ret at 1.
  rewrite scan_known_last.
  destruct (last_match base catalog) as [v|] eqn:Hl; cbn [default from_option id].
  - apply last_match_matches in Hl as [Hm _].
    rewrite (wild_match_nonempty base v Hne Hm).
    reflexivity.
  - reflexivity.
Qed.

End ResolveFacts.

Section TrimFacts.
Import Text.

Lemma digit_or_dot_not_blank (c : ascii) :
  is_digit_or_dot c = true -> is_blank c = false.
Proof.
  intros Hc. unfold is_blank.
  destruct (Ascii.eqb c " ") eqn:Hs.
  - apply Ascii.eqb_eq in Hs. subst c. discriminate Hc.
  - destruct (Ascii.eqb c "009") eqn:Ht; [|reflexivity].
    apply Ascii.eqb_eq in Ht. subst c. discriminate Hc.
Qed.

Lemma drop_blank_id (s : string) :
  all_chars is_digit_or_dot s = true -> drop_while is_blank s = s.
Proof.
  destruct s as [|c s]; simpl; [reflexivity|].
  intros Hs. apply andb_prop in Hs as [Hc _].
  rewrite (digit_or_dot_not_blank c Hc). reflexivity.
Qed.

Lemma all_chars_reverse (p : ascii -> bool) (s : string) :
  all_chars p (reverse s) = all_chars p s.
Proof.
  induction s as [|c s IH]; [reflexivity|].
  change (String c s) with (String c EmptyString ++ s) at 1.
  rewrite reverse_app, all_chars_app, IH. simpl.
  rewrite andb_true_r. apply andb_comm.
Qed.

(** [read] keeps a line of digits and dots as it is. *)
Lemma ifs_trim_id (s : string) :
  all_chars is_digit_or_dot s = true -> ifs_trim s = s.
Proof.
  intros Hs. unfold ifs_trim.
  rewrite (drop_blank_id s Hs).
  rewrite drop_blank_id by (rewrite all_chars_reverse; exact Hs).
  apply reverse_involutive.
Qed.

End TrimFacts.

(** ** C2: the classification of a ref by [_checkout] *)

(** The classes of section 4.3 of the specification: a commit hash, a
    ref with modifier syntax, for which only the relative parse is
    tried, and a name that is probed. *)
Inductive RefClass : Type := DirectCommit | RelativeOnly | Symbolic.

Definition classify (ref : string) : RefClass :=
if looks_like_sha ref then DirectCommit
else if Text.any_char is_disallowed ref then RelativeOnly
else Symbolic.

(** The symbolic forms of a name, in the order of the specification. *)
Definition candidates (ref : string) : list string :=
["origin/" ++ ref; "origin/go" ++ ref]
++ (if String.eqb ref "tip" then ["origin/master"] else [])
++ ["refs/tags/" ++ ref; "refs/tags/go" ++ ref].

(** The literal [@] stands for HEAD. *)
Definition normalized (ref : string) : string :=
if String.eqb ref "@" then "HEAD" else ref.

Section CheckoutSpec.
Context {Repo : Type} `{Git Repo}.

(** Probing: the candidates tried, up to and with the first one that
    git resolves, and the repository reset to it if there is one. *)
Fixpoint probe (r : Repo) (cands : list string) : list string * option Repo :=
  match cands with
  | [] => ([], None)
  | c :: rest =>
      match git_reset_hard r c with
      | Some r' => ([c], Some r')
      | None => (c :: (probe r rest).1, (probe r rest).2)
      end
  end.

(** The relative parse: reset to the primary branch, parse the ref as
    a revision expression, reset to the object and ask for its short
    name.  Gives the git commands run, the repository left, the status
    and what is printed. *)
Definition relative (r : Repo) (ref : string)
    : list GitCmd * Repo * Z * list string :=
  match git_reset_hard r "origin/master" with
  | None => ([GitResetHard "origin/master"], r, 1, [])
  | Some r1 =>
      match git_rev_parse r1 (ref ++ "^{object}") with
      | None =>
          ([GitResetHard "origin/master"; GitRevParse (ref ++ "^{object}")],
           r1, 1, [])
      | Some rev =>
          match git_reset_hard r1 rev with
          | None =>
              ([GitResetHard "origin/master"; GitRevParse (ref ++ "^{object}");
                GitResetHard rev], r1, 1, [])
          | Some r2 =>
              ([GitResetHard "origin/master"; GitRevParse (ref ++ "^{object}");
                GitResetHard rev; GitRevParseShort rev], r2,
               match git_rev_parse_short r2 rev with Some _ => 0 | None => 1 end,
               match git_rev_parse_short r2 rev with Some s => [s] | None => [] end)
          end
      end
  end.

(** The four steps of the classification. *)
Definition checkout_spec (r : Repo) (ref : string)
    : list GitCmd * Repo * Z * list string :=
  match classify ref with
  | DirectCommit =>
      match git_reset_hard r ref with
      | Some r' => ([GitResetHard ref], r', 0, [])
      | None => ([GitResetHard ref], r, 1, [])
      end
  | RelativeOnly => relative r (normalized ref)
  | Symbolic =>
      match probe r (candidates ref) with
      | (tried, Some r') => (map GitResetHard tried, r', 0, [])
      | (tried, None) =>
          let rel := relative r ref in
          ((map GitResetHard tried ++ rel.1.1.1)%list, rel.1.1.2, rel.1.2, rel.2)
      end
  end.

(** The world after a run of [_checkout] that made the git
    invocations [cmds], left the repository [r] and printed [out]. *)
Definition after_checkout (w : World Repo) (cmds : list GitCmd) (r : Repo)
    (out : list string) : World Repo :=
  with_stdout (stdout w ++ out) (with_repo r (with_git_log (git_log w ++ cmds) w)).

End CheckoutSpec.

Section CheckoutFacts.
Context {Repo : Type} `{Git Repo}.

Lemma world_ext (w1 w2 : World Repo) :
  fs w1 = fs w2 -> clock w1 = clock w2 -> repo w1 = repo w2 ->
  net_log w1 = net_log w2 -> git_log w1 = git_log w2 ->
  stdout w1 = stdout w2 -> stderr w1 = stderr w2 -> w1 = w2.
Proof.
  destruct w1, w2; simpl; intros; subst; reflexivity.
Qed.

Lemma try_spec_run (rev : string) (w : World Repo) :
  try_spec rev w
  = match git_reset_hard (repo w) rev with
    | Some r => Ret true (after_checkout w [GitResetHard rev] r [])
    | None => Ret false (after_checkout w [GitResetHard rev] (repo w) [])
    end.
Proof.
  unfold try_spec, git_reset, git_record, bind, modify, get, ret. cbn.
  destruct (git_reset_hard (repo w) rev); f_equal;
    apply world_ext; cbn; rewrite ?app_nil_r; reflexivity.
Qed.

Lemma after_checkout_twice (w : World Repo) (c1 c2 : list GitCmd) (r1 r2 : Repo)
    (o1 o2 : list string) :
  after_checkout (after_checkout w c1 r1 o1) c2 r2 o2
  = after_checkout w (c1 ++ c2) r2 (o1 ++ o2).
Proof.
  apply world_ext; cbn; rewrite ?app_assoc; reflexivity.
Qed.

Lemma after_checkout_fields (w : World Repo) (c : list GitCmd) (r : Repo)
    (o : list string) :
  repo (after_checkout w c r o) = r
  /\ git_log (after_checkout w c r o) = (git_log w ++ c)%list
  /\ stdout (after_checkout w c r o) = (stdout w ++ o)%list.
Proof. repeat split. Qed.

(** A chain of probes, each tried when the ones before it failed. *)
Fixpoint try_each (cands : list string) : Sh Repo bool :=
  match cands with
  | [] => ret false
  | c :: rest => or_else (try_spec c) (try_each rest)
  end.

Lemma try_each_run (cands : list string) (w : World Repo) :
  try_each cands w
  = Ret (match (probe (repo w) cands).2 with Some _ => true | None => false end)
        (after_checkout w (map GitResetHard (probe (repo w) cands).1)
           (default (repo w) (probe (repo w) cands).2) []).
Proof.
  revert w. induction cands as [|c rest IH]; intros w.
  - cbn. unfold ret. f_equal. apply world_ext; cbn; rewrite ?app_nil_r; reflexivity.
  - cbn [try_each probe]. unfold or_else, bind. rewrite try_spec_run.
    destruct (git_reset_hard (repo w) c) as [r|] eqn:Hc.
    + reflexivity.
    + rewrite IH. cbn [fst snd]. rewrite after_checkout_twice.
      destruct (after_checkout_fields w [GitResetHard c] (repo w) []) as (-> & _ & _).
      reflexivity.
Qed.

Lemma or_else_false_r (a : Sh Repo bool) (w : World Repo) :
  or_else a (ret false) w = a w.
Proof.
  unfold or_else, bind, ret. destruct (a w) as [[] w'| |]; reflexivity.
Qed.

Lemma or_else_false_l (b : Sh Repo bool) (w : World Repo) :
  or_else (ret false) b w = b w.
Proof. reflexivity. Qed.

Lemma or_else_ext (a b b' : Sh Repo bool) (w : World Repo) :
  (forall w', b w' = b' w') -> or_else a b w = or_else a b' w.
Proof.
  intros Hb. unfold or_else, bind. destruct (a w) as [[] w'| |]; auto.
Qed.

Lemma probe_named_refs_chain (spec : string) (w : World Repo) :
  probe_named_refs spec w = try_each (candidates spec) w.
Proof.
  unfold probe_named_refs, candidates.
  destruct (String.eqb spec "tip"); cbn [try_each app].
  - apply or_else_ext; intros w1. apply or_else_ext; intros w2.
    apply or_else_ext; intros w3. apply or_else_ext; intros w4.
    symmetry. apply or_else_false_r.
  - apply or_else_ext; intros w1. apply or_else_ext; intros w2.
    rewrite or_else_false_l.
    apply or_else_ext; intros w3.
    symmetry. apply or_else_false_r.
Qed.

End CheckoutFacts.

Section CheckoutRun.
Context {Repo : Type} `{Git Repo}.

Lemma relative_run (spec : string) (w : World Repo) :
  resolve_relative spec w
  = Ret ((relative (repo w) spec).1.2 =? 0)
        (after_checkout w (relative (repo w) spec).1.1.1
           (relative (repo w) spec).1.1.2 (relative (repo w) spec).2).
Proof.
  unfold resolve_relative, relative, try_spec, git_reset, git_record, bind,
    modify, get, ret, echo.
  cbn.
  destruct (git_reset_hard (repo w) "origin/master") as [r1|] eqn:H1; cbn.
  - destruct (git_rev_parse r1 (spec ++ "^{object}")) as [rev|] eqn:H2; cbn.
    + destruct (git_reset_hard r1 rev) as [r2|] eqn:H3; cbn.
      * destruct (git_rev_parse_short r2 rev) as [short|] eqn:H4; cbn;
          f_equal; apply world_ext; cbn;
          rewrite <- ?app_assoc, ?app_nil_r; reflexivity.
      * f_equal. apply world_ext; cbn;
          rewrite <- ?app_assoc, ?app_nil_r; reflexivity.
    + f_equal. apply world_ext; cbn;
        rewrite <- ?app_assoc, ?app_nil_r; reflexivity.
  - f_equal. apply world_ext; cbn;
      rewrite <- ?app_assoc, ?app_nil_r; reflexivity.
Qed.

(** [_checkout] does what the four steps say. *)
Lemma checkout_run (ref godir : string) (w : World Repo) :
  Text.nonempty ref = true ->
  Text.nonempty godir = true ->
  _checkout ref godir w
  = Ret (checkout_spec (repo w) ref).1.2
        (after_checkout w (checkout_spec (repo w) ref).1.1.1
           (checkout_spec (repo w) ref).1.1.2 (checkout_spec (repo w) ref).2).
Proof.
  intros Href Hdir. unfold _checkout, checkout_spec, classify.
  rewrite Href, Hdir. cbn [negb orb].
  destruct (looks_like_sha ref) eqn:Hsha.
  - unfold bind. change (git_reset ref w) with (try_spec ref w).
    rewrite try_spec_run.
    destruct (git_reset_hard (repo w) ref); reflexivity.
  - destruct (Text.any_char is_disallowed ref) eqn:Hdis; cbn [negb andb].
    + unfold bind at 1, ret at 1. cbn [Z.eqb negb].
      unfold bind, normalized. rewrite relative_run.
      destruct ((relative (repo w) (if String.eqb ref "@" then "HEAD" else ref)).1.2 =? 0)
        eqn:Hst.
      * apply Z.eqb_eq in Hst. rewrite Hst. reflexivity.
      * unfold relative in *.
        destruct (git_reset_hard (repo w) "origin/master"); [|reflexivity].
        destruct (git_rev_parse _ _); [|reflexivity].
        destruct (git_reset_hard _ _); [|reflexivity].
        cbn in *. destruct (git_rev_parse_short _ _); [discriminate|reflexivity].
    + unfold bind at 1, bind at 1. rewrite probe_named_refs_chain, try_each_run.
      destruct (probe (repo w) (candidates ref)) as [tried [r'|]] eqn:Hp;
        cbn [fst snd default from_option id].
      * reflexivity.
      * unfold ret at 1. cbn [Z.eqb negb]. unfold bind. rewrite relative_run.
        rewrite after_checkout_twice.
        destruct (after_checkout_fields w (map GitResetHard tried) (repo w) [])
          as (-> & _ & _).
        destruct ((relative (repo w) ref).1.2 =? 0) eqn:Hst.
        -- apply Z.eqb_eq in Hst. rewrite Hst. reflexivity.
        -- unfold relative in *.
           destruct (git_reset_hard (repo w) "origin/master"); [|reflexivity].
           destruct (git_rev_parse _ _); [|reflexivity].
           destruct (git_reset_hard _ _); [|reflexivity].
           cbn in *. destruct (git_rev_parse_short _ _); [discriminate|reflexivity].
Qed.

End CheckoutRun.

Section CheckoutClaim.
Context {Repo : Type} `{Git Repo}.

(** What [probe] tries: the candidates in their order, up to the first
    that git resolves; if none resolves, all of them. *)
Lemma probe_first (r : Repo) (cands : list string) :
  exists untried, cands = ((probe r cands).1 ++ untried)%list /\
    match (probe r cands).2 with
    | Some r' =>
        exists before c, (probe r cands).1 = (before ++ [c])%list
                         /\ git_reset_hard r c = Some r'
                         /\ Forall (fun c' => git_reset_hard r c' = None) before
    | None =>
        untried = [] /\ Forall (fun c' => git_reset_hard r c' = None) cands
    end.
Proof.
  induction cands as [|c rest IH]; cbn [probe].
  - exists []. split; [reflexivity|]. split; [reflexivity|constructor].
  - destruct (git_reset_hard r c) as [r'|] eqn:Hc; cbn [fst snd].
    + exists rest. split; [reflexivity|].
      exists [], c. split; [reflexivity|]. split; [exact Hc|constructor].
    + destruct IH as (untried & Hsplit & Hres).
      exists untried. split; [cbn; congruence|].
      destruct ((probe r rest).2) as [r'|].
      * destruct Hres as (before & c' & Htried & Hok & Hfail).
        exists (c :: before), c'. split; [cbn; congruence|].
        split; [exact Hok|]. constructor; assumption.
      * destruct Hres as [-> Hfail]. split; [reflexivity|].
        constructor; assumption.
Qed.

(** C2.  [_checkout] classifies a ref in this order.
    (1) A ref of six or more lowercase hexadecimal digits is reset to
        directly: one hard reset, no probe, nothing else.
    (2) Otherwise a ref with one of the characters @ ^ ~ : { } is not
        probed; it goes to the relative parse, the literal @ as HEAD.
    (3) Otherwise origin/ref, origin/goref, origin/master (only for
        tip), refs/tags/ref and refs/tags/goref are tried in this
        order, and the first that git resolves ends the call with
        success.
    (4) Only when the probes were skipped or all failed, the
        repository is reset to origin/master and the ref is parsed as
        a revision expression. *)
Theorem checkout_classification (ref godir : string) (w : World Repo) :
  Text.nonempty ref = true ->
  Text.nonempty godir = true ->
  let spec := checkout_spec (repo w) ref in
  let rel := relative (repo w) (if String.eqb ref "@" then "HEAD" else ref) in
  let probed := probe (repo w) (candidates ref) in
  _checkout ref godir w
  = Ret spec.1.2 (after_checkout w spec.1.1.1 spec.1.1.2 spec.2)
  /\ (looks_like_sha ref = true ->
      spec.1.1.1 = [GitResetHard ref] /\ spec.2 = []
      /\ (spec.1.2 = 0 <-> git_reset_hard (repo w) ref = Some spec.1.1.2))
  /\ (looks_like_sha ref = false -> Text.any_char is_disallowed ref = true ->
      spec = rel
      /\ exists more, rel.1.1.1 = GitResetHard "origin/master" :: more)
  /\ (looks_like_sha ref = false -> Text.any_char is_disallowed ref = false ->
      (exists untried, candidates ref = (probed.1 ++ untried)%list)
      /\ match probed.2 with
         | Some r' =>
             spec = (map GitResetHard probed.1, r', 0, [])
             /\ exists before c, probed.1 = (before ++ [c])%list
                  /\ git_reset_hard (repo w) c = Some r'
                  /\ Forall (fun c' => git_reset_hard (repo w) c' = None) before
         | None =>
             Forall (fun c' => git_reset_hard (repo w) c' = None) (candidates ref)
             /\ spec.1.1.1
                = (map GitResetHard (candidates ref) ++ rel.1.1.1)%list
             /\ spec.1.2 = rel.1.2 /\ spec.2 = rel.2
         end).
Proof.
  intros Href Hdir spec rel probed.
  split; [apply checkout_run; assumption|].
  subst spec rel probed. unfold checkout_spec, classify.
  split; [|split].
  - intros ->.
    destruct (git_reset_hard (repo w) ref) as [r'|] eqn:Hr; cbn [fst snd].
    + repeat split; auto.
    + repeat split; try reflexivity; intros Hx; discriminate Hx.
  - intros -> ->. split; [reflexivity|].
    unfold relative.
    destruct (git_reset_hard (repo w) "origin/master"); [|eexists; reflexivity].
    destruct (git_rev_parse _ _); [|eexists; reflexivity].
    destruct (git_reset_hard _ _); eexists; reflexivity.
  - intros -> Hdis. rewrite Hdis.
    assert (Hat : String.eqb ref "@" = false).
    { destruct (String.eqb ref "@") eqn:Heq; [|reflexivity].
      apply String.eqb_eq in Heq. subst ref. discriminate Hdis. }
    rewrite Hat.
    destruct (probe_first (repo w) (candidates ref)) as (untried & Hsplit & Hres).
    split; [exists untried; exact Hsplit|].
    destruct (probe (repo w) (candidates ref)) as [tried [r'|]]; cbn [fst snd] in *.
    + split; [reflexivity|exact Hres].
    + destruct Hres as [-> Hfail]. rewrite app_nil_r in Hsplit.
      rewrite <- Hsplit. auto.
Qed.

End CheckoutClaim.

Lemma checkout_classification_witness :
  Text.nonempty "release-branch.go1.20" = true
  /\ Text.nonempty "/home/u/.gimme/versions/go" = true
  /\ _checkout "release-branch.go1.20" "/home/u/.gimme/versions/go"
       (Examples.world_of ∅ 1000000)
     = Ret 0 (after_checkout (Examples.world_of ∅ 1000000)
                [GitResetHard "origin/release-branch.go1.20"]
                {| Examples.head := Examples.sha_a;
                   Examples.revs := Examples.revs Examples.repo0 |} []).
Proof.
  split; [reflexivity|]. split; [reflexivity|].
  exact (proj1 (checkout_classification "release-branch.go1.20"
                  "/home/u/.gimme/versions/go" (Examples.world_of ∅ 1000000)
                  eq_refl eq_refl)).
Defined.

(** ** C9: what a successful [_checkout] reports *)

Section CheckoutReport.
Context {Repo : Type} `{Git Repo}.

(** The claim as the specification words it: a call that succeeds
    reports a short commit sha, a hexadecimal string of at least 6
    characters, whatever the path. *)
Definition reports_short_sha (ref godir : string) (w : World Repo) : Prop :=
  forall w', _checkout ref godir w = Ret 0 w' ->
    exists sha, stdout w' = (stdout w ++ [sha])%list /\ looks_like_sha sha = true.

Lemma normalized_plain (ref : string) :
  Text.any_char is_disallowed ref = false -> normalized ref = ref.
Proof.
  intros Hd. unfold normalized.
  destruct (String.eqb ref "@") eqn:Hat; [|reflexivity].
  apply String.eqb_eq in Hat. subst ref. discriminate Hd.
Qed.

(** The relative parse, when it succeeds: the repository was reset to
    the primary branch, the ref was parsed there, the repository was
    reset to the object found, and the short name of that object in
    the repository left is what is printed. *)
Lemma relative_success (r : Repo) (spec : string) :
  (relative r spec).1.2 = 0 ->
  exists r1 rev short,
    git_reset_hard r "origin/master" = Some r1
    /\ git_rev_parse r1 (spec ++ "^{object}") = Some rev
    /\ git_reset_hard r1 rev = Some (relative r spec).1.1.2
    /\ git_rev_parse_short (relative r spec).1.1.2 rev = Some short
    /\ (relative r spec).2 = [short].
Proof.
  unfold relative.
  destruct (git_reset_hard r "origin/master") as [r1|]; [|discriminate].
  destruct (git_rev_parse r1 _) as [rev|] eqn:Hrev; [|discriminate].
  destruct (git_reset_hard r1 rev) as [r2|] eqn:Hreset; [|discriminate].
  cbn [fst snd].
  destruct (git_rev_parse_short r2 rev) as [short|] eqn:Hs; [|discriminate].
  intros _. exists r1, rev, short. auto.
Qed.

(** C9, amended.  A call of [_checkout] that succeeds
    - on a commit hash has reset the repository to that hash and
      prints nothing;
    - through a named probe has reset the repository to the first
      candidate that git resolves and prints nothing;
    - through the relative parse has reset the repository to the
      primary branch, parsed the ref there and reset the repository
      to the object found; it prints one line, the short name that
      [git rev-parse --verify -q --short=12] gives for that object in
      the repository it leaves.
    The caller, [_assert_version_given], runs the call in a command
    substitution after the fetch: when nothing was printed it keeps
    the version as it was given, and when a short name was printed it
    takes that name for the version and tells so on the standard
    error. *)
Theorem checkout_reports (ref godir : string) (w w' : World Repo) :
  Text.nonempty ref = true ->
  Text.nonempty godir = true ->
  _checkout ref godir w = Ret 0 w' ->
  (looks_like_sha ref = true ->
   git_reset_hard (repo w) ref = Some (repo w') /\ stdout w' = stdout w)
  /\ (looks_like_sha ref = false ->
      Text.any_char is_disallowed ref = false ->
      forall r', (probe (repo w) (candidates ref)).2 = Some r' ->
                 repo w' = r' /\ stdout w' = stdout w)
  /\ (looks_like_sha ref = false ->
      (Text.any_char is_disallowed ref = true
       \/ (probe (repo w) (candidates ref)).2 = None) ->
      exists r1 rev short,
        git_reset_hard (repo w) "origin/master" = Some r1
        /\ git_rev_parse r1 (normalized ref ++ "^{object}") = Some rev
        /\ git_reset_hard r1 rev = Some (repo w')
        /\ git_rev_parse_short (repo w') rev = Some short
        /\ stdout w' = (stdout w ++ [short])%list)
  /\ (forall (E : Env) (resolve : bool -> string -> Sh Repo Z)
             (e abort_returns : bool) (w0 wf : World Repo) (st : Z),
        godir = GIMME_VERSION_PREFIX E ++ "/go" ->
        Text.ends_with ".x" ref = false ->
        looks_like_release ref = false ->
        (String.eqb (GIMME_TYPE E) "auto" || String.eqb (GIMME_TYPE E) "git")%bool
        = true ->
        sh e (_fetch e godir) w0 = Ret st wf ->
        w = with_stdout [] wf ->
        (stdout w' = [] ->
         _assert_version_given E resolve e abort_returns ref w0
         = Ret (0, ref) (with_stdout (stdout wf) w'))
        /\ (forall short,
              Text.nonempty short = true ->
              stdout w' = [short] ->
              _assert_version_given E resolve e abort_returns ref w0
              = Ret (0, short)
                  (with_stderr
                     (stderr w' ++ [program_name E ++ ": " ++ "resolved '" ++ ref
                                    ++ "' to '" ++ short ++ "'"])
                     (with_stdout (stdout wf) w')))).
Proof.
  intros Href Hdir Hrun.
  pose proof Hrun as Hspec.
  rewrite (checkout_run ref godir w Href Hdir) in Hspec.
  injection Hspec as Hst Hw'.
  assert (Hrepo : repo w' = (checkout_spec (repo w) ref).1.1.2)
    by (rewrite <- Hw'; reflexivity).
  assert (Hout : stdout w' = (stdout w ++ (checkout_spec (repo w) ref).2)%list)
    by (rewrite <- Hw'; reflexivity).
  clear Hw'.
  split; [|split; [|split]].
  - intros Hsha. rewrite Hrepo, Hout. unfold checkout_spec, classify in *.
    rewrite Hsha in *.
    destruct (git_reset_hard (repo w) ref); [|discriminate].
    cbn. rewrite app_nil_r. auto.
  - intros Hsha Hdis r' Hp. rewrite Hrepo, Hout.
    unfold checkout_spec, classify in *. rewrite Hsha, Hdis in *.
    destruct (probe (repo w) (candidates ref)) as [tried [r''|]];
      [|discriminate].
    cbn in Hp. injection Hp as ->. cbn. rewrite app_nil_r. auto.
  - intros Hsha Hcase. rewrite Hrepo, Hout.
    unfold checkout_spec, classify in *. rewrite Hsha in *.
    destruct (Text.any_char is_disallowed ref) eqn:Hdis.
    + destruct (relative_success (repo w) (normalized ref) Hst)
        as (r1 & rev & short & H1 & H2 & H3 & H4 & H5).
      exists r1, rev, short. rewrite H5. auto.
    + destruct Hcase as [Hx|Hp]; [discriminate|].
      rewrite (normalized_plain ref Hdis).
      destruct (probe (repo w) (candidates ref)) as [tried [r'|]];
        [discriminate|].
      cbn [fst snd] in *.
      destruct (relative_success (repo w) ref Hst)
        as (r1 & rev & short & H1 & H2 & H3 & H4 & H5).
      exists r1, rev, short. rewrite H5. auto.
  - intros E resolve e abort_returns w0 wf st0 Hgodir Hx Hrel Htype Hfetch Hw.
    assert (Hcap : capture (_checkout ref godir) wf
                   = Ret (0, stdout w') (with_stdout (stdout wf) w')).
    { unfold capture. rewrite <- Hw, Hrun. reflexivity. }
    assert (Hunf : _assert_version_given E resolve e abort_returns ref w0
                   = bind (bind (sh e (_fetch e godir))
                             (fun _ => bind (capture (_checkout ref godir))
                                (fun c => if c.1 =? 0
                                          then if Text.nonempty (Text.subst_value c.2)
                                               then bind (warn E ("resolved '" ++ ref
                                                                  ++ "' to '"
                                                                  ++ Text.subst_value c.2
                                                                  ++ "'"))
                                                      (fun _ => ret (Some (Text.subst_value c.2)))
                                               else ret (Some ref)
                                          else ret None)))
                       (fun tried => match tried with
                                     | Some v => ret (0, v)
                                     | None =>
                                         bind (echo_err "error: GIMME_GO_VERSION not recognized as valid")
                                           (fun _ => bind (echo_err ("  got: " ++ ref)%string)
                                              (fun _ => if abort_returns then ret (1, ref)
                                                        else exit 1))
                                     end) w0).
    { unfold _assert_version_given. rewrite Href, Hx. cbn [negb].
      unfold bind at 1, ret at 1. cbn [fst snd Z.eqb negb].
      rewrite Hrel, Htype, <- Hgodir. reflexivity. }
    split; [intros Hnone|intros short Hne Hone];
      rewrite Hunf; unfold bind at 1, bind at 1; rewrite Hfetch; cbv beta iota;
      unfold bind at 1; rewrite Hcap; cbv beta iota; cbn [fst snd Z.eqb].
    + rewrite Hnone. cbn. reflexivity.
    + rewrite Hone.
      rewrite (subst_value_single short Hne), Hne.
      unfold bind, warn, echo_err, modify, ret. cbn [stderr with_stdout].
      reflexivity.
Qed.

End CheckoutReport.

Lemma checkout_reports_witness :
  let E := Examples.linux in
  let dir := GIMME_VERSION_PREFIX E ++ "/go" in
  let w0 := Examples.world_of ∅ 1000000 in
  let wf := match sh true (_fetch true dir) w0 with Ret _ x => x | _ => w0 end in
  let w := with_stdout [] wf in
  let w' := match _checkout "HEAD~1" dir w with Ret _ x => x | _ => w end in
  Text.nonempty "HEAD~1" = true
  /\ Text.nonempty dir = true
  /\ sh true (_fetch true dir) w0 = Ret 0 wf
  /\ _checkout "HEAD~1" dir w = Ret 0 w'
  /\ stdout w' = ["a1b2c3d4e5f6"]
  /\ (exists r1 rev short,
        git_reset_hard (repo w) "origin/master" = Some r1
        /\ git_rev_parse r1 (normalized "HEAD~1" ++ "^{object}") = Some rev
        /\ git_reset_hard r1 rev = Some (repo w')
        /\ git_rev_parse_short (repo w') rev = Some short
        /\ stdout w' = (stdout w ++ [short])%list)
  /\ _assert_version_given E (fun _ _ => ret 0) true false "HEAD~1" w0
     = Ret (0, "a1b2c3d4e5f6")
         (with_stderr
            (stderr w' ++ ["gimme: resolved 'HEAD~1' to 'a1b2c3d4e5f6'"])
            (with_stdout (stdout wf) w')).
Proof.
  intros E dir w0 wf w w'.
  assert (H1 : Text.nonempty "HEAD~1" = true) by reflexivity.
  assert (H2 : Text.nonempty dir = true) by reflexivity.
  assert (Hfetch : sh true (_fetch true dir) w0 = Ret 0 wf)
    by (vm_compute; reflexivity).
  assert (Hrun : _checkout "HEAD~1" dir w = Ret 0 w') by (vm_compute; reflexivity).
  assert (Hout : stdout w' = ["a1b2c3d4e5f6"]) by (vm_compute; reflexivity).
  pose proof (checkout_reports "HEAD~1" dir w w' H1 H2 Hrun)
    as (_ & _ & Hrel & Hcaller).
  split; [exact H1|]. split; [exact H2|]. split; [exact Hfetch|].
  split; [exact Hrun|]. split; [exact Hout|].
  split; [exact (Hrel eq_refl (or_introl eq_refl))|].
  exact (proj2 (Hcaller E (fun _ _ => ret 0) true false w0 wf 0
                  eq_refl eq_refl eq_refl eq_refl Hfetch eq_refl)
           "a1b2c3d4e5f6" eq_refl Hout).
Defined.

(** The claim fails on a commit hash: the checkout succeeds and prints
    nothing. *)
Lemma checkout_reports_counterexample :
  ~ reports_short_sha "a1b2c3d4e5f6" "/home/u/.gimme/versions/go"
      (Examples.world_of ∅ 1000000).
Proof.
  intros Hclaim.
  assert (Hrun : _checkout "a1b2c3d4e5f6" "/home/u/.gimme/versions/go"
                   (Examples.world_of ∅ 1000000)
                 = Ret 0 (after_checkout (Examples.world_of ∅ 1000000)
                            [GitResetHard "a1b2c3d4e5f6"]
                            {| Examples.head := Examples.sha_a;
                               Examples.revs := Examples.revs Examples.repo0 |} []))
    by (vm_compute; reflexivity).
  destruct (Hclaim _ Hrun) as (sha & Hout & _).
  discriminate Hout.
Qed.

(** ** C5: the download with verification *)

Section FetchFacts.
Context {Repo : Type} `{Git Repo}.
Variable E : Env.

(** What a run of [_do_curl] does when a download tool is installed. *)
Lemma do_curl_facts (url file : string) (w : World Repo) :
  have_transport E = true ->
  exists st w1,
    _do_curl E url file w = Ret st w1
    /\ net_log w1 = (net_log w ++ [url])%list
    /\ git_log w1 = git_log w /\ stdout w1 = stdout w /\ repo w1 = repo w
    /\ match remote E url with
       | Served body => st = 0 /\ file_lines (fs w1) file = Some body
       | Refused c _ => st = Zpos c
       end
    /\ (forall p n, p <> file -> fs w !! p = Some n -> fs w1 !! p = Some n).
Proof.
  intros Ht. unfold _do_curl. rewrite Ht.
  unfold bind, mkdir_p, modify, write_file, write_node, ret. cbn.
  assert (Hdir : forall p n, fs w !! p = Some n ->
            fs (match fs w !! dirname file with
                | Some _ => w
                | None => with_fs (<[dirname file:=Dir (clock w)]> (fs w)) w
                end) !! p = Some n).
  { intros p n Hp. destruct (fs w !! dirname file) eqn:Hd; [exact Hp|].
    cbn. rewrite lookup_insert_ne; [exact Hp|]. intros <-. congruence. }
  destruct (remote E url) as [body | c [part|]]; cbn;
    do 2 eexists; (split; [reflexivity|]); cbn;
    repeat (split; [try reflexivity; try (destruct (fs w !! dirname file); reflexivity)|]).
  - unfold file_lines. cbn. rewrite lookup_insert_eq. reflexivity.
  - intros p n Hp Hn. rewrite lookup_insert_ne by congruence. auto.
  - intros p n Hp Hn. rewrite lookup_insert_ne by congruence. auto.
  - intros p n Hp Hn. auto.
Qed.

End FetchFacts.

Section FetchLoop.
Context {Repo : Type} `{Git Repo}.
Variable E : Env.

Lemma length_append (a b : string) :
  String.length (a ++ b) = (String.length a + String.length b)%nat.
Proof. induction a as [|c a IH]; simpl; [reflexivity|]. rewrite IH. reflexivity. Qed.

Lemma append_neq (f s : string) : Text.nonempty s = true -> f <> f ++ s.
Proof.
  intros Hs Heq. apply (f_equal String.length) in Heq.
  rewrite length_append in Heq. destruct s; [discriminate|]. simpl in Heq. lia.
Qed.

Lemma write_then_mv {A} (p q : string) (lines : list string)
    (k : Z -> Sh Repo A) (w : World Repo) :
  bind (write_file p lines) (fun _ => bind (mv p q) k) w
  = k 0 (with_fs (<[q := File lines (clock w) false]>
                    (delete p (<[p := File lines (clock w) false]> (fs w)))) w).
Proof.
  unfold bind, write_file, write_node, mv, modify, get, bind. cbn.
  rewrite lookup_insert_eq. reflexivity.
Qed.

Lemma write_then_mv_after_rm {A} (p q : string) (lines : list string)
    (k : Z -> Sh Repo A) (w : World Repo) :
  p <> q ->
  bind (write_file p lines)
    (fun _ => bind (rm_f q) (fun _ => bind (mv p q) k)) w
  = k 0 (with_fs (<[q := File lines (clock w) false]>
                    (delete p (delete q (<[p := File lines (clock w) false]> (fs w)))))
           w).
Proof.
  intros Hpq.
  unfold bind, write_file, write_node, rm_f, mv, modify, get, bind. cbn.
  rewrite lookup_delete_ne by congruence.
  rewrite lookup_insert_eq. reflexivity.
Qed.

(** The URLs requested for a candidate: the archive, and its digest
    when the archive was served. *)
Definition requests (url : string) : list string :=
  match remote E url with
  | Served _ => [url; url ++ ".sha256"]
  | Refused _ _ => [url]
  end.

(** A candidate that cannot have been accepted without verification:
    its archive is refused, or its digest file is served. *)
Definition rejectable (url : string) : Prop :=
  (exists c part, remote E url = Refused c part)
  \/ (exists digest, remote E (url ++ ".sha256") = Served digest).

Lemma do_curls_loop_facts (f : string) (urls : list string) (w : World Repo) :
  have_transport E = true ->
  exists st w',
    _do_curls_loop E f urls w = Ret st w'
    /\ exists tried untried,
         urls = (tried ++ untried)%list
         /\ net_log w' = (net_log w ++ flat_map requests tried)%list
         /\ (st = 0 \/ st = 1)
         /\ (st = 0 ->
             exists before u body,
               tried = (before ++ [u])%list
               /\ Forall rejectable before
               /\ remote E u = Served body
               /\ file_lines (fs w') f = Some body
               /\ match remote E (u ++ ".sha256") with
                  | Served _ => sha256sum_check E (fs w') (f ++ ".sha256") = true
                  | Refused _ _ => True
                  end)
         /\ (st = 1 ->
             untried = [] /\ Forall rejectable tried /\ fs w' !! f = None).
Proof.
  intros Ht. revert w.
  induction urls as [|url rest IH]; intros w.
  - cbn. unfold bind, rm_f, modify, ret. do 2 eexists. split; [reflexivity|].
    exists [], []. cbn. rewrite app_nil_r.
    repeat split; auto; try discriminate.
    apply lookup_delete_eq.
  - cbn [_do_curls_loop]. unfold bind at 1.
    destruct (do_curl_facts E url f w Ht)
      as (st1 & w1 & -> & Hn1 & _ & _ & _ & Hr1 & Hf1).
    destruct (remote E url) as [body | c part] eqn:Hurl.
    + destruct Hr1 as [-> Hbody]. cbn [Z.eqb]. unfold bind at 1.
      destruct (do_curl_facts E (url ++ ".sha256") (f ++ ".sha256") w1 Ht)
        as (st2 & w2 & -> & Hn2 & _ & _ & _ & Hr2 & Hf2).
      assert (Hbody2 : file_lines (fs w2) f = Some body).
      { unfold file_lines in *.
        destruct (fs w1 !! f) as [n|] eqn:Hlk; [|discriminate].
        rewrite (Hf2 f n (append_neq f ".sha256" eq_refl) Hlk). exact Hbody. }
      destruct (remote E (url ++ ".sha256")) as [digest | c2 part2] eqn:Hsum.
      * destruct Hr2 as [-> Hdigest]. cbn [Z.eqb].
        unfold bind at 1, get at 1.
        rewrite write_then_mv.
        unfold bind at 1, _sha256sum_c at 1, bind at 1, get at 1, ret at 1.
        cbn [fs with_fs].
        set (fs3 := <[f ++ ".sha256" := _]> _).
        assert (Hbody3 : file_lines fs3 f = Some body).
        { unfold file_lines in *. subst fs3.
          rewrite lookup_insert_ne by (intros Hx; symmetry in Hx;
            exact (append_neq f ".sha256" eq_refl Hx)).
          rewrite lookup_delete_ne by (intros Hx; symmetry in Hx;
            exact (append_neq f ".sha256.tmp" eq_refl Hx)).
          rewrite lookup_insert_ne by (intros Hx; symmetry in Hx;
            exact (append_neq f ".sha256.tmp" eq_refl Hx)).
          exact Hbody2. }
        destruct (sha256sum_check E fs3 (f ++ ".sha256")) eqn:Hck.
        -- do 2 eexists. split; [reflexivity|].
           exists [url], rest. cbn [flat_map app net_log with_fs].
           unfold requests at 1. rewrite Hurl, Hn2, Hn1, <- app_assoc, app_nil_r.
           repeat split; auto; try discriminate.
           intros _. exists [], url, body. rewrite Hurl, Hsum.
           repeat split; auto.
        -- unfold bind at 1, warn at 1, echo_err at 1, modify at 1.
           unfold bind at 1, warn at 1, echo_err at 1, modify at 1.
           match goal with |- context [_do_curls_loop E f rest ?w3] =>
             destruct (IH w3) as (st & w' & Hrun & tried & untried & Hsplit
                                  & Hlog & Hst & Hok & Hfail)
           end.
           exists st, w'. split; [exact Hrun|].
           exists (url :: tried), untried.
           split; [cbn; congruence|].
           split.
           { rewrite Hlog. cbn [net_log with_stderr with_fs flat_map].
             unfold requests at 2. rewrite Hurl, Hn2, Hn1, <- !app_assoc.
             reflexivity. }
           split; [exact Hst|].
           split.
           { intros H0. destruct (Hok H0) as (before & u & b & -> & Hrej & Hrest).
             exists (url :: before), u, b. split; [reflexivity|].
             split; [|exact Hrest].
             constructor; [right; eauto|exact Hrej]. }
           { intros H1. destruct (Hfail H1) as (-> & Hrej & Hgone).
             repeat split; auto. constructor; [right; eauto|exact Hrej]. }
      * subst st2. cbn [Z.eqb]. unfold ret.
        do 2 eexists. split; [reflexivity|].
        exists [url], rest. cbn [flat_map app].
        unfold requests at 1. rewrite Hurl, Hn2, Hn1, <- app_assoc, app_nil_r.
        repeat split; auto; try discriminate.
        intros _. exists [], url, body. rewrite Hurl, Hsum.
        repeat split; auto.
    + subst st1. cbn [Z.eqb].
      destruct (IH w1) as (st & w' & Hrun & tried & untried & Hsplit
                           & Hlog & Hst & Hok & Hfail).
      exists st, w'. split; [exact Hrun|].
      exists (url :: tried), untried.
      split; [cbn; congruence|].
      split.
      { rewrite Hlog, Hn1. cbn [flat_map]. unfold requests at 2.
        rewrite Hurl, <- !app_assoc. reflexivity. }
      split; [exact Hst|].
      split.
      { intros H0. destruct (Hok H0) as (before & u & b & -> & Hrej & Hrest).
        exists (url :: before), u, b. split; [reflexivity|].
        split; [|exact Hrest].
        constructor; [left; eauto|exact Hrej]. }
      { intros H1. destruct (Hfail H1) as (-> & Hrej & Hgone).
        repeat split; auto. constructor; [left; eauto|exact Hrej]. }
Qed.

End FetchLoop.

Section FetchClaim.
Context {Repo : Type} `{Git Repo}.
Variable E : Env.









End FetchClaim.


(** The first candidate is served with a digest that does not verify,
    the second is served without a digest file: the fetch succeeds with
    the second archive, after four requests. *)
Example fetch_after_mismatch :
  exists w',
    _do_curls (Examples.with_remote Examples.mirrors Examples.linux)
      "/tmp/gimme/go1.21.5.src.tar.gz" Examples.source_urls
      (Examples.world_of ∅ 1000000) = Ret 0 w'
    /\ net_log w'
       = [ "https://dl.google.com/go/go1.21.5.src.tar.gz";
           "https://dl.google.com/go/go1.21.5.src.tar.gz.sha256";
           "https://github.com/golang/go/archive/go1.21.5.tar.gz";
           "https://github.com/golang/go/archive/go1.21.5.tar.gz.sha256" ]
    /\ file_lines (fs w') "/tmp/gimme/go1.21.5.src.tar.gz"
       = Some ["archive from the second candidate"].
Proof.
  eexists. split; [vm_compute; reflexivity|]. split; vm_compute; reflexivity.
Qed.

(** ** C10: the two implementations of [_version_sort] *)

(** C10 fails on the list 1.9.2, 1.9.10.  The native sort puts 1.9.2
    first.  In the fallback, the first substitution pads the 9 of
    1.9.2 and its match takes the dot after the 9, so the 2 that
    follows is not padded; the lines 1.009.2 and 1.009.010 have the
    same number 1.009 for sort -g and are ordered by their bytes, which
    puts 1.9.10 first. *)
Theorem version_sort_fallback_differs :
  VersionSort._version_sort true ["1.9.2"; "1.9.10"] = ["1.9.2"; "1.9.10"]
  /\ VersionSort._version_sort false ["1.9.2"; "1.9.10"] = ["1.9.10"; "1.9.2"]
  /\ map VersionSort.sed_pad ["1.9.2"; "1.9.10"] = ["1.009.2"; "1.009.010"].
Proof. repeat split; vm_compute; reflexivity. Qed.

(** On a host that uses the fallback, the list of known versions is
    stored in that order, and 1.9.x resolves to 1.9.2 although 1.9.10
    is published. *)
Example resolve_with_fallback_sort :
  exists w',
    _resolve_version Examples.plain_sort 1 true "1.9.x"
      (Examples.world_of ∅ 1000000) = Ret 0 w'
    /\ file_lines (fs w') (known_list Examples.plain_sort)
       = Some ["1.9.10"; "1.9.1"; "1.9.2"]
    /\ stdout w' = ["1.9.2"].
Proof.
  eexists. split; [vm_compute; reflexivity|]. split; vm_compute; reflexivity.
Qed.

(** The fallback also changes entries: a component 0 is padded to 000
    and the last command removes it whole. *)
Example version_sort_fallback_drops_zero :
  VersionSort._version_sort false ["1.10.0"; "1.9"] = ["1.9"; "1.10."].
Proof. vm_compute. reflexivity. Qed.

(** ** C3 and C4: the cached list of known versions *)

(** C3 fails when the download fails.  The list is older than the
    cache lifetime and the server is down: the status of [_do_curl] is
    not examined, the loop reads nothing, and the empty result replaces
    the list. *)
Theorem failed_fetch_overwrites_known_list :
  let E := Examples.with_remote Examples.server_down Examples.linux in
  exists w',
    _update_remote_known_list_if_needed E Examples.w_stale = Ret 0 w'
    /\ file_lines (fs Examples.w_stale) (known_list E)
       = Some ["1.21.0"; "1.21.5"; "1.22.0"]
    /\ file_lines (fs w') (known_list E) = Some []
    /\ net_log w' = ["https://golang.org/dl"].
Proof.
  eexists. split; [vm_compute; reflexivity|].
  repeat split; vm_compute; reflexivity.
Qed.

(** The same with a transfer that breaks off: the part received
    replaces the list. *)
Example partial_fetch_overwrites_known_list :
  let E := Examples.with_remote Examples.server_cut Examples.linux in
  exists w',
    _update_remote_known_list_if_needed E Examples.w_stale = Ret 0 w'
    /\ file_lines (fs w') (known_list E) = Some ["1.21.10"; "1.22.3"].
Proof.
  eexists. split; [vm_compute; reflexivity|]. vm_compute. reflexivity.
Qed.

(** C4 fails on a host that is neither darwin, nor a bsd, nor linux.
    The list is one minute old, the lifetime is 10800 seconds and no
    update is forced; [_last_mod_timestamp] prints nothing for this
    host, the age is computed from 0, and the list is downloaded and
    rewritten. *)
Theorem cache_ignored_on_other_hosts :
  exists w',
    _update_remote_known_list_if_needed Examples.mingw Examples.w_cached = Ret 0 w'
    /\ stat_mtime Examples.w_cached (known_list Examples.mingw) = (0, Some 999940)
    /\ clock Examples.w_cached = 1000000
    /\ GIMME_KNOWN_CACHE_MAX Examples.mingw = 10800
    /\ force_known_update Examples.mingw = false
    /\ net_log w' = ["https://golang.org/dl"]
    /\ file_lines (fs Examples.w_cached) (known_list Examples.mingw)
       = Some ["1.21.0"; "1.21.5"; "1.22.0"]
    /\ file_lines (fs w') (known_list Examples.mingw)
       = Some ["1.21.0"; "1.21.9"; "1.21.10"; "1.22.3"].
Proof.
  eexists. split; [vm_compute; reflexivity|].
  repeat split; vm_compute; reflexivity.
Qed.

(** ** C7: [_wipe_version] *)

(** C7 fails on an installation made by the script itself.  [_env]
    writes the GOROOT line with single quotes; [_wipe_version] takes
    the second field between double quotes of that line, which is
    empty, so [rm -rf] removes nothing and only the env file goes. *)
Theorem wipe_keeps_install_dir :
  exists w',
    _wipe_version Examples.linux "1.21.0" Examples.w_installed = Ret 0 w'
    /\ test_s (fs Examples.w_installed) Examples.go_env = true
    /\ awk_goroot_field
         (default [] (file_lines (fs Examples.w_installed) Examples.go_env))
       = [EmptyString]
    /\ test_e (fs w') Examples.go_env = false
    /\ test_d (fs w') Examples.go_dir = true
    /\ test_x (fs w') (Examples.go_dir ++ "/bin/go") = true.
Proof.
  eexists. split; [vm_compute; reflexivity|].
  repeat split; vm_compute; reflexivity.
Qed.

(** A number of 64 bits stands for itself. *)
Lemma wrap64_id (z : Z) : - 2 ^ 63 <= z < 2 ^ 63 -> wrap64 z = z.
Proof.
  intros Hz. unfold wrap64. rewrite Z.mod_small by lia. lia.
Qed.

(** The age test for times and a lifetime that fit in 64 bits. *)
Lemma age_test_exact (now t age : Z) :
  0 <= t <= now -> now < 2 ^ 63 -> - 2 ^ 63 <= age < 2 ^ 63 ->
  (wrap64 age <? wrap64 (wrap64 now - wrap64 t)) = (age <? now - t).
Proof.
  intros Ht Hnow Hage.
  rewrite (wrap64_id now), (wrap64_id t), (wrap64_id age), (wrap64_id (now - t))
    by lia.
  reflexivity.
Qed.

(** On a host whose [stat] the script knows, a list that exists, is
    not older than the lifetime and is not forced is returned as it
    is: nothing is requested and no file changes.  (The times and the
    lifetime are numbers of 64 bits.) *)
Lemma known_list_cache_hit {Repo : Type} `{Git Repo} (E : Env) (w : World Repo)
    (t : Z) :
  (String.eqb (GIMME_HOSTOS E) "darwin" || Text.ends_with "bsd" (GIMME_HOSTOS E)
   || String.eqb (GIMME_HOSTOS E) "linux")%bool = true ->
  stat_mtime w (known_list E) = (0, Some t) ->
  0 <= t <= clock w -> clock w < 2 ^ 63 -> GIMME_KNOWN_CACHE_MAX E < 2 ^ 63 ->
  clock w - t <= GIMME_KNOWN_CACHE_MAX E ->
  force_known_update E = false ->
  _update_remote_known_list_if_needed E w
  = Ret 0 (with_stdout (stdout w ++ [known_list E]) w).
Proof.
  intros Hhost Hstat Ht Hnow Hmax Hage Hforce.
  unfold _update_remote_known_list_if_needed, bind at 1, get at 1.
  assert (He : test_e (fs w) (known_list E) = true).
  { unfold test_e. unfold stat_mtime in Hstat.
    destruct (fs w !! known_list E) as [[]|]; [reflexivity|reflexivity|discriminate]. }
  assert (Hold : _file_older_than_secs E w (known_list E) (GIMME_KNOWN_CACHE_MAX E)
                 = false).
  { unfold _file_older_than_secs, _last_mod_timestamp.
    destruct (String.eqb (GIMME_HOSTOS E) "darwin" || Text.ends_with "bsd" (GIMME_HOSTOS E))%bool.
    - rewrite Hstat. cbn [negb Z.eqb arith_value default from_option id].
      rewrite age_test_exact by lia. apply Z.ltb_ge. exact Hage.
    - cbn in Hhost. rewrite Hhost, Hstat.
      cbn [negb Z.eqb arith_value default from_option id].
      rewrite age_test_exact by lia. apply Z.ltb_ge. exact Hage. }
  rewrite He, Hforce, Hold. reflexivity.
Qed.

(** ** C6: reuse of an existing installation *)

Section ReuseFacts.
Context {Repo : Type} `{Git Repo}.
Variable E : Env.

Lemma with_stdout_same (w : World Repo) : with_stdout (stdout w) w = w.
Proof. destruct w; reflexivity. Qed.

Lemma echo_all_run (lines : list string) (w : World Repo) :
  echo_all lines w = Ret tt (with_stdout (stdout w ++ lines) w).
Proof.
  revert w. induction lines as [|l lines IH]; intros w; cbn [echo_all].
  - unfold ret. rewrite app_nil_r, with_stdout_same. reflexivity.
  - unfold bind, echo, modify. rewrite IH. f_equal.
    apply world_ext; cbn; rewrite <- ?app_assoc; reflexivity.
Qed.

(** What [_try_existing] prints for the env file [env_path] with the
    given lines: the lines with their semicolons, then, if a line
    starts with unset GOROOT, the GOROOT lines made from the PATH lines
    and an empty line, then the line that exports GIMME_ENV. *)
Definition rendering (env_path : string) (lines : list string) : list string :=
  (map sed_add_semicolon lines
   ++ (if grep_unset_goroot lines
       then omap sed_goroot_from_path lines ++ [EmptyString]
       else [])
   ++ [("export GIMME_ENV='" ++ env_path ++ "';")%string])%list.

Lemma try_existing_at_run (dir env_path : string) (lines : list string)
    (w : World Repo) :
  test_x (fs w) (dir ++ "/bin/go") = true ->
  file_lines (fs w) env_path = Some lines ->
  lines <> [] ->
  try_existing_at dir env_path w
  = Ret 0 (with_stdout (stdout w ++ rendering env_path lines) w).
Proof.
  intros Hx Hl Hne. unfold try_existing_at, bind at 1, get at 1.
  assert (Hs : test_s (fs w) env_path = true).
  { unfold test_s, file_lines in *.
    destruct (fs w !! env_path) as [[l t x|]|]; try discriminate.
    injection Hl as ->. destruct lines; congruence. }
  rewrite Hx, Hs, Hl. cbn [andb default from_option id].
  unfold bind at 1. rewrite echo_all_run. unfold rendering.
  destruct (grep_unset_goroot lines).
  - unfold bind at 1, bind at 1. rewrite echo_all_run.
    unfold bind, echo, modify, ret. f_equal.
    apply world_ext; cbn; rewrite <- ?app_assoc; reflexivity.
  - unfold bind, echo, modify, ret. f_equal.
    apply world_ext; cbn; rewrite <- ?app_assoc; reflexivity.
Qed.


End ReuseFacts.

Section ReuseClaim.
Context {Repo : Type} `{Git Repo}.
Variable E : Env.

(** The claim as the specification words it: the installation's
    descriptor is returned unchanged, without any network call. *)
Definition returns_descriptor_unchanged (ver : string) (w : World Repo) : Prop :=
  forall (_try_binary _try_source _try_git : Sh Repo Z) (lines : list string),
    file_lines (fs w)
      (GIMME_ENV_PREFIX E ++ "/go" ++ ver ++ "." ++ GIMME_OS E ++ "."
       ++ GIMME_ARCH E ++ ".env") = Some lines ->
    exists w',
      install E _try_binary _try_source _try_git ver w = Ret 0 w'
      /\ net_log w' = net_log w
      /\ stdout w' = (stdout w ++ lines)%list.

(** C6, amended.  With the install type auto, when the go binary of
    the binary installation of the version is executable and its env
    file is not empty, the installation succeeds without running any
    other strategy: nothing is requested from the network, no file
    changes, and what is printed is the env file with a semicolon put
    at the end of the lines that lack one, the GOROOT lines for an env
    file that unsets GOROOT, and the line that exports GIMME_ENV.  The
    lines of the env file are printed unchanged when they all end with
    a semicolon or are empty. *)
Theorem install_reuses_existing_binary
    (_try_binary _try_source _try_git : Sh Repo Z)
    (ver : string) (lines : list string) (w : World Repo) :
  let dir := GIMME_VERSION_PREFIX E ++ "/go" ++ ver ++ "." ++ GIMME_OS E ++ "."
             ++ GIMME_ARCH E in
  let env_path := GIMME_ENV_PREFIX E ++ "/go" ++ ver ++ "." ++ GIMME_OS E ++ "."
                  ++ GIMME_ARCH E ++ ".env" in
  GIMME_TYPE E = "auto" ->
  test_x (fs w) (dir ++ "/bin/go") = true ->
  file_lines (fs w) env_path = Some lines ->
  lines <> [] ->
  install E _try_binary _try_source _try_git ver w
  = Ret 0 (with_stdout (stdout w ++ rendering env_path lines) w)
  /\ (Forall (fun l => sed_add_semicolon l = l) lines ->
      grep_unset_goroot lines = false ->
      rendering env_path lines
      = (lines ++ [("export GIMME_ENV='" ++ env_path ++ "';")%string])%list).
Proof.
  intros dir env_path Htype Hx Hl Hne. split.
  - unfold install. rewrite Htype. cbn [String.eqb Ascii.eqb Bool.eqb].
    unfold _try_existing. cbn [String.eqb].
    unfold bind at 1, bind at 1, bind at 1.
    fold dir env_path.
    rewrite (try_existing_at_run dir env_path lines w Hx Hl Hne).
    reflexivity.
  - intros Hsemi Hgrep. unfold rendering. rewrite Hgrep. cbn [app].
    f_equal. clear Hl Hne Hgrep.
    induction Hsemi as [|l ls Hl' _ IH]; cbn; [reflexivity|].
    rewrite Hl', IH. reflexivity.
Qed.

End ReuseClaim.

Lemma install_reuses_existing_binary_witness :
  GIMME_TYPE Examples.linux = "auto"
  /\ test_x (fs Examples.w_installed) (Examples.go_dir ++ "/bin/go") = true
  /\ file_lines (fs Examples.w_installed) Examples.go_env
     = Some Examples.installed_lines
  /\ Examples.installed_lines <> []
  /\ install Examples.linux (exit 1) (exit 1) (exit 1) "1.21.0" Examples.w_installed
     = Ret 0 (with_stdout (rendering Examples.go_env Examples.installed_lines)
                Examples.w_installed).
Proof.
  assert (H1 : GIMME_TYPE Examples.linux = "auto") by reflexivity.
  assert (H2 : test_x (fs Examples.w_installed) (Examples.go_dir ++ "/bin/go") = true)
    by (vm_compute; reflexivity).
  assert (H3 : file_lines (fs Examples.w_installed) Examples.go_env
               = Some Examples.installed_lines) by (vm_compute; reflexivity).
  assert (H4 : Examples.installed_lines <> []) by discriminate.
  split; [exact H1|]. split; [exact H2|]. split; [exact H3|]. split; [exact H4|].
  exact (proj1 (install_reuses_existing_binary Examples.linux
                  (exit 1) (exit 1) (exit 1) "1.21.0" Examples.installed_lines
                  Examples.w_installed H1 H2 H3 H4)).
Defined.

(** The claim fails on an env file written by an older gimme: the lines
    printed have gained their semicolons, and the GIMME_ENV line
    follows them. *)
Lemma install_reuses_existing_binary_counterexample :
  ~ returns_descriptor_unchanged Examples.linux "1.21.0" Examples.w_legacy.
Proof.
  intros Hclaim.
  assert (Hl : file_lines (fs Examples.w_legacy)
                 (GIMME_ENV_PREFIX Examples.linux ++ "/go" ++ "1.21.0" ++ "."
                  ++ GIMME_OS Examples.linux ++ "." ++ GIMME_ARCH Examples.linux
                  ++ ".env") = Some Examples.legacy_lines)
    by (vm_compute; reflexivity).
  destruct (Hclaim (ret 1) (ret 1) (ret 1) Examples.legacy_lines Hl)
    as (w' & Hrun & _ & Hout).
  assert (Hreal : install Examples.linux (ret 1) (ret 1) (ret 1) "1.21.0"
                    Examples.w_legacy
                  = Ret 0 (with_stdout
                             (rendering Examples.go_env Examples.legacy_lines)
                             Examples.w_legacy))
    by (vm_compute; reflexivity).
  rewrite Hreal in Hrun. injection Hrun as <-.
  vm_compute in Hout. discriminate Hout.
Qed.

(** ** The order of sort --version-sort *)

Section VersionOrder.
Import Text VersionSort.

(** The codes of the characters of a text. *)
Fixpoint codes (s : string) : list Z :=
  match s with
  | EmptyString => []
  | String c r => Z.of_nat (nat_of_ascii c) :: codes r
  end.

(** The key of a line: filevercmp compares two lines as the
    lexicographic order compares their keys.  A character that is no
    digit gives its weight; a run of digits gives 0, the number of its
    digits after the leading zeros and these digits; the end of the
    line gives -1 after a run and stands for an empty run elsewhere.
    [in_run] tells that the digits read belong to a run that is
    already in the key. *)
Fixpoint sort_key (in_run : bool) (s : string) : list Z :=
  match s with
  | EmptyString => if in_run then [-1] else [0; 0; -1]
  | String c r =>
      if is_digit c then
        if in_run then sort_key true r
        else
          let d := take_while is_digit (drop_while is_zero s) in
          0 :: Z.of_nat (String.length d) :: codes d ++ sort_key true r
      else order s :: sort_key false r
  end.

Definition compare_keys (a b : list Z) : comparison := list_compare Z.compare a b.

Lemma Z_compare_eq_iff (x y : Z) : (x ?= y) = Eq <-> x = y.
Proof. apply Z.compare_eq_iff. Qed.

Lemma compare_keys_cons (x : Z) (a b : list Z) :
  compare_keys (x :: a) (x :: b) = compare_keys a b.
Proof. apply list_compare_cons. exact Z_compare_eq_iff. Qed.

Lemma compare_keys_app (p a b : list Z) :
  compare_keys (p ++ a) (p ++ b) = compare_keys a b.
Proof. apply list_compare_app. exact Z_compare_eq_iff. Qed.

Lemma compare_keys_head (x y : Z) (a b : list Z) :
  x <> y -> compare_keys (x :: a) (y :: b) = (x ?= y).
Proof.
  intros Hxy. unfold compare_keys. cbn.
  destruct (x ?= y) eqn:Hc; try reflexivity.
  apply Z.compare_eq_iff in Hc. contradiction.
Qed.

Lemma compare_keys_antisym (a b : list Z) :
  compare_keys b a = CompOpp (compare_keys a b).
Proof.
  apply list_compare_antisym; [exact Z_compare_eq_iff|].
  intros x y. apply Z.compare_antisym.
Qed.

Lemma compare_keys_eq (a b : list Z) : compare_keys a b = Eq <-> a = b.
Proof. apply list_compare_refl. exact Z_compare_eq_iff. Qed.

Lemma compare_keys_trans (a b c : list Z) (r : comparison) :
  compare_keys a b = r -> compare_keys b c = r -> compare_keys a c = r.
Proof.
  apply list_compare_trans; [exact Z_compare_eq_iff| |].
  - intros x y z c0 Hxy Hyz. destruct c0.
    + apply Z.compare_eq_iff in Hxy, Hyz. subst. apply Z.compare_refl.
    + rewrite Z.compare_lt_iff in *. lia.
    + rewrite Z.compare_gt_iff in *. lia.
  - intros x y. apply Z.compare_antisym.
Qed.

(** *** The weights of characters *)

Definition head_digit (s : string) : bool :=
  match s with
  | EmptyString => false
  | String c _ => is_digit c
  end.

Lemma order_empty : order EmptyString = -1.
Proof. reflexivity. Qed.

Lemma order_digit (s : string) : head_digit s = true -> order s = 0.
Proof. destruct s as [|c r]; [discriminate|]. cbn. intros ->. reflexivity. Qed.

(** The weight of a character that is no digit is -2 or at least 65. *)
Lemma order_nondigit (s : string) :
  head_nondigit s = true -> order s = -2 \/ 65 <= order s.
Proof.
  destruct s as [|c r]; [discriminate|]. cbn.
  destruct (is_digit c); [discriminate|]. intros _.
  destruct (is_alpha c) eqn:Ha.
  - right. unfold is_alpha, is_lower, is_upper in Ha.
    apply orb_prop in Ha as [Ha|Ha]; apply andb_prop in Ha as [Ha _];
      apply Nat.leb_le in Ha; lia.
  - destruct (Ascii.eqb c "~"); [left; reflexivity|right; lia].
Qed.

Lemma nat_of_ascii_inj (c d : ascii) : nat_of_ascii c = nat_of_ascii d -> c = d.
Proof.
  intros Hcd. rewrite <- (ascii_nat_embedding c), <- (ascii_nat_embedding d).
  rewrite Hcd. reflexivity.
Qed.

(** *** The key of a line that starts with a run of digits *)

Lemma drop_digits_zeros (s : string) :
  drop_while is_digit (drop_while is_zero s) = drop_while is_digit s.
Proof.
  induction s as [|c r IH]; [reflexivity|]. cbn [drop_while].
  destruct (is_zero c) eqn:Hz.
  - unfold is_zero in Hz. apply Ascii.eqb_eq in Hz. subst c. cbn. exact IH.
  - reflexivity.
Qed.

Lemma key_skips_digits (s : string) :
  sort_key true s = sort_key true (drop_while is_digit s).
Proof.
  induction s as [|c r IH]; [reflexivity|]. cbn [sort_key drop_while].
  destruct (is_digit c) eqn:Hc; [exact IH|].
  cbn [sort_key]. rewrite Hc. reflexivity.
Qed.

Lemma key_of_run (s : string) :
  head_nondigit s = false ->
  sort_key false s
  = 0 :: Z.of_nat (String.length (take_while is_digit (drop_while is_zero s)))
      :: codes (take_while is_digit (drop_while is_zero s))
         ++ sort_key true (drop_while is_digit s).
Proof.
  destruct s as [|c r]; [reflexivity|]. cbn [head_nondigit].
  intros Hc. apply negb_false_iff in Hc.
  cbn [sort_key]. rewrite Hc.
  rewrite (key_skips_digits r). cbn [drop_while]. rewrite Hc. reflexivity.
Qed.

Lemma key_after_run (s : string) :
  head_digit s = false ->
  sort_key true s
  = match s with
    | EmptyString => [-1]
    | String _ r => order s :: sort_key false r
    end.
Proof.
  destruct s as [|c r]; [reflexivity|]. cbn [head_digit]. intros Hc.
  cbn [sort_key]. rewrite Hc. reflexivity.
Qed.

Lemma key_of_char (s : string) :
  head_nondigit s = true ->
  sort_key false s = order s :: sort_key false (tail s).
Proof.
  destruct s as [|c r]; [discriminate|]. cbn [head_nondigit tail].
  intros Hc. apply negb_true_iff in Hc. cbn [sort_key]. rewrite Hc. reflexivity.
Qed.

Lemma drop_while_shorter (p : ascii -> bool) (s : string) :
  (String.length (drop_while p s) <= String.length s)%nat.
Proof.
  induction s as [|c r IH]; [reflexivity|]. cbn [drop_while].
  destruct (p c); cbn [String.length]; lia.
Qed.

Lemma drop_digits_shorter (s : string) :
  head_digit s = true ->
  (String.length (drop_while is_digit s) < String.length s)%nat.
Proof.
  destruct s as [|c r]; [discriminate|]. cbn [head_digit]. intros Hc.
  cbn [drop_while]. rewrite Hc. cbn [String.length].
  pose proof (drop_while_shorter is_digit r). lia.
Qed.

Lemma drop_digits_head (s : string) : head_digit (drop_while is_digit s) = false.
Proof.
  induction s as [|c r IH]; [reflexivity|]. cbn [drop_while].
  destruct (is_digit c) eqn:Hc; [exact IH|]. cbn [head_digit]. exact Hc.
Qed.

(** *** The first difference of two runs *)

Lemma first_diff_zero (a b : string) :
  String.length a = String.length b -> first_diff a b = 0 -> a = b.
Proof.
  revert b. induction a as [|x a IH]; intros [|y b] Hl Hd; try discriminate;
    [reflexivity|].
  cbn [first_diff] in Hd. destruct (Ascii.eqb x y) eqn:Hxy.
  - apply Ascii.eqb_eq in Hxy. subst y. f_equal. apply IH; [|exact Hd].
    cbn in Hl. lia.
  - apply Ascii.eqb_neq in Hxy. exfalso. apply Hxy. apply nat_of_ascii_inj. lia.
Qed.

Lemma first_diff_compare (a b : string) (ka kb : list Z) :
  String.length a = String.length b -> first_diff a b <> 0 ->
  compare_keys (codes a ++ ka) (codes b ++ kb) = (first_diff a b ?= 0).
Proof.
  revert b. induction a as [|x a IH]; intros [|y b] Hl Hd; try discriminate.
  - cbn in Hd. contradiction.
  - cbn [first_diff] in *. cbn [codes app].
    destruct (Ascii.eqb x y) eqn:Hxy.
    + apply Ascii.eqb_eq in Hxy. subst y. rewrite compare_keys_cons.
      apply IH; [cbn in Hl; lia|exact Hd].
    + rewrite compare_keys_head by lia.
      rewrite (Z.compare_sub (Z.of_nat (nat_of_ascii x))). reflexivity.
Qed.

(** *** filevercmp compares keys *)

Lemma verrevcmp_S (f : nat) (a b : string) :
  verrevcmp (S f) a b
  = if (negb (nonempty a) && negb (nonempty b))%bool then 0
    else if (head_nondigit a || head_nondigit b)%bool then
      if order a =? order b then verrevcmp f (tail a) (tail b)
      else order a - order b
    else
      let a' := drop_while is_zero a in
      let b' := drop_while is_zero b in
      let da := take_while is_digit a' in
      let db := take_while is_digit b' in
      if (String.length db <? String.length da)%nat then 1
      else if (String.length da <? String.length db)%nat then -1
      else if first_diff da db =? 0 then
        verrevcmp f (drop_while is_digit a') (drop_while is_digit b')
      else first_diff da db.
Proof. reflexivity. Qed.

Lemma head_kinds (s : string) :
  (s = EmptyString /\ head_nondigit s = false /\ head_digit s = false)
  \/ (nonempty s = true /\ head_nondigit s = true /\ head_digit s = false)
  \/ (nonempty s = true /\ head_nondigit s = false /\ head_digit s = true).
Proof.
  destruct s as [|c r]; [left; auto|]. cbn.
  destruct (is_digit c); [right; right|right; left]; auto.
Qed.

Lemma tail_shorter (s : string) :
  nonempty s = true -> (String.length (tail s) < String.length s)%nat.
Proof. destruct s; [discriminate|]. cbn. lia. Qed.

Lemma tail_length (s : string) : (String.length (tail s) <= String.length s)%nat.
Proof. destruct s; cbn; lia. Qed.

(** The weight of a character that is no digit, against the weight
    of a digit (0) and against that of the end (-1). *)
Lemma order_against (s t : string) :
  head_nondigit s = true -> head_nondigit t = false ->
  order s <> order t
  /\ order s <> 0 /\ order s <> -1
  /\ (order s ?= order t) = (order s ?= 0)
  /\ (order s ?= 0) = (order s ?= -1).
Proof.
  intros Hs Ht. pose proof (order_nondigit s Hs) as Ho.
  assert (Hot : order t = 0 \/ order t = -1).
  { destruct (head_kinds t) as [(-> & _) | [(_ & Hx & _) | (_ & _ & Hd)]].
    - right. reflexivity.
    - congruence.
    - left. apply order_digit. exact Hd. }
  assert (Hcmp : forall x, x = 0 \/ x = -1 ->
            (order s ?= x) = if order s <? 0 then Lt else Gt).
  { intros x Hx. destruct (order s <? 0) eqn:Hneg.
    - apply Z.ltb_lt in Hneg. apply Z.compare_lt_iff. lia.
    - apply Z.ltb_ge in Hneg. apply Z.compare_gt_iff. lia. }
  split; [lia|]. split; [lia|]. split; [lia|].
  rewrite (Hcmp (order t) Hot), (Hcmp 0), (Hcmp (-1)) by auto. auto.
Qed.

Lemma verrevcmp_keys (n : nat) (a b : string) :
  (String.length a + String.length b < n)%nat ->
  (verrevcmp n a b ?= 0)
  = compare_keys (sort_key false a) (sort_key false b)
  /\ (head_digit a = false -> head_digit b = false ->
      (verrevcmp n a b ?= 0)
      = compare_keys (sort_key true a) (sort_key true b)).
Proof.
  revert a b. induction n as [|f IH]; intros a b Hlen; [lia|].
  rewrite verrevcmp_S.
  destruct (head_kinds a) as [(-> & Hna & Hda) | [(Hea & Hna & Hda) | (Hea & Hna & Hda)]];
  destruct (head_kinds b) as [(-> & Hnb & Hdb) | [(Heb & Hnb & Hdb) | (Heb & Hnb & Hdb)]];
    try rewrite Hea; try rewrite Heb; rewrite ?Hna, ?Hnb;
    cbn [nonempty negb andb orb].
  - (* both at their end *)
    split; [reflexivity|]. intros _ _. reflexivity.
  - (* end, character *)
    destruct (order_against b EmptyString Hnb eq_refl) as (Hne & H0 & H1 & Hc0 & Hc1).
    rewrite order_empty in *.
    assert (Hneq : (-1 =? order b) = false) by (apply Z.eqb_neq; lia).
    rewrite Hneq.
    rewrite (key_of_char b Hnb), (key_after_run b Hdb).
    destruct b as [|d rb]; [discriminate|]. cbn [sort_key].
    rewrite <- Z.compare_sub.
    split; [|intros _ _; rewrite compare_keys_head by lia; reflexivity].
    rewrite compare_keys_head by lia.
    rewrite (Z.compare_antisym (order (String d rb)) (-1)),
            (Z.compare_antisym (order (String d rb)) 0).
    rewrite Hc1. reflexivity.
  - (* end, run *)
    cbn zeta. split; [|intros _ Hx; congruence].
    rewrite (key_of_run b Hnb).
    cbn [drop_while take_while String.length sort_key codes app].
    set (db := take_while is_digit (drop_while is_zero b)).
    destruct (String.length db) as [|k] eqn:Hk.
    + cbn [Nat.ltb Nat.leb]. destruct db; [|discriminate].
      cbn [first_diff Z.eqb codes app Z.of_nat].
      rewrite !compare_keys_cons.
      rewrite drop_digits_zeros.
      assert (Hb : (String.length (drop_while is_digit b) < String.length b)%nat)
        by (apply drop_digits_shorter; exact Hdb).
      destruct (IH EmptyString (drop_while is_digit b)) as [_ IH2];
        [cbn [String.length] in *; lia|].
      rewrite IH2 by (reflexivity || apply drop_digits_head). reflexivity.
    + replace (S k <? 0)%nat with false by reflexivity.
      replace (0 <? S k)%nat with true by reflexivity.
      rewrite compare_keys_cons, compare_keys_head by lia.
      symmetry. apply Z.compare_lt_iff. lia.
  - (* character, end *)
    destruct (order_against a EmptyString Hna eq_refl) as (Hne & H0 & H1 & Hc0 & Hc1).
    rewrite order_empty in *.
    assert (Hneq : (order a =? -1) = false) by (apply Z.eqb_neq; lia).
    rewrite Hneq.
    rewrite (key_of_char a Hna), (key_after_run a Hda).
    destruct a as [|c ra]; [discriminate|]. cbn [sort_key].
    rewrite <- Z.compare_sub.
    split; [|intros _ _; rewrite compare_keys_head by lia; reflexivity].
    rewrite compare_keys_head by lia. rewrite Hc1. reflexivity.
  - (* two characters *)
    rewrite (key_of_char a Hna), (key_of_char b Hnb),
            (key_after_run a Hda), (key_after_run b Hdb).
    assert (Hgoal : ((if order a =? order b then verrevcmp f (tail a) (tail b)
                      else order a - order b) ?= 0)
                    = compare_keys (order a :: sort_key false (tail a))
                                   (order b :: sort_key false (tail b))).
    { destruct (order a =? order b) eqn:Ho.
      - apply Z.eqb_eq in Ho. rewrite Ho, compare_keys_cons.
        apply IH. pose proof (tail_shorter a Hea). pose proof (tail_length b). lia.
      - apply Z.eqb_neq in Ho. rewrite compare_keys_head by exact Ho.
        symmetry. apply Z.compare_sub. }
    destruct a as [|c ra]; [discriminate|]. destruct b as [|d rb]; [discriminate|].
    split; [exact Hgoal|intros _ _; exact Hgoal].
  - (* character, run *)
    destruct (order_against a b Hna Hnb) as (Hne & H0 & H1 & Hc0 & Hc1).
    apply Z.eqb_neq in Hne. rewrite Hne.
    split; [|intros _ Hx; congruence].
    rewrite (key_of_char a Hna), (key_of_run b Hnb).
    rewrite compare_keys_head by lia.
    rewrite <- Z.compare_sub. exact Hc0.
  - (* run, end *)
    cbn zeta. split; [|intros Hx; congruence].
    rewrite (key_of_run a Hna).
    cbn [drop_while take_while String.length sort_key codes app].
    set (da := take_while is_digit (drop_while is_zero a)).
    destruct (String.length da) as [|k] eqn:Hk.
    + cbn [Nat.ltb Nat.leb]. destruct da; [|discriminate].
      cbn [first_diff Z.eqb codes app Z.of_nat].
      rewrite !compare_keys_cons.
      rewrite drop_digits_zeros.
      assert (Ha : (String.length (drop_while is_digit a) < String.length a)%nat)
        by (apply drop_digits_shorter; exact Hda).
      destruct (IH (drop_while is_digit a) EmptyString) as [_ IH2];
        [cbn [String.length] in *; lia|].
      rewrite IH2 by (reflexivity || apply drop_digits_head). reflexivity.
    + replace (0 <? S k)%nat with true by reflexivity.
      rewrite compare_keys_cons, compare_keys_head by lia.
      symmetry. apply Z.compare_gt_iff. lia.
  - (* run, character *)
    destruct (order_against b a Hnb Hna) as (Hne & H0 & H1 & Hc0 & Hc1).
    assert (Hneq : (order a =? order b) = false) by (apply Z.eqb_neq; lia).
    rewrite Hneq.
    split; [|intros Hx; congruence].
    rewrite (key_of_run a Hna), (key_of_char b Hnb).
    rewrite compare_keys_head by lia.
    rewrite <- Z.compare_sub.
    rewrite (Z.compare_antisym (order b) (order a)), (Z.compare_antisym (order b) 0).
    rewrite Hc0. reflexivity.
  - (* two runs *)
    cbn zeta. split; [|intros Hx; congruence].
    rewrite (key_of_run a Hna), (key_of_run b Hnb).
    set (da := take_while is_digit (drop_while is_zero a)).
    set (db := take_while is_digit (drop_while is_zero b)).
    rewrite compare_keys_cons.
    destruct (String.length db <? String.length da)%nat eqn:Hgt.
    { apply Nat.ltb_lt in Hgt. rewrite compare_keys_head by lia.
      symmetry. apply Z.compare_gt_iff. lia. }
    destruct (String.length da <? String.length db)%nat eqn:Hlt.
    { apply Nat.ltb_lt in Hlt. rewrite compare_keys_head by lia.
      symmetry. apply Z.compare_lt_iff. lia. }
    apply Nat.ltb_ge in Hgt, Hlt.
    assert (Hl : String.length da = String.length db) by lia.
    rewrite Hl, compare_keys_cons.
    destruct (first_diff da db =? 0) eqn:Hd.
    + apply Z.eqb_eq in Hd. rewrite (first_diff_zero da db Hl Hd).
      rewrite compare_keys_app, !drop_digits_zeros.
      pose proof (drop_digits_shorter a Hda).
      pose proof (drop_digits_shorter b Hdb).
      destruct (IH (drop_while is_digit a) (drop_while is_digit b)) as [_ IH2];
        [lia|].
      apply IH2; apply drop_digits_head.
    + apply Z.eqb_neq in Hd. symmetry. apply first_diff_compare; assumption.
Qed.

(** *** The order is total and transitive *)

Lemma version_le_key (a b : string) :
  version_le a b
  = match compare_keys (sort_key false a) (sort_key false b) with
    | Lt => true
    | Gt => false
    | Eq => String.leb a b
    end.
Proof.
  unfold version_le, filevercmp.
  destruct (verrevcmp_keys (S (String.length a + String.length b)) a b) as [Hk _];
    [lia|].
  rewrite <- Hk.
  set (v := verrevcmp (S (String.length a + String.length b)) a b).
  destruct (v ?= 0) eqn:Hc.
  - apply Z.compare_eq_iff in Hc. rewrite Hc. reflexivity.
  - apply Z.compare_lt_iff in Hc. apply Z.ltb_lt in Hc. rewrite Hc. reflexivity.
  - apply Z.compare_gt_iff in Hc.
    replace (v <? 0) with false by (symmetry; apply Z.ltb_ge; lia).
    replace (0 <? v) with true by (symmetry; apply Z.ltb_lt; lia).
    reflexivity.
Qed.

Lemma string_compare_list (a b : string) :
  String.compare a b
  = list_compare Ascii.compare (list_ascii_of_string a) (list_ascii_of_string b).
Proof.
  revert b. induction a as [|x a IH]; intros [|y b]; cbn; try reflexivity.
  rewrite IH. reflexivity.
Qed.

Lemma ascii_compare_eq (x y : ascii) : Ascii.compare x y = Eq <-> x = y.
Proof.
  split; [apply Ascii.compare_eq_iff|]. intros ->.
  unfold Ascii.compare. apply N.compare_refl.
Qed.

Lemma string_compare_trans (a b c : string) (r : comparison) :
  String.compare a b = r -> String.compare b c = r -> String.compare a c = r.
Proof.
  rewrite !string_compare_list.
  apply list_compare_trans; [exact ascii_compare_eq| |].
  - intros x y z c0 Hxy Hyz. unfold Ascii.compare in *. destruct c0.
    + apply N.compare_eq_iff in Hxy, Hyz. rewrite Hxy, Hyz. apply N.compare_refl.
    + rewrite N.compare_lt_iff in *. lia.
    + rewrite N.compare_gt_iff in *. lia.
  - intros x y. apply Ascii.compare_antisym.
Qed.

Lemma string_leb_trans (a b c : string) :
  String.leb a b = true -> String.leb b c = true -> String.leb a c = true.
Proof.
  unfold String.leb.
  destruct (String.compare a b) eqn:Hab; [| |discriminate];
  destruct (String.compare b c) eqn:Hbc; try discriminate; intros _ _.
  - apply String.compare_eq_iff in Hab. subst b. rewrite Hbc. reflexivity.
  - apply String.compare_eq_iff in Hab. subst b. rewrite Hbc. reflexivity.
  - apply String.compare_eq_iff in Hbc. subst c. rewrite Hab. reflexivity.
  - rewrite (string_compare_trans a b c Lt Hab Hbc). reflexivity.
Qed.

Lemma version_le_total (a b : string) :
  version_le a b = true \/ version_le b a = true.
Proof.
  rewrite !version_le_key.
  rewrite (compare_keys_antisym (sort_key false a) (sort_key false b)).
  destruct (compare_keys (sort_key false a) (sort_key false b)); cbn;
    auto using String.leb_total.
Qed.

Lemma version_le_trans (a b c : string) :
  version_le a b = true -> version_le b c = true -> version_le a c = true.
Proof.
  rewrite !version_le_key.
  destruct (compare_keys (sort_key false a) (sort_key false b)) eqn:Hab;
    [| |discriminate].
  - apply compare_keys_eq in Hab. rewrite Hab.
    destruct (compare_keys (sort_key false b) (sort_key false c));
      [apply string_leb_trans|auto|discriminate].
  - intros _.
    destruct (compare_keys (sort_key false b) (sort_key false c)) eqn:Hbc;
      [| |discriminate].
    + apply compare_keys_eq in Hbc. rewrite <- Hbc, Hab. reflexivity.
    + rewrite (compare_keys_trans _ _ _ Lt Hab Hbc). reflexivity.
Qed.

(** *** Insertion sort leaves an ascending list *)

Lemma insert_by_in (le : string -> string -> bool) (x z : string) (l : list string) :
  In z (insert_by le x l) -> z = x \/ In z l.
Proof.
  induction l as [|y r IH]; cbn [insert_by].
  - intros [<-|[]]. left. reflexivity.
  - destruct (le x y).
    + intros [<-|Hz]; [left; reflexivity|right; exact Hz].
    + intros [<-|Hz]; [right; left; reflexivity|].
      destruct (IH Hz) as [->|Hr]; [left; reflexivity|right; right; exact Hr].
Qed.

Section Sorting.
Variable le : string -> string -> bool.
Hypothesis le_total : forall a b, le a b = true \/ le b a = true.
Hypothesis le_trans : forall a b c, le a b = true -> le b c = true -> le a c = true.

Lemma insert_by_sorted (x : string) (l : list string) :
  StronglySorted (fun a b => le a b = true) l ->
  StronglySorted (fun a b => le a b = true) (insert_by le x l).
Proof.
  induction 1 as [|y r Hs IH Hy]; cbn [insert_by].
  - constructor; constructor.
  - destruct (le x y) eqn:Hxy.
    + constructor; [constructor; assumption|].
      constructor; [exact Hxy|].
      rewrite List.Forall_forall in *. intros z Hz.
      apply (le_trans x y z Hxy). apply Hy. exact Hz.
    + constructor; [exact IH|].
      rewrite List.Forall_forall in *. intros z Hz.
      apply insert_by_in in Hz as [->|Hz]; [|apply Hy; exact Hz].
      destruct (le_total x y) as [Hc|Hc]; [congruence|exact Hc].
Qed.

Lemma sort_by_sorted (l : list string) :
  StronglySorted (fun a b => le a b = true) (sort_by le l).
Proof.
  induction l as [|x l IH]; [constructor|].
  cbn. apply insert_by_sorted. exact IH.
Qed.

End Sorting.

Lemma uniq_subset (l : list string) (z : string) : In z (uniq l) -> In z l.
Proof.
  induction l as [|x r IH]; [auto|].
  cbn [uniq]. destruct r as [|y r'].
  - auto.
  - destruct (String.eqb x y).
    + intros Hz. right. apply IH. exact Hz.
    + intros [<-|Hz]; [left; reflexivity|right; apply IH; exact Hz].
Qed.

Lemma uniq_sorted (R : string -> string -> Prop) (l : list string) :
  StronglySorted R l -> StronglySorted R (uniq l).
Proof.
  induction 1 as [|x r Hs IH Hx]; [constructor|].
  cbn [uniq]. destruct r as [|y r'].
  - constructor; constructor.
  - destruct (String.eqb x y); [exact IH|].
    constructor; [exact IH|].
    rewrite List.Forall_forall in *. intros z Hz. apply Hx.
    apply uniq_subset. exact Hz.
Qed.

(** What [sort --version-sort | uniq] prints ascends in the order of
    sort. *)
Lemma native_sort_ascends (l : list string) :
  StronglySorted (fun a b => version_le a b = true) (uniq (native_version_sort l)).
Proof.
  apply uniq_sorted. apply sort_by_sorted.
  - exact version_le_total.
  - exact version_le_trans.
Qed.

End VersionOrder.

(** ** The list of known versions is always there after a refresh *)

Section RefreshFacts.
Context {Repo : Type} `{Git Repo}.
Variable E : Env.
Import Text.

Lemma known_paths_differ (a b : string) :
  a ++ "/known-dl" <> b ++ "/known-versions.txt".
Proof.
  intros Heq. apply (f_equal reverse) in Heq.
  rewrite !reverse_app in Heq. discriminate Heq.
Qed.

(** With a download tool installed, [_update_remote_known_list_if_needed]
    returns 0 and prints the path of the list; the list can then be
    read, unless its path names a directory. *)
Lemma known_list_refresh_returns (w : World Repo) :
  have_transport E = true ->
  exists w',
    capture (_update_remote_known_list_if_needed E) w = Ret (0, [known_list E]) w'
    /\ (test_d (fs w) (known_list E) = false ->
        exists catalog, file_lines (fs w') (known_list E) = Some catalog).
Proof.
  intros Ht. unfold capture, _update_remote_known_list_if_needed, bind at 1, get at 1.
  cbn [fs with_stdout].
  destruct (test_e (fs w) (known_list E) && negb (force_known_update E)
            && negb (_file_older_than_secs E (with_stdout [] w) (known_list E)
                       (GIMME_KNOWN_CACHE_MAX E)))%bool eqn:Hhit.
  - unfold bind, echo, modify, ret. cbn.
    eexists. split; [reflexivity|].
    intros Hd. apply andb_prop in Hhit as [Hhit _].
    apply andb_prop in Hhit as [He _].
    unfold test_e, test_d, file_lines in *. cbn [fs with_stdout].
    destruct (fs w !! known_list E) as [[lines t x|]|];
      [eexists; reflexivity | discriminate | discriminate].
  - unfold bind at 1.
    set (prep := if test_d (fs w) (GIMME_VERSION_PREFIX E) then ret tt
                 else mkdir_p (GIMME_VERSION_PREFIX E)).
    assert (Hprep : exists w0, prep (with_stdout [] w) = Ret tt w0
                               /\ stdout w0 = []).
    { subst prep. destruct (test_d (fs w) (GIMME_VERSION_PREFIX E)).
      - eexists. split; reflexivity.
      - unfold mkdir_p, modify. eexists. split; [reflexivity|].
        cbn. destruct (fs w !! GIMME_VERSION_PREFIX E); reflexivity. }
    destruct Hprep as (w0 & -> & Hout0).
    unfold bind at 1.
    destruct (do_curl_facts E (GIMME_LIST_KNOWN E) (GIMME_TMP E ++ "/known-dl") w0 Ht)
      as (st & w1 & -> & _ & _ & Hout1 & _ & _ & _).
    unfold bind at 1, get at 1.
    rewrite write_then_mv_after_rm
      by (intros Hx; exact (append_neq (known_list E) ".new" eq_refl (eq_sym Hx))).
    unfold bind, rm_f, echo, ret, modify. cbn [fs stdout with_fs with_stdout].
    rewrite Hout1, Hout0. cbn [app].
    eexists. split; [reflexivity|].
    intros _. unfold file_lines. cbn [fs with_fs with_stdout].
    rewrite lookup_delete_ne by apply known_paths_differ.
    rewrite lookup_insert_eq. eexists. reflexivity.
Qed.

(** The list that a refresh makes of a download page. *)
Definition versions_of_page (page : list string) : list string :=
  uniq (_version_sort E (omap (fun l => match_known (ifs_trim l)) page)).

(** After [_update_remote_known_list_if_needed] the list is one made
    of a download page, when the list that was there before, if any,
    was one: the function keeps it or writes a new one. *)
Lemma known_list_after_update (w : World Repo) :
  have_transport E = true ->
  test_d (fs w) (known_list E) = false ->
  (forall old, file_lines (fs w) (known_list E) = Some old ->
               exists page, old = versions_of_page page) ->
  exists w' page,
    capture (_update_remote_known_list_if_needed E) w = Ret (0, [known_list E]) w'
    /\ file_lines (fs w') (known_list E) = Some (versions_of_page page).
Proof.
  intros Ht Hd Hinv.
  unfold capture, _update_remote_known_list_if_needed, bind at 1, get at 1.
  cbn [fs with_stdout].
  destruct (test_e (fs w) (known_list E) && negb (force_known_update E)
            && negb (_file_older_than_secs E (with_stdout [] w) (known_list E)
                       (GIMME_KNOWN_CACHE_MAX E)))%bool eqn:Hhit.
  - unfold bind, echo, modify, ret. cbn.
    apply andb_prop in Hhit as [Hhit _].
    apply andb_prop in Hhit as [He _].
    unfold test_e, test_d, file_lines in *.
    destruct (fs w !! known_list E) as [[lines t x|]|] eqn:Hl;
      [|discriminate|discriminate].
    destruct (Hinv lines eq_refl) as (page & ->).
    eexists. exists page. split; [reflexivity|].
    cbn [fs with_stdout]. rewrite Hl. reflexivity.
  - unfold bind at 1.
    set (prep := if test_d (fs w) (GIMME_VERSION_PREFIX E) then ret tt
                 else mkdir_p (GIMME_VERSION_PREFIX E)).
    assert (Hprep : exists w0, prep (with_stdout [] w) = Ret tt w0
                               /\ stdout w0 = []).
    { subst prep. destruct (test_d (fs w) (GIMME_VERSION_PREFIX E)).
      - eexists. split; reflexivity.
      - unfold mkdir_p, modify. eexists. split; [reflexivity|].
        cbn. destruct (fs w !! GIMME_VERSION_PREFIX E); reflexivity. }
    destruct Hprep as (w0 & -> & Hout0).
    unfold bind at 1.
    destruct (do_curl_facts E (GIMME_LIST_KNOWN E) (GIMME_TMP E ++ "/known-dl") w0 Ht)
      as (st & w1 & -> & _ & _ & Hout1 & _ & _ & _).
    unfold bind at 1, get at 1.
    rewrite write_then_mv_after_rm
      by (intros Hx; exact (append_neq (known_list E) ".new" eq_refl (eq_sym Hx))).
    unfold bind, rm_f, echo, ret, modify. cbn [fs stdout with_fs with_stdout].
    rewrite Hout1, Hout0. cbn [app].
    eexists. exists (default [] (file_lines (fs w1) (GIMME_TMP E ++ "/known-dl"))).
    split; [reflexivity|].
    unfold file_lines at 1. cbn [fs with_fs with_stdout].
    rewrite lookup_delete_ne by apply known_paths_differ.
    rewrite lookup_insert_eq. reflexivity.
Qed.

Lemma longest_before_start (needle s g : string) :
  longest_before needle s = Some g -> exists t, s = g ++ t.
Proof.
  revert g. induction s as [|c r IH]; intros g; cbn [longest_before].
  - destruct (starts_with needle EmptyString); [|discriminate].
    intros [= <-]. exists EmptyString. reflexivity.
  - destruct (longest_before needle r) as [g'|].
    + intros [= <-]. destruct (IH g' eq_refl) as (t & ->).
      exists t. reflexivity.
    + destruct (starts_with needle (String c r)); [|discriminate].
      intros [= <-]. exists (String c r). reflexivity.
Qed.

Lemma take_while_all (p : ascii -> bool) (s : string) :
  all_chars p (take_while p s) = true.
Proof.
  induction s as [|c r IH]; [reflexivity|]. cbn [take_while].
  destruct (p c) eqn:Hc; [|reflexivity]. cbn [all_chars]. rewrite Hc. exact IH.
Qed.

(** A version found on a download page has the characters of the
    pattern only, and [read] keeps it as it is. *)
Lemma match_known_chars (line g : string) :
  match_known line = Some g -> all_chars is_known_char g = true.
Proof.
  induction line as [|c r IH]; cbn [match_known].
  - discriminate.
  - destruct (strip_prefix "go" (String c r)) as [t|].
    + destruct (longest_before ".src" (take_while is_known_char t)) as [g'|] eqn:Hl.
      * intros [= <-]. apply longest_before_start in Hl as (u & Hu).
        pose proof (take_while_all is_known_char t) as Hall.
        rewrite Hu, all_chars_app in Hall.
        apply andb_prop in Hall as [Hg _]. exact Hg.
      * exact IH.
    + exact IH.
Qed.

Lemma known_char_not_blank (c : ascii) : is_known_char c = true -> is_blank c = false.
Proof.
  intros Hc. unfold is_blank.
  destruct (Ascii.eqb c " ") eqn:Hs.
  - apply Ascii.eqb_eq in Hs. subst c. discriminate Hc.
  - destruct (Ascii.eqb c "009") eqn:Htab; [|reflexivity].
    apply Ascii.eqb_eq in Htab. subst c. discriminate Hc.
Qed.

Lemma ifs_trim_known (s : string) :
  all_chars is_known_char s = true -> ifs_trim s = s.
Proof.
  intros Hs.
  assert (Hdrop : forall t, all_chars is_known_char t = true ->
                            drop_while is_blank t = t).
  { intros [|c t]; [reflexivity|]. cbn. intros Ht.
    apply andb_prop in Ht as [Hc _].
    rewrite (known_char_not_blank c Hc). reflexivity. }
  unfold ifs_trim. rewrite (Hdrop s Hs).
  rewrite Hdrop by (rewrite all_chars_reverse; exact Hs).
  apply reverse_involutive.
Qed.

Lemma sort_by_subset (le : string -> string -> bool) (l : list string) (z : string) :
  In z (sort_by le l) -> In z l.
Proof.
  induction l as [|x l IH]; [auto|]. cbn.
  intros Hz. apply insert_by_in in Hz as [->|Hz]; [left; reflexivity|].
  right. apply IH. exact Hz.
Qed.

(** With sort --version-sort, the list made of a download page
    ascends in the order of sort, and [read] changes none of its
    lines. *)
Lemma versions_of_page_ascend (page : list string) :
  have_version_sort E = true ->
  StronglySorted (fun a b => VersionSort.version_le a b = true)
                 (versions_of_page page)
  /\ map ifs_trim (versions_of_page page) = versions_of_page page.
Proof.
  intros Hsort. unfold versions_of_page, _version_sort. rewrite Hsort.
  split; [apply native_sort_ascends|].
  set (l := omap (fun l => match_known (ifs_trim l)) page).
  assert (Hall : forall v, In v (uniq (VersionSort._version_sort true l)) ->
                           ifs_trim v = v).
  { intros v Hv. apply uniq_subset in Hv. apply sort_by_subset in Hv.
    subst l. apply list_elem_of_In in Hv.
    apply list_elem_of_omap in Hv as (line & _ & Hm).
    apply ifs_trim_known. apply (match_known_chars _ _ Hm). }
  induction (uniq (VersionSort._version_sort true l)) as [|v r IH]; [reflexivity|].
  cbn [map]. rewrite (Hall v) by (left; reflexivity).
  f_equal. apply IH. intros u Hu. apply Hall. right. exact Hu.
Qed.

End RefreshFacts.

(** ** C8: the previous stable version *)

Section OldStableFacts.
Context {Repo : Type} `{Git Repo}.
Variable E : Env.
Import Text.

(** A command substitution leaves the standard output as it was, and
    does the same whatever the standard output holds. *)
Lemma capture_stdout (m : Sh Repo Z) (w w' : World Repo)
    (x : Z * list string) (l : list string) :
  capture m w = Ret x w' ->
  stdout w' = stdout w
  /\ capture m (with_stdout l w) = Ret x (with_stdout l w').
Proof.
  unfold capture.
  change (with_stdout [] (with_stdout l w)) with (with_stdout [] w).
  destruct (m (with_stdout [] w)) as [s w0 | c w0 |]; intros Hc;
    try discriminate; injection Hc as <- <-; split; reflexivity.
Qed.



End OldStableFacts.


Section StableFacts.
Context {Repo : Type} `{Git Repo}.
Variable E : Env.
Import Text.





End StableFacts.

Section OldStableClaim.
Context {Repo : Type} `{Git Repo}.
Variable E : Env.
Import Text.





End OldStableClaim.



(** ** C1: wildcard specifiers *)

Section WildcardClaim.
Context {Repo : Type} `{Git Repo}.
Variable E : Env.
Import Text.

Lemma last_match_three (base : string) :
  nonempty base = true ->
  all_chars is_digit_or_dot base = true ->
  last_match base [base ++ ".1"; base ++ ".2"; base ++ ".10"] = Some (base ++ ".10").
Proof.
  intros Hne Hall. unfold last_match. cbn [map].
  rewrite !ifs_trim_id by (rewrite all_chars_app, Hall; reflexivity).
  assert (Hm : forall more, nonempty more = true ->
                 all_chars is_digit_or_dot more = true ->
                 wild_match base (base ++ String "." more) = true).
  { intros more H1 H2. apply wild_match_extends. right. exists more. auto. }
  cbn [List.filter].
  rewrite (Hm "1"), (Hm "2"), (Hm "10") by reflexivity.
  reflexivity.
Qed.

(** On every host.  For a wildcard specifier [base.x] whose base
    consists of digits and dots, [_resolve_version] obtains the list
    of known versions, reads it in the order of the file and
    - returns, with status 0, the last entry that equals the base or
      extends it with a dot and further digits and dots;
    - fails with status 2, printing the specifier and no version,
      when no entry is of that form;
    - resolves [P.x] to [P.10] when the file holds P.1, P.2, P.10 in
      this order.
    (A download tool is installed, and the path of the list does not
    name a directory.) *)
Lemma resolve_wildcard_last_entry (fuel : nat) (e : bool) (base : string)
    (w : World Repo) :
  nonempty base = true ->
  all_chars is_digit_or_dot base = true ->
  have_transport E = true ->
  test_d (fs w) (known_list E) = false ->
  exists (w' : World Repo) (catalog : list string),
    capture (_update_remote_known_list_if_needed E) w = Ret (0, [known_list E]) w'
    /\ file_lines (fs w') (known_list E) = Some catalog
    /\ (forall v, last_match base catalog = Some v ->
          _resolve_version E (S fuel) e (base ++ ".x") w
          = Ret 0 (with_stdout (stdout w' ++ [v]) w')
          /\ extends_base base v)
    /\ ((forall u, In u (map ifs_trim catalog) -> ~ extends_base base u) ->
        _resolve_version E (S fuel) e (base ++ ".x") w
        = Ret 2 (not_found_world E (base ++ ".x") base w'))
    /\ (catalog = [base ++ ".1"; base ++ ".2"; base ++ ".10"] ->
        _resolve_version E (S fuel) e (base ++ ".x") w
        = Ret 0 (with_stdout (stdout w' ++ [base ++ ".10"]) w')).
Proof.
  intros Hne Hall Ht Hd.
  destruct (known_list_refresh_returns E w Ht) as (w' & Hcap & Hread).
  destruct (Hread Hd) as (catalog & Hfile).
  exists w', catalog. split; [exact Hcap|]. split; [exact Hfile|].
  assert (Hfile' : file_lines (fs w') (subst_value [known_list E]) = Some catalog).
  { rewrite subst_value_single; [exact Hfile|].
    unfold known_list. apply nonempty_app_r. reflexivity. }
  pose proof (resolve_wildcard_run E fuel e base w w' [known_list E] catalog
                Hne Hall Hcap Hfile') as Hrun.
  split; [|split].
  - intros v Hv. rewrite Hv in Hrun. split; [exact Hrun|].
    pose proof (last_match_matches base v catalog Hv) as [Hm _].
    apply wild_match_extends. exact Hm.
  - intros Hnone.
    destruct (last_match base catalog) as [v|] eqn:Hv; [|exact Hrun].
    apply last_match_matches in Hv as [Hm Hin].
    exfalso. apply (Hnone v Hin). apply wild_match_extends. exact Hm.
  - intros ->. rewrite (last_match_three base Hne Hall) in Hrun. exact Hrun.
Qed.

(** On a host whose sort has --version-sort the claim holds.  When
    the list that is there, if any, is one made of a download page,
    the list that [_resolve_version] reads is one too; it ascends in
    the order of sort, and the answer for [base.x] is an entry of the
    list that extends the base and has every other such entry at or
    below it.  When no entry extends the base the status is 2. *)
Lemma resolve_wildcard_with_version_sort (fuel : nat) (e : bool) (base : string)
    (w : World Repo) :
  nonempty base = true ->
  all_chars is_digit_or_dot base = true ->
  have_transport E = true ->
  have_version_sort E = true ->
  test_d (fs w) (known_list E) = false ->
  (forall old, file_lines (fs w) (known_list E) = Some old ->
               exists page, old = versions_of_page E page) ->
  exists (w' : World Repo) (page : list string),
    capture (_update_remote_known_list_if_needed E) w = Ret (0, [known_list E]) w'
    /\ file_lines (fs w') (known_list E) = Some (versions_of_page E page)
    /\ StronglySorted (fun a b => VersionSort.version_le a b = true)
                      (versions_of_page E page)
    /\ (forall v, last_match base (versions_of_page E page) = Some v ->
          _resolve_version E (S fuel) e (base ++ ".x") w
          = Ret 0 (with_stdout (stdout w' ++ [v]) w')
          /\ In v (versions_of_page E page)
          /\ extends_base base v
          /\ forall u, In u (versions_of_page E page) -> extends_base base u ->
                       VersionSort.version_le u v = true)
    /\ ((forall u, In u (versions_of_page E page) -> ~ extends_base base u) ->
        _resolve_version E (S fuel) e (base ++ ".x") w
        = Ret 2 (not_found_world E (base ++ ".x") base w')).
Proof.
  intros Hne Hall Ht Hsort Hd Hinv.
  destruct (known_list_after_update E w Ht Hd Hinv) as (w' & page & Hcap & Hfile).
  destruct (versions_of_page_ascend E page Hsort) as [Hasc Htrim].
  exists w', page. split; [exact Hcap|]. split; [exact Hfile|].
  split; [exact Hasc|].
  assert (Hfile' : file_lines (fs w') (subst_value [known_list E])
                   = Some (versions_of_page E page)).
  { rewrite subst_value_single; [exact Hfile|].
    unfold known_list. apply nonempty_app_r. reflexivity. }
  pose proof (resolve_wildcard_run E fuel e base w w' [known_list E]
                (versions_of_page E page) Hne Hall Hcap Hfile') as Hrun.
  split.
  - intros v Hv. rewrite Hv in Hrun. split; [exact Hrun|].
    pose proof (last_match_matches base v _ Hv) as [Hm Hin].
    rewrite Htrim in Hin. split; [exact Hin|].
    split; [apply wild_match_extends; exact Hm|].
    intros u Hu Hext. unfold last_match in Hv. rewrite Htrim in Hv.
    destruct (last_filter_highest (fun a b => VersionSort.version_le a b = true)
                (wild_match base) (versions_of_page E page) v Hasc Hv u Hu)
      as [->|Hle].
    + apply wild_match_extends. exact Hext.
    + destruct (version_le_total v v); assumption.
    + exact Hle.
  - intros Hnone.
    destruct (last_match base (versions_of_page E page)) as [v|] eqn:Hv;
      [|exact Hrun].
    apply last_match_matches in Hv as [Hm Hin]. rewrite Htrim in Hin.
    exfalso. apply (Hnone v Hin). apply wild_match_extends. exact Hm.
Qed.

End WildcardClaim.

(** C1 fails on a host whose sort has no --version-sort, on the
    claim's own example with P = 1.9.  The download page lists the
    releases 1.9.10, 1.9.2 and 1.9.1; the fallback of [_version_sort]
    stores them in the order 1.9.10, 1.9.1, 1.9.2 (see C10);
    [_resolve_version] keeps the last line of the list that matches,
    and 1.9.x resolves to 1.9.2, although 1.9.10 is in the list,
    matches the search pattern and comes after 1.9.2 in the order of
    versions.  On a host whose sort has --version-sort the same page
    gives 1.9.10. *)
Theorem wildcard_not_highest_with_fallback_sort :
  have_version_sort Examples.plain_sort = false
  /\ (exists w',
        _resolve_version Examples.plain_sort 1 true "1.9.x"
          (Examples.world_of ∅ 1000000) = Ret 0 w'
        /\ file_lines (fs w') (known_list Examples.plain_sort)
           = Some ["1.9.10"; "1.9.1"; "1.9.2"]
        /\ stdout w' = ["1.9.2"])
  /\ wild_match "1.9" "1.9.10" = true
  /\ VersionSort.version_le "1.9.2" "1.9.10" = true
  /\ VersionSort.version_le "1.9.10" "1.9.2" = false
  /\ (exists w',
        _resolve_version (Examples.with_remote Examples.page_1_9 Examples.linux)
          1 true "1.9.x" (Examples.world_of ∅ 1000000) = Ret 0 w'
        /\ file_lines (fs w') (known_list Examples.linux)
           = Some ["1.9.1"; "1.9.2"; "1.9.10"]
        /\ stdout w' = ["1.9.10"]).
Proof.
  split; [reflexivity|].
  split; [eexists; split; [vm_compute; reflexivity|]; split; vm_compute; reflexivity|].
  split; [reflexivity|]. split; [vm_compute; reflexivity|].
  split; [vm_compute; reflexivity|].
  eexists. split; [vm_compute; reflexivity|]. split; vm_compute; reflexivity.
Qed.

(** With GNU sort on the host, the download page of the example server
    gives the list 1.21.0, 1.21.9, 1.21.10, 1.22.3, and 1.21.x resolves
    to 1.21.10, which [resolve_wildcard_with_version_sort] tells to be
    the highest entry for 1.21. *)
Example resolve_after_download :
  exists w',
    _resolve_version Examples.linux 1 true "1.21.x" (Examples.world_of ∅ 1000000)
    = Ret 0 w'
    /\ stdout w' = ["1.21.10"]
    /\ file_lines (fs w') (known_list Examples.linux)
       = Some ["1.21.0"; "1.21.9"; "1.21.10"; "1.22.3"].
Proof.
  eexists. split; [vm_compute; reflexivity|]. split; vm_compute; reflexivity.
Qed.

(** ** A failed download, in general *)

Section FailedRefresh.
Context {Repo : Type} `{Git Repo}.
Variable E : Env.
Import Text.

Lemma mkdir_p_keeps_files (dir : string) (w : World Repo) :
  exists w1,
    mkdir_p dir w = Ret tt w1
    /\ (forall p, file_lines (fs w1) p = file_lines (fs w) p)
    /\ clock w1 = clock w /\ stdout w1 = stdout w.
Proof.
  unfold mkdir_p, modify. eexists. split; [reflexivity|].
  destruct (fs w !! dir) eqn:Hd; [repeat split|].
  split; [|split; reflexivity].
  intros p. unfold file_lines. cbn [fs with_fs].
  destruct (decide (p = dir)) as [->|Hne].
  - rewrite lookup_insert_eq, Hd. reflexivity.
  - rewrite lookup_insert_ne by congruence. reflexivity.
Qed.

(** A download that is refused and leaves no output changes no file. *)
Lemma do_curl_refused (url file : string) (c : positive) (w : World Repo) :
  have_transport E = true ->
  remote E url = Refused c None ->
  exists w1,
    _do_curl E url file w = Ret (Zpos c) w1
    /\ (forall p, file_lines (fs w1) p = file_lines (fs w) p)
    /\ clock w1 = clock w /\ stdout w1 = stdout w.
Proof.
  intros Ht Hr. unfold _do_curl. rewrite Ht, Hr. unfold bind at 1.
  destruct (mkdir_p_keeps_files (dirname file) w) as (w1 & -> & Hf & Hc & Ho).
  unfold bind, modify, ret. eexists. split; [reflexivity|].
  cbn [fs clock stdout with_net_log]. auto.
Qed.

Lemma version_sort_nil : _version_sort E [] = [].
Proof. unfold _version_sort. destruct (have_version_sort E); reflexivity. Qed.

(** Whenever the list of known versions is to be refreshed and the
    download is refused, the list becomes the empty file and the
    function returns 0. *)
Lemma failed_fetch_empties_known_list (w : World Repo) (c : positive) :
  have_transport E = true ->
  (test_e (fs w) (known_list E) && negb (force_known_update E)
   && negb (_file_older_than_secs E w (known_list E) (GIMME_KNOWN_CACHE_MAX E)))%bool
  = false ->
  remote E (GIMME_LIST_KNOWN E) = Refused c None ->
  file_lines (fs w) (GIMME_TMP E ++ "/known-dl") = None ->
  exists w',
    _update_remote_known_list_if_needed E w = Ret 0 w'
    /\ file_lines (fs w') (known_list E) = Some [].
Proof.
  intros Ht Hmiss Hr Hdl.
  unfold _update_remote_known_list_if_needed, bind at 1, get at 1.
  rewrite Hmiss. unfold bind at 1.
  set (prep := if test_d (fs w) (GIMME_VERSION_PREFIX E) then ret tt
               else mkdir_p (GIMME_VERSION_PREFIX E)).
  assert (Hprep : exists w0, prep w = Ret tt w0
                    /\ forall p, file_lines (fs w0) p = file_lines (fs w) p).
  { subst prep. destruct (test_d (fs w) (GIMME_VERSION_PREFIX E)).
    - exists w. split; [reflexivity|auto].
    - destruct (mkdir_p_keeps_files (GIMME_VERSION_PREFIX E) w)
        as (w0 & Hrun & Hf & _). exists w0. auto. }
  destruct Hprep as (w0 & -> & Hf0).
  unfold bind at 1.
  destruct (do_curl_refused (GIMME_LIST_KNOWN E) (GIMME_TMP E ++ "/known-dl") c w0 Ht Hr)
    as (w1 & -> & Hf1 & _ & _).
  unfold bind at 1, get at 1.
  rewrite Hf1, Hf0, Hdl. cbn [default from_option id].
  change (omap (fun l : string => match_known (ifs_trim l)) []) with (@nil string).
  rewrite version_sort_nil. cbn [uniq].
  rewrite write_then_mv_after_rm
    by (intros Hx; exact (append_neq (known_list E) ".new" eq_refl (eq_sym Hx))).
  unfold bind, rm_f, echo, ret, modify. cbn [fs with_fs with_stdout].
  eexists. split; [reflexivity|].
  unfold file_lines. cbn [fs with_fs with_stdout].
  rewrite lookup_delete_ne by apply known_paths_differ.
  rewrite lookup_insert_eq. reflexivity.
Qed.

End FailedRefresh.

(** On a host that is neither darwin, nor a bsd, nor linux, every file
    is found older than a lifetime that is shorter than the time since
    the epoch, whatever its modification time.  (The time and the
    lifetime are numbers of 64 bits.) *)
Lemma older_without_stat {Repo : Type} `{Git Repo} (E : Env) (w : World Repo)
    (file : string) (age_secs : Z) :
  (String.eqb (GIMME_HOSTOS E) "darwin" || Text.ends_with "bsd" (GIMME_HOSTOS E)
   || String.eqb (GIMME_HOSTOS E) "linux")%bool = false ->
  0 <= clock w < 2 ^ 63 ->
  - 2 ^ 63 <= age_secs < clock w ->
  _file_older_than_secs E w file age_secs = true.
Proof.
  intros Hhost Hnow Hage. unfold _file_older_than_secs, _last_mod_timestamp.
  apply orb_false_elim in Hhost as [Hbsd Hlinux].
  rewrite Hbsd, Hlinux. cbn [negb Z.eqb arith_value default from_option id].
  rewrite age_test_exact by lia. apply Z.ltb_lt. lia.
Qed.

(** * More of the script

    The rest of this file embeds the strategies of installation with
    their downloads, the reading of the command line, the integers of
    versions with the choice of the architecture, and the two lists
    of versions, and states properties of these and of the functions
    embedded above. *)

(** ** The installation strategies (lines 72-81, 161-198, 273-284,
       340-345, 396-412, 452-508) *)

(** *** ALLOWED_UPSTREAM_VERSION_RE (line 81) *)

(** The bracket expressions [[1-9]] and [[0-9a-zA-Z_-]]. *)
Definition is_nonzero_digit (c : ascii) : bool :=
  ((49 <=? nat_of_ascii c)%nat && (nat_of_ascii c <=? 57)%nat)%bool.

Definition is_version_char (c : ascii) : bool :=
  (Text.is_alnum c || Ascii.eqb c "_" || Ascii.eqb c "-")%bool.

(** Where a reading of the regular expression stands after its first
    character: in the digits of the major version, of which [n] more
    than the first were read; behind the dot that opens a group; or in
    a group, after its digit and [n] more characters. *)
Inductive UpstreamState : Type :=
| InMajor (n : nat)
| AfterDot
| InGroup (n : nat).

(** The rest of the expression: up to three more digits, then one or
    more groups of a dot, a digit and up to nine characters, then the
    end of the text.  A dot is in no bracket expression, so a dot
    always ends the major version or a group. *)
Fixpoint allowed_tail (st : UpstreamState) (s : string) : bool :=
  match s with
  | EmptyString => match st with InGroup _ => true | _ => false end
  | String c r =>
      match st with
      | InMajor n =>
          if Text.is_dot c then allowed_tail AfterDot r
          else (Text.is_digit c && (n <? 3)%nat && allowed_tail (InMajor (S n)) r)%bool
      | AfterDot => (Text.is_digit c && allowed_tail (InGroup 0) r)%bool
      | InGroup n =>
          if Text.is_dot c then allowed_tail AfterDot r
          else (is_version_char c && (n <? 9)%nat && allowed_tail (InGroup (S n)) r)%bool
      end
  end.

(** [[ version =~ ${ALLOWED_UPSTREAM_VERSION_RE} ]] *)
Definition allowed_upstream_version (version : string) : bool :=
  match version with
  | EmptyString => false
  | String c r => (is_nonzero_digit c && allowed_tail (InMajor 0) r)%bool
  end.

(** [${version//\//__}]: every slash replaced by two underscores. *)
Fixpoint subst_slashes (s : string) : string :=
  match s with
  | EmptyString => EmptyString
  | String c r =>
      if Ascii.eqb c "/" then String "_" (String "_" (subst_slashes r))
      else String c (subst_slashes r)
  end.

(** [echo word]: the lines it prints.  A hyphen followed by letters
    among n, e and E is read as options: nothing is printed when n is
    among them, and an empty line otherwise. *)
Definition is_echo_option (s : string) : bool :=
  match s with
  | String c r =>
      (Ascii.eqb c "-" && Text.nonempty r
       && Text.all_chars (fun x => Ascii.eqb x "n" || Ascii.eqb x "e" || Ascii.eqb x "E") r)%bool
  | EmptyString => false
  end.

Definition echo_word (s : string) : list string :=
  if is_echo_option s then
    if Text.any_char (fun x => Ascii.eqb x "n") s then [] else [EmptyString]
  else [s].

Section Strategies.
Context {Repo : Type} `{Git Repo}.
Variable E : Env.
Import Text.
Local Open Scope sh_scope.
Local Abbreviation Sh := (Sh Repo).
Local Abbreviation World := (World Repo).

(** Settings that the functions modelled so far do not read. *)
Variable GIMME_DOWNLOAD_BASE : string.
Variable GIMME_BINARY_OSX : string.
Variable GIMME_NO_ENV_ALIAS : string.
Variable GIMME_INSTALL_RACE : string.

(** External tools: tar or unzip with the moves that follow it,
    unpacking an archive into a directory; the build of go in a
    directory, which is all of [_compile]; go install -race std for
    the go of a directory; and ln -sf. *)
Variable unpack : string -> string -> Sh Z.
Variable _compile : string -> Sh Z.
Variable go_install_race : string -> Sh Z.
Variable ln_sf : string -> string -> Sh Z.

(** The URLs that [_binary version file arch] (lines 162-189) passes
    to [_do_curls]. *)
Definition binary_urls (version arch : string) : list string :=
  let stem := GIMME_DOWNLOAD_BASE ++ "/go" ++ version ++ "." ++ GIMME_OS E ++ "-" ++ arch in
  let urls := [stem ++ ".tar.gz"] in
  let urls :=
    if (String.eqb (GIMME_OS E) "darwin" && nonempty GIMME_BINARY_OSX)%bool
    then (stem ++ "-" ++ GIMME_BINARY_OSX ++ ".tar.gz") :: urls
    else urls in
  let urls :=
    if String.eqb arch "arm"
    then (stem ++ "v6l.tar.gz") :: (stem ++ "6.tar.gz") :: urls
    else urls in
  if String.eqb (GIMME_OS E) "windows" then [stem ++ ".zip"] else urls.

Definition _binary (version file arch : string) : Sh Z :=
  _do_curls E file (binary_urls version arch).

(** [_source version file] (lines 192-198) *)
Definition _source (version file : string) : Sh Z :=
  _do_curls E file
    [ GIMME_DOWNLOAD_BASE ++ "/go" ++ version ++ ".src.tar.gz";
      "https://github.com/golang/go/archive/go" ++ version ++ ".tar.gz" ].

(** [_extract file dir] (lines 274-284) *)
Definition _extract (file dir : string) : Sh Z :=
  mkdir_p dir ;;
  unpack file dir.

(** [_try_install_race dir] (lines 340-345) *)
Definition _try_install_race (dir : string) : Sh Z :=
  if negb (nonempty GIMME_INSTALL_RACE) then ret 0
  else go_install_race dir.

(** [cp src dst] where [dst] is no directory: a regular file is
    copied; a missing source, a directory and a copy of a file onto
    itself are errors. *)
Definition cp (src dst : string) : Sh Z :=
  w <- get ;;
  match fs w !! src with
  | Some (File lines _ x) =>
      if String.eqb src dst then
        echo_err ("cp: '" ++ src ++ "' and '" ++ dst ++ "' are the same file") ;;
        ret 1
      else
        modify (with_fs (<[dst := File lines (clock w) x]> (fs w))) ;;
        ret 0
  | Some (Dir _) =>
      echo_err ("cp: -r not specified; omitting directory '" ++ src ++ "'") ;;
      ret 1
  | None =>
      echo_err ("cp: cannot stat '" ++ src ++ "': No such file or directory") ;;
      ret 1
  end.

(** [_env_alias dir env-file] (lines 397-412) for the version [ver]
    (GIMME_GO_VERSION).  A go binary that does not run prints nothing
    for GOHOSTOS and GOHOSTARCH. *)
Definition _env_alias (ver dir env_file : string) : Sh Z :=
  if nonempty GIMME_NO_ENV_ALIAS then
    echo_all (echo_word env_file) ;;
    ret 0
  else
    let hostos := match go_tool E dir with Some h => h.1 | None => EmptyString end in
    let hostarch := match go_tool E dir with Some h => h.2 | None => EmptyString end in
    if (String.eqb hostos (GIMME_OS E) && String.eqb hostarch (GIMME_ARCH E))%bool then
      let dest := GIMME_ENV_PREFIX E ++ "/go" ++ subst_slashes ver ++ ".env" in
      cp env_file dest ;;
      ln_sf dest (GIMME_ENV_PREFIX E ++ "/latest.env") ;;
      echo_all (echo_word dest) ;;
      ret 0
    else
      echo_all (echo_word env_file) ;;
      ret 0.

(** [m | tee file] under pipefail: [m] runs in a subshell, what it
    prints goes to the file and to the standard output, and the status
    is that of [m]. *)
Definition pipe_tee (m : Sh Z) (file : string) : Sh Z :=
  c <- capture m ;;
  write_file file c.2 ;;
  echo_all c.2 ;;
  ret c.1.

(** [m >/dev/null] *)
Definition discard (m : Sh Z) : Sh Z :=
  fun w =>
    match m w with
    | Ret s w' => Ret s (with_stdout (stdout w) w')
    | Exit c w' => Exit c (with_stdout (stdout w) w')
    | OutOfFuel => OutOfFuel
    end.

(** The last two commands of the three strategies: the env file is
    written and printed, then the line that exports GIMME_ENV. *)
Definition write_env (ver dir env_file : string) : Sh Z :=
  s <- pipe_tee (_env E dir) env_file ;;
  if negb (s =? 0) then ret 1
  else
    a <- capture (_env_alias ver dir env_file) ;;
    echo ("export GIMME_ENV=" ++ dquote ++ subst_value a.2 ++ dquote) ;;
    ret 0.

(** [_try_binary version arch] (lines 453-470); [ver] is
    GIMME_GO_VERSION, which [_env_alias] reads. *)
Definition _try_binary (ver version arch : string) : Sh Z :=
  let bin_tgz := GIMME_TMP E ++ "/go" ++ version ++ "." ++ GIMME_OS E ++ "." ++ arch
                 ++ ".tar.gz" in
  let bin_dir := GIMME_VERSION_PREFIX E ++ "/go" ++ version ++ "." ++ GIMME_OS E ++ "."
                 ++ arch in
  let bin_env := GIMME_ENV_PREFIX E ++ "/go" ++ version ++ "." ++ GIMME_OS E ++ "."
                 ++ arch ++ ".env" in
  if negb (allowed_upstream_version version) then ret 1
  else
    let bin_tgz :=
      if String.eqb (GIMME_OS E) "windows"
      then default bin_tgz (strip_suffix ".tar.gz" bin_tgz) ++ ".zip"
      else bin_tgz in
    s <- _binary version bin_tgz arch ;;
    if negb (s =? 0) then ret 1
    else
      s <- _extract bin_tgz bin_dir ;;
      if negb (s =? 0) then ret 1
      else write_env ver bin_dir bin_env.

(** [_try_source] (lines 472-485) *)
Definition _try_source (ver : string) : Sh Z :=
  let src_tgz := GIMME_TMP E ++ "/go" ++ ver ++ ".src.tar.gz" in
  let src_dir := GIMME_VERSION_PREFIX E ++ "/go" ++ ver ++ ".src" in
  let src_env := GIMME_ENV_PREFIX E ++ "/go" ++ ver ++ ".src.env" in
  if negb (allowed_upstream_version ver) then ret 1
  else
    s <- _source ver src_tgz ;;
    if negb (s =? 0) then ret 1
    else
      s <- _extract src_tgz src_dir ;;
      if negb (s =? 0) then ret 1
      else
        s <- _compile src_dir ;;
        if negb (s =? 0) then ret 1
        else
          s <- _try_install_race src_dir ;;
          if negb (s =? 0) then ret 1
          else write_env ver src_dir src_env.

(** [_try_git] (lines 496-508) *)
Definition _try_git (ver : string) : Sh Z :=
  let git_dir := GIMME_VERSION_PREFIX E ++ "/go" in
  let git_env := GIMME_ENV_PREFIX E ++ "/go.git." ++ GIMME_OS E ++ "." ++ GIMME_ARCH E
                 ++ ".env" in
  s <- discard (_checkout ver git_dir) ;;
  if negb (s =? 0) then ret 1
  else
    s <- _compile git_dir ;;
    if negb (s =? 0) then ret 1
    else
      s <- _try_install_race git_dir ;;
      if negb (s =? 0) then ret 1
      else write_env ver git_dir git_env.

(** The installation (lines 935-949) with the three strategies of the
    script. *)
Definition gimme_install (ver : string) : Sh Z :=
  install E (_try_binary ver ver (GIMME_ARCH E)) (_try_source ver) (_try_git ver) ver.

End Strategies.

(** ** Versions as integers and the architecture (lines 768-778 and
       882-903) *)

Module Versint.
Import Text.

(** The words that [read -r -a] finds in [${1//[^0-9]/ }]: the
    maximal runs of digits of the text. *)
Fixpoint digit_runs (s : string) : list string :=
  match s with
  | EmptyString => []
  | String c r =>
      if is_digit c then
        match r with
        | String d _ =>
            if is_digit d then
              match digit_runs r with
              | run :: runs => String c run :: runs
              | [] => [String c EmptyString]
              end
            else String c EmptyString :: digit_runs r
        | EmptyString => [String c EmptyString]
        end
      else digit_runs r
  end.

Definition is_octal_digit (c : ascii) : bool :=
  ((48 <=? nat_of_ascii c)%nat && (nat_of_ascii c <=? 55)%nat)%bool.

Fixpoint octal_value (acc : N) (s : string) : N :=
  match s with
  | EmptyString => acc
  | String c r => octal_value (8 * acc + N.of_nat (nat_of_ascii c - 48))%N r
  end.

(** The integer that printf reads in an argument made of digits: a
    leading 0 makes it octal, and of an invalid octal number the
    digits before the first 8 or 9 count.  (Numbers that do not fit
    the integers of printf are not modelled.) *)
Definition printf_int (arg : string) : N :=
  if starts_with "0" arg then octal_value 0 (take_while is_octal_digit arg)
  else digits_value 0 arg.

Fixpoint zeros (n : nat) : string :=
  match n with
  | O => EmptyString
  | S k => String "0" (zeros k)
  end.

(** The conversion [%03d]. *)
Definition pad3 (n : N) : string :=
  zeros (3 - String.length (show_N n)) ++ show_N n.

(** [printf '1%03d%03d%03d%03d' args]: a missing argument counts as
    0, and the format is used again while arguments remain. *)
Fixpoint printf_versint (args : list N) : string :=
  match args with
  | a :: b :: c :: d :: ((_ :: _) as rest) =>
      "1" ++ pad3 a ++ pad3 b ++ pad3 c ++ pad3 d ++ printf_versint rest
  | _ =>
      "1" ++ pad3 (nth 0 args 0%N) ++ pad3 (nth 1 args 0%N)
      ++ pad3 (nth 2 args 0%N) ++ pad3 (nth 3 args 0%N)
  end.

(** The numbers of a version, as [_versint] reads them. *)
Definition version_numbers (version : string) : list N :=
  map printf_int (digit_runs version).

(** [_versint version] (lines 768-771): what it prints. *)
Definition _versint (version : string) : string :=
  printf_versint (version_numbers version).

(** [_to_goarch] (lines 773-778) *)
Definition _to_goarch (machine : string) : string :=
  if String.eqb machine "aarch64" then "arm64" else machine.

(** The test of line 886: the version is not master and its integer
    sorts before that of 1.5. *)
Definition arm64_unsupported (version : string) : bool :=
  (negb (String.eqb version "master")
   && String.ltb (_versint version) (_versint "1.5"))%bool.

(** The [case] on GIMME_ARCH of lines 882-896: the architecture after
    it, or nothing when the shell exits with status 1. *)
Definition normalize_arch (arch version : string) : option string :=
  if String.eqb arch "x86_64" then Some "amd64"
  else if String.eqb arch "x86" then Some "386"
  else if String.eqb arch "arm64" then
    if arm64_unsupported version then None else Some arch
  else if starts_with "arm" arch then Some "arm"
  else Some arch.

(** The [case] on GIMME_HOSTARCH of lines 898-903. *)
Definition normalize_hostarch (arch : string) : string :=
  if String.eqb arch "x86_64" then "amd64"
  else if String.eqb arch "x86" then "386"
  else if String.eqb arch "arm64" then arch
  else if starts_with "arm" arch then "arm"
  else arch.

End Versint.

(** ** The command line (lines 816-880) *)

Module Cli.

(** What the loop over the arguments decides: one of the commands
    that end the script, or to go on to an installation with the two
    force flags and the words that were not consumed. *)
Inductive Command : Type :=
| HelpText
| VersionText
(** [_resolve_version] on the word after the flag, if there is one *)
| Resolve (force_known_update : bool) (spec : option string)
| ListInstalled
| ListKnown (force_known_update : bool)
| Install (force_install force_known_update : bool) (words : list string).

Definition one_of (words : list string) (w : string) : bool :=
  existsb (String.eqb w) words.

Definition is_force : string -> bool := one_of ["-f"; "--force"; "force"].

Definition is_force_known : string -> bool :=
  one_of ["--force-known-update"; "force-known-update"].

Definition is_dummy : string -> bool := one_of ["-i"; "install"].

(** The words with a branch of their own in the [case]. *)
Definition is_reserved (w : string) : bool :=
  (one_of ["-h"; "--help"; "help"; "wat"] w
   || one_of ["-V"; "--version"; "version"] w
   || one_of ["-r"; "--resolve"; "resolve"] w
   || one_of ["-l"; "--list"; "list"] w
   || one_of ["-k"; "--known"; "known"] w
   || is_force w || is_force_known w || is_dummy w)%bool.

(** The loop of lines 819-873, entered with the two flags as they
    are. *)
Fixpoint parse (force_install force_known_update : bool) (args : list string)
    : Command :=
  match args with
  | [] => Install force_install force_known_update []
  | a :: rest =>
      if one_of ["-h"; "--help"; "help"; "wat"] a then HelpText
      else if one_of ["-V"; "--version"; "version"] a then VersionText
      else if one_of ["-r"; "--resolve"; "resolve"] a then
        Resolve force_known_update (head rest)
      else if one_of ["-l"; "--list"; "list"] a then ListInstalled
      else if one_of ["-k"; "--known"; "known"] a then ListKnown force_known_update
      else if is_force a then parse true force_known_update rest
      else if is_force_known a then parse force_install true rest
      else if is_dummy a then parse force_install force_known_update rest
      else Install force_install force_known_update args
  end.

(** Lines 875-880: the first two words that are left, when they are
    not empty, replace GIMME_GO_VERSION and GIMME_VERSION_PREFIX. *)
Definition positional (words : list string) (version prefix : string)
    : string * string :=
  (if Text.nonempty (nth 0 words EmptyString) then nth 0 words EmptyString else version,
   if Text.nonempty (nth 1 words EmptyString) then nth 1 words EmptyString else prefix).

End Cli.

(** ** The lists of installed and of known versions (lines 519-542
       and 574-582) *)

(** What follows the last place where [needle] occurs in a text. *)
Fixpoint find_last (needle s : string) : option string :=
  match s with
  | EmptyString => Text.strip_prefix needle s
  | String _ r =>
      match find_last needle r with
      | Some t => Some t
      | None => Text.strip_prefix needle s
      end
  end.

(** What precedes the first place where [needle] occurs in a text. *)
Fixpoint find_first (needle s : string) : option string :=
  if Text.starts_with needle s then Some EmptyString
  else match s with
       | EmptyString => None
       | String c r =>
           match find_first needle r with
           | Some t => Some (String c t)
           | None => None
           end
       end.

Section Listing.
Context {Repo : Type} `{Git Repo}.
Variable E : Env.
Import Text.
Local Open Scope sh_scope.
Local Abbreviation Sh := (Sh Repo).
Local Abbreviation World := (World Repo).

(** The status of go env GOROOT for the go of PATH (127 when there is
    none) and what it prints; and what echo -en prints for a text,
    which is the text when it has no backslash and is not read as
    options. *)
Variable go_env_goroot : Z * string.
Variable echo_e : string -> string.

(** The two expansions of lines 526-527 and 532-533:
    [${d##*/go}], the text without its longest start that ends with
    /go, and then [${cleaned%%.${GIMME_OS}.*}], that without its
    longest end that starts with a dot, the system and a dot.  (The
    name of the system has no character that is special in a
    pattern.) *)
Definition cleaned (d : string) : string :=
  let after := default d (find_last "/go" d) in
  default after (find_first ("." ++ GIMME_OS E ++ ".") after).

Definition is_slash (c : ascii) : bool := Ascii.eqb c "/".

(** The paths that the pattern of line 531 expands to: the entries of
    the directory of versions whose name is go, any text, a dot, the
    system, a dot and any text; they come in the order of their
    bytes. *)
Definition glob_versions (f : gmap string Node) : list string :=
  sort_by String.leb
    (List.filter
       (fun p =>
          match strip_prefix (GIMME_VERSION_PREFIX E ++ "/go") p with
          | Some name =>
              (negb (any_char is_slash name)
               && contains ("." ++ GIMME_OS E ++ ".") name)%bool
          | None => false
          end)
       (map fst (map_to_list f))).

(** The loop that reads the sorted names (lines 535-541); the mark of
    the current version goes to the standard error. *)
Fixpoint print_versions (current_version : string) (lines : list string)
    : Sh unit :=
  match lines with
  | [] => ret tt
  | line :: rest =>
      let name := ifs_trim line in
      (if String.eqb name current_version then echo_err " <= current" else ret tt) ;;
      echo (echo_e name) ;;
      print_versions current_version rest
  end.

(** [_list_versions] (lines 519-542), where errexit is in force when
    [e] holds: the assignment of line 525 has the status of go. *)
Definition _list_versions (e : bool) : Sh Z :=
  w <- get ;;
  if negb (test_d (fs w) (GIMME_VERSION_PREFIX E)) then ret 0
  else
    sh e (ret go_env_goroot.1) ;;
    print_versions (cleaned go_env_goroot.2)
      (_version_sort E (flat_map (fun d => echo_word (cleaned d)) (glob_versions (fs w)))) ;;
    ret 0.

(** [_list_known] (lines 574-582), where errexit is in force when [e]
    holds.  The first part of the pipe is a subshell, which an exit
    ends before cat runs.  Under pipefail the status of the pipe is 1
    when grep selects no line, and otherwise that of the subshell. *)
Definition _list_known (e : bool) : Sh Z :=
  k <- capture (_update_remote_known_list_if_needed E) ;;
  sh e (ret k.1) ;;
  let knownfile := subst_value k.2 in
  c <- capture (quiet (_list_versions e) ;; cat knownfile) ;;
  let lines := List.filter nonempty c.2 in
  echo_all (uniq (_version_sort E lines)) ;;
  ret (match lines with [] => 1 | _ => c.1 end).

End Listing.

(** ** Tools and a server for the examples *)

Module Tools.
Import Examples.

(** tar, as far as the script looks at what it unpacked: a bin
    directory with an executable go. *)
Definition unpack (file dir : string) : Sh ToyRepo Z :=
  bind (modify (fun w =>
          with_fs (<[dir ++ "/bin/go" := File ["ELF"] (clock w) true]>
                     (<[dir ++ "/bin" := Dir (clock w)]> (fs w))) w))
       (fun _ => ret 0).

Definition compile (dir : string) : Sh ToyRepo Z := ret 0.

Definition install_race (dir : string) : Sh ToyRepo Z := ret 0.

(** A link is kept as a file that holds the path it points to. *)
Definition ln_sf (target link : string) : Sh ToyRepo Z :=
  bind (write_file link [target]) (fun _ => ret 0).

(** A server that has the binary release of go 1.21.0 for linux on
    amd64, without a digest file. *)
Definition releases (url : string) : Fetched :=
  if String.eqb url "https://dl.google.com/go/go1.21.0.linux-amd64.tar.gz"
  then Served ["archive of go 1.21.0"]
  else server url.

Definition host : Env := with_remote releases linux.

(** A host without curl, wget and fetch. *)
Definition offline : Env :=
  {| program_name := program_name linux;
     GIMME_OS := GIMME_OS linux;
     GIMME_ARCH := GIMME_ARCH linux;
     GIMME_HOSTOS := GIMME_HOSTOS linux;
     GIMME_ENV_PREFIX := GIMME_ENV_PREFIX linux;
     GIMME_VERSION_PREFIX := GIMME_VERSION_PREFIX linux;
     GIMME_TMP := GIMME_TMP linux;
     GIMME_TYPE := GIMME_TYPE linux;
     GIMME_LIST_KNOWN := GIMME_LIST_KNOWN linux;
     GIMME_KNOWN_CACHE_MAX := GIMME_KNOWN_CACHE_MAX linux;
     GIMME_SILENT_ENV := GIMME_SILENT_ENV linux;
     force_known_update := force_known_update linux;
     have_transport := false;
     have_version_sort := have_version_sort linux;
     remote := remote linux;
     sha256sum_check := sha256sum_check linux;
     go_tool := go_tool linux;
     awk_other := awk_other linux;
     rm_other := rm_other linux |}.

Definition download_base : string := "https://dl.google.com/go".

Definition archive : string := "/tmp/gimme/go1.21.0.linux.amd64.tar.gz".



(** A directory of versions with two installations and the list of
    known versions. *)
Definition w_two_installed : World ToyRepo :=
  world_of {[ "/home/u/.gimme/versions" := Dir 999000;
              known_file := File ["1.21.0"; "1.21.5"; "1.22.0"] 999940 false;
              go_dir := Dir 999000;
              "/home/u/.gimme/versions/go1.9.7.linux.amd64" := Dir 999000 ]}
    1000000.

End Tools.

(** * Further properties *)

(** ** More on [_version_sort] (lines 124-134) *)

(** The zeros that follow a dot removed, in one pass over the line;
    [after_dot] tells that only a dot and zeros were read since the
    last character that was kept. *)
Fixpoint strip_after (after_dot : bool) (s : string) : string :=
  match s with
  | EmptyString => EmptyString
  | String c r =>
      if (after_dot && VersionSort.is_zero c)%bool then strip_after true r
      else String c (strip_after (Text.is_dot c) r)
  end.

Section FallbackSort.
Import Text VersionSort.

Lemma starts_with_cons (a b : ascii) (p s : string) :
  starts_with (String a p) (String b s) = (Ascii.eqb a b && starts_with p s)%bool.
Proof. unfold starts_with. cbn [strip_prefix]. destruct (Ascii.eqb a b); reflexivity. Qed.

Lemma starts_with_nil (s : string) : starts_with EmptyString s = true.
Proof. destruct s; reflexivity. Qed.

Lemma is_dot_eq (c : ascii) : is_dot c = true -> c = "."%char.
Proof. unfold is_dot. apply Ascii.eqb_eq. Qed.

Lemma strip_after_drop (s : string) :
  strip_after true s = strip_after false (drop_while is_zero s).
Proof.
  induction s as [|c r IH]; [reflexivity|].
  cbn [strip_after drop_while andb]. destruct (is_zero c) eqn:Hz; [exact IH|].
  cbn [strip_after andb]. reflexivity.
Qed.

Lemma drop_while_length (p : ascii -> bool) (s : string) :
  (String.length (drop_while p s) <= String.length s)%nat.
Proof.
  induction s as [|c r IH]; [reflexivity|].
  cbn [drop_while]. destruct (p c); cbn [String.length]; lia.
Qed.

(** The last sed command of the fallback is [strip_after]. *)
Lemma gsub_strip_zeros (n : nat) (s : string) :
  (String.length s < n)%nat -> gsub n strip_zeros s = strip_after false s.
Proof.
  revert s. induction n as [|n IH]; intros s Hlen; [lia|].
  cbn [gsub]. destruct s as [|c r]; [reflexivity|].
  cbn [String.length] in Hlen.
  destruct r as [|z r'].
  - cbn [strip_zeros strip_after andb]. rewrite IH by (cbn; lia). reflexivity.
  - cbn [strip_zeros]. destruct (is_dot c) eqn:Hc; cbn [andb].
    + destruct (is_zero z) eqn:Hz.
      * rewrite IH.
        2:{ pose proof (drop_while_length is_zero r'). cbn [String.length] in Hlen. lia. }
        cbn [strip_after andb]. rewrite Hc, Hz. cbn [andb].
        rewrite strip_after_drop. rewrite (is_dot_eq c Hc). reflexivity.
      * rewrite IH by lia. cbn [strip_after andb]. rewrite Hc, Hz. cbn [andb].
        reflexivity.
    + rewrite IH by lia. cbn [strip_after andb]. rewrite Hc. reflexivity.
Qed.

Lemma sed_strip_spec (s : string) : sed_strip s = strip_after false s.
Proof. unfold sed_strip, sed_g. apply gsub_strip_zeros. lia. Qed.

Lemma strip_after_dot (b : bool) (s : string) :
  strip_after b (String "." s) = String "." (strip_after true s).
Proof. destruct b; reflexivity. Qed.

Lemma strip_after_cons (b : bool) (c : ascii) (s : string) :
  strip_after b (String c s)
  = if (b && is_zero c)%bool then strip_after true s
    else String c (strip_after (is_dot c) s).
Proof. reflexivity. Qed.

Lemma strip_after_zero (s : string) :
  strip_after true (String "0" s) = strip_after true s.
Proof. reflexivity. Qed.

Lemma gsub_nil (n : nat) (m : string -> option (string * string)) :
  m EmptyString = None -> gsub n m EmptyString = EmptyString.
Proof. intros Hm. destruct n; [reflexivity|]. cbn [gsub]. rewrite Hm. reflexivity. Qed.

(** The padding of the first sed command only adds zeros behind dots:
    the last sed command gives the same for a padded and an unpadded
    line. *)
Lemma pad_one_invisible (n : nat) (b : bool) (s : string) :
  strip_after b (gsub n pad_one_digit s) = strip_after b s.
Proof.
  revert b s. induction n as [|n IH]; intros b s; [reflexivity|].
  cbn [gsub]. destruct (pad_one_digit s) as [[rep rest]|] eqn:Hm.
  - unfold pad_one_digit in Hm.
    destruct s as [|c [|d r]]; try discriminate.
    destruct (is_dot c) eqn:Hc; [|discriminate]. cbn [andb] in Hm.
    destruct (is_digit d) eqn:Hd; [|discriminate].
    apply is_dot_eq in Hc. subst c.
    destruct r as [|e r'].
    + injection Hm as <- <-. rewrite gsub_nil by reflexivity.
      cbn [String.append]. rewrite !strip_after_dot, !strip_after_zero.
      reflexivity.
    + destruct (is_dot e) eqn:He; [|discriminate]. injection Hm as <- <-.
      apply is_dot_eq in He. subst e.
      cbn [String.append]. rewrite !strip_after_dot, !strip_after_zero.
      rewrite !(strip_after_cons _ d), !strip_after_dot, !IH. reflexivity.
  - destruct s as [|c r]; [reflexivity|].
    cbn [strip_after]. rewrite !IH. reflexivity.
Qed.

Lemma pad_two_invisible (n : nat) (b : bool) (s : string) :
  strip_after b (gsub n pad_two_digits s) = strip_after b s.
Proof.
  revert b s. induction n as [|n IH]; intros b s; [reflexivity|].
  cbn [gsub]. destruct (pad_two_digits s) as [[rep rest]|] eqn:Hm.
  - unfold pad_two_digits in Hm.
    destruct s as [|c [|d1 [|d2 r]]]; try discriminate.
    destruct (is_dot c) eqn:Hc; [|discriminate].
    destruct (is_digit d1) eqn:Hd1; [|discriminate].
    destruct (is_digit d2) eqn:Hd2; [|discriminate].
    cbn [andb] in Hm.
    apply is_dot_eq in Hc. subst c.
    destruct r as [|e r'].
    + injection Hm as <- <-. rewrite gsub_nil by reflexivity.
      cbn [String.append]. rewrite !strip_after_dot, !strip_after_zero.
      reflexivity.
    + destruct (is_dot e) eqn:He; [|discriminate]. injection Hm as <- <-.
      apply is_dot_eq in He. subst e.
      cbn [String.append]. rewrite !strip_after_dot, !strip_after_zero.
      rewrite !(strip_after_cons _ d1), !(strip_after_cons _ d2),
        !strip_after_dot, !IH. reflexivity.
  - destruct s as [|c r]; [reflexivity|].
    cbn [strip_after]. rewrite !IH. reflexivity.
Qed.

Lemma sed_strip_pad (s : string) : sed_strip (sed_pad s) = sed_strip s.
Proof.
  rewrite !sed_strip_spec. unfold sed_pad, sed_g.
  rewrite pad_two_invisible, pad_one_invisible. reflexivity.
Qed.

Lemma insert_by_perm (le : string -> string -> bool) (x : string) (l : list string) :
  Permutation (insert_by le x l) (x :: l).
Proof.
  induction l as [|y r IH]; [reflexivity|].
  cbn [insert_by]. destruct (le x y); [reflexivity|].
  rewrite IH. apply perm_swap.
Qed.

Lemma sort_by_perm (le : string -> string -> bool) (l : list string) :
  Permutation (sort_by le l) l.
Proof.
  induction l as [|x r IH]; [reflexivity|].
  unfold sort_by in *. cbn [foldr]. rewrite insert_by_perm, IH. reflexivity.
Qed.

(** What the last sed command prints has no zero behind a dot. *)
Lemma strip_after_clean (s : string) (b : bool) :
  contains ".0" (strip_after b s) = false
  /\ (b = true -> starts_with "0" (strip_after b s) = false).
Proof.
  revert b. induction s as [|c r IH]; intros b; [split; reflexivity|].
  rewrite strip_after_cons.
  destruct (b && is_zero c)%bool eqn:Hbz; [split; [apply IH|intros _; apply IH; reflexivity]|].
  destruct (IH (is_dot c)) as [Hc Hs]. split.
  - cbn [contains]. rewrite Hc, orb_false_r.
    destruct (is_dot c) eqn:Hdot.
    + apply is_dot_eq in Hdot. subst c.
      destruct (strip_after true r) as [|z t]; [reflexivity|].
      specialize (Hs eq_refl).
      rewrite !starts_with_cons in *. rewrite Hs. reflexivity.
    + rewrite starts_with_cons. unfold is_dot in Hdot.
      rewrite Ascii.eqb_sym, Hdot. reflexivity.
  - intros ->. cbn [andb] in Hbz. rewrite starts_with_cons.
    unfold is_zero in Hbz. rewrite Ascii.eqb_sym, Hbz. reflexivity.
Qed.

Lemma strip_after_id (s : string) :
  contains ".0" s = false -> strip_after false s = s.
Proof.
  induction s as [|c r IH]; [reflexivity|].
  cbn [contains]. intros Hc. apply orb_false_elim in Hc as [Hs Hc].
  rewrite strip_after_cons. cbn [andb]. f_equal.
  destruct (is_dot c) eqn:Hdot; [|exact (IH Hc)].
  apply is_dot_eq in Hdot. subst c.
  destruct r as [|z r']; [reflexivity|].
  transitivity (strip_after false (String z r')); [|exact (IH Hc)].
  rewrite !strip_after_cons. cbn [andb].
  assert (Hz : is_zero z = false).
  { unfold is_zero. rewrite Ascii.eqb_sym.
    rewrite !starts_with_cons, starts_with_nil, andb_true_r in Hs.
    exact Hs. }
  rewrite Hz. reflexivity.
Qed.

End FallbackSort.

(** X1 ([_version_sort], lines 124-134).  Sorting loses and invents no
    line when sort has --version-sort.  Without it the lines come
    back, in some order, as the last sed command leaves them: each
    with the zeros that follow a dot removed; they are the lines that
    were given when no line has a zero right after a dot. *)
Theorem version_sort_lines (lines : list string) :
  Permutation (VersionSort._version_sort true lines) lines
  /\ Permutation (VersionSort._version_sort false lines)
                 (map VersionSort.sed_strip lines)
  /\ (forallb (fun l => negb (Text.contains ".0" l)) lines = true ->
      Permutation (VersionSort._version_sort false lines) lines).
Proof.
  assert (Hf : Permutation (VersionSort._version_sort false lines)
                           (map VersionSort.sed_strip lines)).
  { unfold VersionSort._version_sort, VersionSort.fallback_version_sort.
    rewrite sort_by_perm, map_map.
    erewrite map_ext; [reflexivity|].
    intros l. cbn beta. apply sed_strip_pad. }
  split; [apply sort_by_perm|]. split; [exact Hf|].
  intros Hall. rewrite Hf.
  erewrite map_ext_in; [rewrite map_id; reflexivity|].
  intros l Hin. rewrite sed_strip_spec. apply strip_after_id.
  rewrite forallb_forall in Hall. specialize (Hall l Hin).
  destruct (Text.contains ".0" l); [discriminate|reflexivity].
Qed.

(** X2 ([_version_sort], lines 127-133).  Without sort --version-sort
    no line that is printed has a zero right after a dot, and a line
    with one is never printed as it was given: versions such as 1.0,
    1.10.0 or 1.21.0 cannot come out of the fallback. *)
Theorem fallback_sort_prints_no_dot_zero (lines : list string) (l : string) :
  In l (VersionSort._version_sort false lines) ->
  Text.contains ".0" l = false.
Proof.
  intros Hin.
  unfold VersionSort._version_sort, VersionSort.fallback_version_sort in Hin.
  apply in_map_iff in Hin as (p & <- & _).
  rewrite sed_strip_spec. apply strip_after_clean.
Qed.

Lemma fallback_sort_prints_no_dot_zero_witness :
  In "1.10.2" (VersionSort._version_sort false ["1.9"; "1.10.2"])
  /\ Text.contains ".0" "1.10.2" = false.
Proof.
  split; [vm_compute; auto|].
  apply (fallback_sort_prints_no_dot_zero ["1.9"; "1.10.2"]).
  vm_compute. auto.
Defined.

(** ** More on the list of known versions (lines 544-572) *)

Section KnownLinks.
Import Text.

Lemma match_known_cons (c : ascii) (r : string) :
  match_known (String c r)
  = match match strip_prefix "go" (String c r) with
          | Some r' => longest_before ".src" (take_while is_known_char r')
          | None => None
          end with
    | Some g => Some g
    | None => match_known r
    end.
Proof. reflexivity. Qed.

Lemma take_while_app (p : ascii -> bool) (a b : string) :
  all_chars p a = true -> take_while p (a ++ b) = a ++ take_while p b.
Proof.
  induction a as [|c a IH]; [reflexivity|].
  cbn [all_chars String.append take_while]. intros Hall.
  apply andb_prop in Hall as [-> Hall]. rewrite IH by exact Hall. reflexivity.
Qed.

Lemma longest_before_app (needle a s g : string) :
  longest_before needle s = Some g ->
  longest_before needle (a ++ s) = Some (a ++ g).
Proof.
  intros Hs. induction a as [|c a IH]; [exact Hs|].
  cbn [String.append longest_before]. rewrite IH. reflexivity.
Qed.

(** No match of the pattern starts in a text without go that is
    followed by go. *)
Lemma match_known_skip (p t : string) :
  contains "go" p = false ->
  match_known (p ++ String "g" t) = match_known (String "g" t).
Proof.
  induction p as [|c p IH]; [reflexivity|].
  cbn [contains]. intros Hc. apply orb_false_elim in Hc as [Hs Hc].
  cbn [String.append]. rewrite match_known_cons.
  assert (Hhere : strip_prefix "go" (String c (p ++ String "g" t)) = None).
  { cbn [strip_prefix]. destruct (Ascii.eqb "g" c) eqn:Hg; [|reflexivity].
    destruct p as [|d p'].
    - reflexivity.
    - rewrite starts_with_cons, Hg in Hs. cbn [andb] in Hs.
      rewrite starts_with_cons, starts_with_nil, andb_true_r in Hs.
      cbn [String.append strip_prefix]. rewrite Hs. reflexivity. }
  rewrite Hhere. exact (IH Hc).
Qed.

End KnownLinks.

(** X3 ([_update_remote_known_list_if_needed], lines 546 and 561-565).
    A line of the download page that names the source archive of a
    version, go followed by the version and .src.tar.gz, gives that
    version: whatever precedes the name, if it has no go in it, and
    whatever follows it, if it does not go on with a letter, a digit,
    a dot or a backslash. *)
Theorem match_known_source_link (p v q : string) :
  Text.contains "go" p = false ->
  Text.all_chars is_known_char v = true ->
  Text.take_while is_known_char q = EmptyString ->
  match_known (p ++ "go" ++ v ++ ".src.tar.gz" ++ q) = Some v.
Proof.
  intros Hp Hv Hq.
  change ("go" ++ v ++ ".src.tar.gz" ++ q)
    with (String "g" (String "o" (v ++ ".src.tar.gz" ++ q))).
  rewrite match_known_skip by exact Hp. rewrite match_known_cons.
  cbn [Text.strip_prefix Ascii.eqb Bool.eqb].
  rewrite take_while_app by exact Hv.
  rewrite (take_while_app is_known_char ".src.tar.gz" q) by reflexivity.
  rewrite Hq.
  rewrite (longest_before_app ".src" v (".src.tar.gz" ++ EmptyString) EmptyString)
    by reflexivity.
  rewrite append_nil_r. reflexivity.
Qed.

Lemma match_known_source_link_witness :
  Text.contains "go" "<a class=download href=/dl/" = false
  /\ Text.all_chars is_known_char "1.21.0" = true
  /\ Text.take_while is_known_char ">source</a>" = EmptyString
  /\ match_known "<a class=download href=/dl/go1.21.0.src.tar.gz>source</a>"
     = Some "1.21.0".
Proof.
  split; [reflexivity|]. split; [reflexivity|]. split; [reflexivity|].
  exact (match_known_source_link "<a class=download href=/dl/" "1.21.0"
           ">source</a>" eq_refl eq_refl eq_refl).
Defined.

(** ** More on [_env] and [_try_existing] (lines 359-394, 414-450) *)

Section EnvFacts.
Context {Repo : Type} `{Git Repo}.
Variable E : Env.
Import Text.

(** The lines [_env] prints for an installation whose go binary
    reports the given host. *)
Definition env_lines (dir hostos hostarch : string) : list string :=
  [ EmptyString;
    if String.eqb hostos (GIMME_OS E) then "unset GOOS;"
    else "export GOOS=" ++ dquote ++ GIMME_OS E ++ dquote ++ ";";
    if String.eqb hostarch (GIMME_ARCH E) then "unset GOARCH;"
    else "export GOARCH=" ++ dquote ++ GIMME_ARCH E ++ dquote ++ ";";
    "export GOROOT='" ++ dir ++ "';";
    "export PATH=" ++ dquote ++ dir ++ "/bin:${PATH}" ++ dquote ++ ";" ]
  ++ (if nonempty (GIMME_SILENT_ENV E) then [] else ["go version >&2;"])
  ++ [EmptyString].

Lemma env_run (dir : string) (w : World Repo) :
  _env E dir w
  = if (test_d (fs w) (dir ++ "/bin") && test_x (fs w) (dir ++ "/bin/go"))%bool
    then match go_tool E dir with
         | Some (hostos, hostarch) =>
             Ret 0 (with_stdout (stdout w ++ env_lines dir hostos hostarch) w)
         | None => Ret 1 w
         end
    else Ret 1 w.
Proof.
  unfold _env, bind at 1, get at 1.
  destruct (test_d (fs w) (dir ++ "/bin") && test_x (fs w) (dir ++ "/bin/go"))%bool;
    [|reflexivity].
  cbn [negb]. destruct (go_tool E dir) as [[hostos hostarch]|]; [|reflexivity].
  unfold env_lines.
  destruct (String.eqb hostos (GIMME_OS E)), (String.eqb hostarch (GIMME_ARCH E)),
    (nonempty (GIMME_SILENT_ENV E));
    unfold bind, echo, modify, ret; f_equal; apply world_ext; cbn;
    rewrite <- ?app_assoc; reflexivity.
Qed.

Lemma sed_add_semicolon_done (s : string) :
  sed_add_semicolon (s ++ ";") = s ++ ";".
Proof.
  unfold sed_add_semicolon. rewrite reverse_app. reflexivity.
Qed.

Lemma sed_add_semicolon_app (a b : string) :
  nonempty b = true -> sed_add_semicolon b = b ->
  sed_add_semicolon (a ++ b) = a ++ b.
Proof.
  unfold sed_add_semicolon. intros Hne Hb. rewrite reverse_app.
  destruct (reverse b) as [|c r] eqn:Hr.
  - apply (f_equal reverse) in Hr. rewrite reverse_involutive in Hr.
    subst b. discriminate Hne.
  - cbn [String.append]. destruct (Ascii.eqb c ";"); [reflexivity|].
    exfalso. apply (append_neq b ";" eq_refl). symmetry. exact Hb.
Qed.

Ltac semicolon_done :=
  repeat (apply sed_add_semicolon_app;
          [first [reflexivity | apply nonempty_app_r; reflexivity]|]);
  reflexivity.

Lemma env_lines_stable (dir hostos hostarch : string) :
  Forall (fun l => sed_add_semicolon l = l) (env_lines dir hostos hostarch)
  /\ grep_unset_goroot (env_lines dir hostos hostarch) = false.
Proof.
  unfold env_lines. split.
  - cbn [app].
    constructor; [reflexivity|].
    constructor; [destruct (String.eqb hostos (GIMME_OS E)); semicolon_done|].
    constructor; [destruct (String.eqb hostarch (GIMME_ARCH E)); semicolon_done|].
    constructor; [semicolon_done|].
    constructor; [semicolon_done|].
    destruct (nonempty (GIMME_SILENT_ENV E)); repeat constructor.
  - destruct (String.eqb hostos (GIMME_OS E)), (String.eqb hostarch (GIMME_ARCH E)),
      (nonempty (GIMME_SILENT_ENV E)); reflexivity.
Qed.

Lemma rendering_stable (env_path : string) (lines : list string) :
  Forall (fun l => sed_add_semicolon l = l) lines ->
  grep_unset_goroot lines = false ->
  rendering env_path lines
  = (lines ++ [("export GIMME_ENV='" ++ env_path ++ "';")%string])%list.
Proof.
  intros Hsemi Hgrep. unfold rendering. rewrite Hgrep. cbn [app]. f_equal.
  clear Hgrep.
  induction Hsemi as [|l ls Hl _ IH]; cbn [map]; [reflexivity|].
  rewrite Hl, IH. reflexivity.
Qed.

Lemma with_stdout_nil (w : World Repo) : with_stdout (stdout w ++ []) w = w.
Proof. rewrite app_nil_r. apply with_stdout_same. Qed.

(** What [try_existing_at] does, whatever is on the disk. *)
Lemma try_existing_at_frame (dir env_path : string) (w : World Repo) :
  exists st out,
    try_existing_at dir env_path w = Ret st (with_stdout (stdout w ++ out) w)
    /\ ((st = 1 /\ out = [])
        \/ (st = 0 /\ last out = Some ("export GIMME_ENV='" ++ env_path ++ "';"))).
Proof.
  unfold try_existing_at, bind at 1, get at 1.
  destruct (test_x (fs w) (dir ++ "/bin/go") && test_s (fs w) env_path)%bool.
  - set (lines := default [] (file_lines (fs w) env_path)).
    exists 0, (rendering env_path lines). split.
    + unfold bind at 1. rewrite echo_all_run. unfold rendering.
      destruct (grep_unset_goroot lines).
      * unfold bind at 1, bind at 1. rewrite echo_all_run.
        unfold bind, echo, modify, ret. f_equal.
        apply world_ext; cbn; rewrite <- ?app_assoc; reflexivity.
      * unfold bind, echo, modify, ret. f_equal.
        apply world_ext; cbn; rewrite <- ?app_assoc; reflexivity.
    + right. split; [reflexivity|]. unfold rendering.
      rewrite app_assoc. apply last_snoc.
  - exists 1, []. split; [|left; split; reflexivity].
    unfold ret. rewrite with_stdout_nil. reflexivity.
Qed.

End EnvFacts.

Section EnvReuse.
Context {Repo : Type} `{Git Repo}.
Variable E : Env.
Import Text.

(** X4 ([_try_existing], lines 414-450).  Looking for an existing
    installation changes nothing but the standard output, whatever the
    kind asked for and whatever is on the disk.  It returns 0 or 1;
    with 1 it has printed nothing, with 0 the last line it printed
    exports GIMME_ENV. *)
Theorem try_existing_only_prints (kind ver : string) (w : World Repo) :
  exists st out,
    _try_existing E kind ver w = Ret st (with_stdout (stdout w ++ out) w)
    /\ ((st = 1 /\ out = [])
        \/ (st = 0
            /\ exists env_path,
                 last out = Some ("export GIMME_ENV='" ++ env_path ++ "';"))).
Proof.
  unfold _try_existing.
  set (bdir := GIMME_VERSION_PREFIX E ++ "/go" ++ ver ++ "." ++ GIMME_OS E ++ "."
               ++ GIMME_ARCH E).
  set (benv := GIMME_ENV_PREFIX E ++ "/go" ++ ver ++ "." ++ GIMME_OS E ++ "."
               ++ GIMME_ARCH E ++ ".env").
  set (sdir := GIMME_VERSION_PREFIX E ++ "/go" ++ ver ++ ".src").
  set (senv := GIMME_ENV_PREFIX E ++ "/go" ++ ver ++ ".src.env").
  destruct (try_existing_at_frame bdir benv w) as (st1 & out1 & Hb & Hb').
  destruct (try_existing_at_frame sdir senv w) as (st2 & out2 & Hs & Hs').
  assert (Hclose : forall st out env_path,
            (st = 1 /\ out = [])
            \/ (st = 0 /\ last out = Some ("export GIMME_ENV='" ++ env_path ++ "';")) ->
            (st = 1 /\ out = [])
            \/ (st = 0 /\ exists p, last out = Some ("export GIMME_ENV='" ++ p ++ "';"))).
  { intros st out p [Hf|[Hst Hl]]; [left; exact Hf|right; eauto]. }
  destruct (String.eqb kind "binary"); [exists st1, out1; eauto|].
  destruct (String.eqb kind "source"); [exists st2, out2; eauto|].
  unfold bind. rewrite Hb.
  destruct Hb' as [[-> ->]|[-> Hl]].
  - cbn [Z.eqb Pos.eqb]. rewrite with_stdout_nil. exists st2, out2. eauto.
  - exists 0, out1. split; [reflexivity|]. right. eauto.
Qed.

(** X5 ([_env], lines 359-394).  [_env] changes nothing but the
    standard output.  It returns 0 exactly when the bin directory is
    there, its go binary is executable and runs on this host; otherwise
    it returns 1 and prints nothing.  What it prints has the GOROOT of
    the installation, unsets GOOS exactly when the binary was built for
    the target system and GOARCH exactly when it was built for the
    target architecture. *)
Theorem env_report (dir : string) (w : World Repo) :
  exists st out,
    _env E dir w = Ret st (with_stdout (stdout w ++ out) w)
    /\ (st = 0 <->
        test_d (fs w) (dir ++ "/bin") = true
        /\ test_x (fs w) (dir ++ "/bin/go") = true
        /\ go_tool E dir <> None)
    /\ (st = 0 \/ (st = 1 /\ out = []))
    /\ (st = 0 ->
        In ("export GOROOT='" ++ dir ++ "';") out
        /\ (In "unset GOOS;" out <->
            exists a, go_tool E dir = Some (GIMME_OS E, a))
        /\ (In "unset GOARCH;" out <->
            exists o, go_tool E dir = Some (o, GIMME_ARCH E))).
Proof.
  rewrite env_run.
  destruct (test_d (fs w) (dir ++ "/bin")) eqn:Hd; cbn [andb].
  2:{ exists 1, []. rewrite with_stdout_nil. split; [reflexivity|].
      split; [split; [discriminate|intros (Hx & _); discriminate]|].
      split; [right; auto|discriminate]. }
  destruct (test_x (fs w) (dir ++ "/bin/go")) eqn:Hx.
  2:{ exists 1, []. rewrite with_stdout_nil. split; [reflexivity|].
      split; [split; [discriminate|intros (_ & Hx' & _); discriminate]|].
      split; [right; auto|discriminate]. }
  destruct (go_tool E dir) as [[ho ha]|] eqn:Hgo.
  2:{ exists 1, []. rewrite with_stdout_nil. split; [reflexivity|].
      split; [split; [discriminate|intros (_ & _ & Hn); congruence]|].
      split; [right; auto|discriminate]. }
  exists 0, (env_lines E dir ho ha). split; [reflexivity|].
  split; [split; [intros _; repeat split; discriminate|reflexivity]|].
  split; [left; reflexivity|]. intros _. unfold env_lines. cbn [app].
  split; [cbn [In]; auto 6|]. split.
  - destruct (String.eqb ho (GIMME_OS E)) eqn:Ho.
    + apply String.eqb_eq in Ho. subst ho. split; [eauto|]. intros _. cbn [In]. auto.
    + split.
      * destruct (String.eqb ha (GIMME_ARCH E)), (nonempty (GIMME_SILENT_ENV E));
          cbn [In app String.append]; intros Hin;
          repeat (destruct Hin as [Hin|Hin]; [discriminate Hin|]); destruct Hin.
      * intros (a & Ha). injection Ha as -> _. rewrite String.eqb_refl in Ho.
        discriminate.
  - destruct (String.eqb ha (GIMME_ARCH E)) eqn:Ha.
    + apply String.eqb_eq in Ha. subst ha. split; [eauto|]. intros _. cbn [In]. auto.
    + split.
      * destruct (String.eqb ho (GIMME_OS E)), (nonempty (GIMME_SILENT_ENV E));
          cbn [In app String.append]; intros Hin;
          repeat (destruct Hin as [Hin|Hin]; [discriminate Hin|]); destruct Hin.
      * intros (o & Ho'). injection Ho' as _ ->. rewrite String.eqb_refl in Ha.
        discriminate.
Qed.

(** X6 ([_env] and [_try_existing], lines 359-394 and 430-446).  An env
    file that holds what [_env] printed for the installation is printed
    back line for line when the installation is found again, followed
    by the line that exports GIMME_ENV: the lines [_env] writes all end
    with a semicolon or are empty, and none unsets GOROOT. *)
Theorem env_file_printed_back (kind ver : string) (w0 w : World Repo)
    (lines : list string) :
  let dir := GIMME_VERSION_PREFIX E ++ "/go" ++ ver ++ "." ++ GIMME_OS E ++ "."
             ++ GIMME_ARCH E in
  let env_path := GIMME_ENV_PREFIX E ++ "/go" ++ ver ++ "." ++ GIMME_OS E ++ "."
                  ++ GIMME_ARCH E ++ ".env" in
  _env E dir w0 = Ret 0 (with_stdout (stdout w0 ++ lines) w0) ->
  file_lines (fs w) env_path = Some lines ->
  test_x (fs w) (dir ++ "/bin/go") = true ->
  String.eqb kind "source" = false ->
  _try_existing E kind ver w
  = Ret 0 (with_stdout
             (stdout w ++ lines ++ [("export GIMME_ENV='" ++ env_path ++ "';")%string])
             w).
Proof.
  intros dir env_path Henv Hfile Hx Hkind.
  rewrite env_run in Henv.
  destruct (test_d (fs w0) (dir ++ "/bin") && test_x (fs w0) (dir ++ "/bin/go"))%bool;
    [|discriminate].
  destruct (go_tool E dir) as [[ho ha]|]; [|discriminate].
  injection Henv as Henv. apply app_inv_head in Henv.
  destruct (env_lines_stable E dir ho ha) as [Hsemi Hgrep].
  rewrite Henv in Hsemi, Hgrep.
  assert (Hne : lines <> []) by (rewrite <- Henv; discriminate).
  pose proof (try_existing_at_run dir env_path lines w Hx Hfile Hne) as Hrun.
  rewrite (rendering_stable env_path lines Hsemi Hgrep) in Hrun.
  unfold _try_existing. fold dir env_path. rewrite Hkind.
  destruct (String.eqb kind "binary"); [exact Hrun|].
  unfold bind. rewrite Hrun. reflexivity.
Qed.

End EnvReuse.

Lemma env_file_printed_back_witness :
  _env Examples.linux Examples.go_dir (Examples.world_of Examples.fs_unpacked 999000)
  = Ret 0 (with_stdout Examples.installed_lines
             (Examples.world_of Examples.fs_unpacked 999000))
  /\ file_lines (fs Examples.w_installed) Examples.go_env = Some Examples.installed_lines
  /\ test_x (fs Examples.w_installed) (Examples.go_dir ++ "/bin/go") = true
  /\ _try_existing Examples.linux EmptyString "1.21.0" Examples.w_installed
     = Ret 0 (with_stdout
                (Examples.installed_lines
                 ++ [("export GIMME_ENV='" ++ Examples.go_env ++ "';")%string])
                Examples.w_installed).
Proof.
  assert (H1 : _env Examples.linux Examples.go_dir
                 (Examples.world_of Examples.fs_unpacked 999000)
               = Ret 0 (with_stdout Examples.installed_lines
                          (Examples.world_of Examples.fs_unpacked 999000)))
    by (vm_compute; reflexivity).
  assert (H2 : file_lines (fs Examples.w_installed) Examples.go_env
               = Some Examples.installed_lines) by (vm_compute; reflexivity).
  assert (H3 : test_x (fs Examples.w_installed) (Examples.go_dir ++ "/bin/go") = true)
    by (vm_compute; reflexivity).
  split; [exact H1|]. split; [exact H2|]. split; [exact H3|].
  exact (env_file_printed_back Examples.linux EmptyString "1.21.0"
           (Examples.world_of Examples.fs_unpacked 999000) Examples.w_installed
           Examples.installed_lines H1 H2 H3 eq_refl).
Defined.

(** ** More on [_wipe_version] (lines 510-517) *)

Section WipeFacts.
Context {Repo : Type} `{Git Repo}.
Variable E : Env.
Import Text.



End WipeFacts.


(** ** More on [_assert_version_given] and [_resolve_version]
       (lines 588-638, 705-753) *)

Section AssertFacts.
Context {Repo : Type} `{Git Repo}.
Variable E : Env.
Import Text.

Lemma release_starts_with_digit (ver : string) :
  looks_like_release ver = true ->
  exists c r, ver = String c r /\ is_digit c = true.
Proof.
  unfold looks_like_release. destruct ver as [|c r]; [discriminate|].
  cbn [take_while]. destruct (is_digit c) eqn:Hc; [eauto|discriminate].
Qed.

Lemma release_not_keyword (ver kw : string) :
  looks_like_release ver = true ->
  is_digit (match kw with String k _ => k | EmptyString => "a"%char end) = false ->
  String.eqb ver kw = false.
Proof.
  intros Hrel Hkw. destruct (release_starts_with_digit ver Hrel) as (c & r & -> & Hc).
  destruct kw as [|k kw]; [reflexivity|]. cbn [String.eqb].
  destruct (Ascii.eqb c k) eqn:Hck; [|reflexivity].
  apply Ascii.eqb_eq in Hck. subst k. congruence.
Qed.

(** The run of [_assert_version_given] on a version that is not a
    wildcard, up to the point where git would be asked. *)
Lemma assert_plain_run (resolve : bool -> string -> Sh Repo Z)
    (e abort_returns : bool) (ver : string) (w : World Repo) :
  nonempty ver = true ->
  ends_with ".x" ver = false ->
  (looks_like_release ver = true ->
   _assert_version_given E resolve e abort_returns ver w = Ret (0, ver) w)
  /\ (looks_like_release ver = false ->
      (String.eqb (GIMME_TYPE E) "auto" || String.eqb (GIMME_TYPE E) "git")%bool = false ->
      _assert_version_given E resolve e abort_returns ver w
      = let w' := with_stderr
                    (stderr w ++ ["error: GIMME_GO_VERSION not recognized as valid";
                                  "  got: " ++ ver]) w in
        if abort_returns then Ret (1, ver) w' else Exit 1 w').
Proof.
  intros Hne Hx. unfold _assert_version_given. rewrite Hne, Hx. cbn [negb].
  split.
  - intros Hrel. unfold bind at 1, ret at 1. cbn [fst snd Z.eqb negb].
    rewrite Hrel. reflexivity.
  - intros Hrel Htype. unfold bind at 1, ret at 1. cbn [fst snd Z.eqb negb].
    rewrite Hrel, Htype. cbn zeta.
    unfold bind, ret, echo_err, modify, exit.
    destruct abort_returns; f_equal; apply world_ext; cbn;
      rewrite <- ?app_assoc; reflexivity.
Qed.

(** X8 ([_assert_version_given], lines 705-753).  A version that is
    not a wildcard is accepted as it is, without any command being
    run, when it starts with digits, a dot and a digit.  When it does
    not, and the installation type is neither auto nor git, it is
    refused with two lines on the standard error, again without git
    being run: the function returns 1, or the shell exits with 1 when
    ASSERT_ABORT is not set. *)
Theorem assert_version_without_git (resolve : bool -> string -> Sh Repo Z)
    (e abort_returns : bool) (ver : string) (w : World Repo) :
  nonempty ver = true ->
  ends_with ".x" ver = false ->
  (looks_like_release ver = true ->
   _assert_version_given E resolve e abort_returns ver w = Ret (0, ver) w)
  /\ (looks_like_release ver = false ->
      (String.eqb (GIMME_TYPE E) "auto" || String.eqb (GIMME_TYPE E) "git")%bool = false ->
      exists w',
        _assert_version_given E resolve e abort_returns ver w
        = (if abort_returns then Ret (1, ver) w' else Exit 1 w')
        /\ fs w' = fs w /\ repo w' = repo w /\ net_log w' = net_log w
        /\ git_log w' = git_log w /\ stdout w' = stdout w
        /\ stderr w' = (stderr w ++ ["error: GIMME_GO_VERSION not recognized as valid";
                                     ("  got: " ++ ver)%string])%list).
Proof.
  intros Hne Hx.
  destruct (assert_plain_run resolve e abort_returns ver w Hne Hx) as [Hyes Hno].
  split; [exact Hyes|]. intros Hrel Htype. eexists.
  split; [exact (Hno Hrel Htype)|]. repeat split.
Qed.

(** X9 ([_resolve_version], lines 588-638).  A specifier that starts
    with digits, a dot and a digit, and is not a wildcard, resolves to
    itself: it is printed, the status is 0, and nothing is downloaded,
    no git command runs and no file changes. *)
Theorem resolve_release_is_identity (fuel : nat) (e : bool) (spec : string)
    (w : World Repo) :
  looks_like_release spec = true ->
  ends_with ".x" spec = false ->
  _resolve_version E (S fuel) e spec w
  = Ret 0 (with_stdout (stdout w ++ [spec]) w).
Proof.
  intros Hrel Hx. cbn [_resolve_version].
  rewrite !(release_not_keyword spec) by (assumption || reflexivity).
  rewrite Hx. unfold bind at 1, echo at 1, modify at 1.
  unfold bind at 1, quiet.
  assert (Hne : nonempty spec = true).
  { destruct (release_starts_with_digit spec Hrel) as (c & r & -> & _). reflexivity. }
  rewrite (proj1 (assert_plain_run (_resolve_version E fuel) false true spec
                    _ Hne Hx) Hrel).
  cbn [fst Z.eqb]. unfold ret. f_equal.
Qed.

End AssertFacts.

Lemma assert_version_without_git_witness :
  Text.nonempty "1.21.0" = true
  /\ Text.ends_with ".x" "1.21.0" = false
  /\ _assert_version_given Examples.linux (_resolve_version Examples.linux 0)
       true false "1.21.0" Examples.w_cached
     = Ret (0, "1.21.0") Examples.w_cached.
Proof.
  split; [reflexivity|]. split; [reflexivity|].
  exact (proj1 (assert_version_without_git Examples.linux
                  (_resolve_version Examples.linux 0) true false "1.21.0"
                  Examples.w_cached eq_refl eq_refl) eq_refl).
Defined.

Lemma resolve_release_is_identity_witness :
  looks_like_release "1.21.0" = true
  /\ Text.ends_with ".x" "1.21.0" = false
  /\ _resolve_version Examples.linux 1 true "1.21.0" Examples.w_cached
     = Ret 0 (with_stdout ["1.21.0"] Examples.w_cached).
Proof.
  split; [reflexivity|]. split; [reflexivity|].
  exact (resolve_release_is_identity Examples.linux 0 true "1.21.0"
           Examples.w_cached eq_refl eq_refl).
Defined.

Section PatternFacts.
Context {Repo : Type} `{Git Repo}.
Variable E : Env.
Import Text.

Lemma wildcard_not_keyword (base kw : string) :
  ends_with ".x" kw = false -> String.eqb (base ++ ".x") kw = false.
Proof.
  intros Hkw. destruct (String.eqb (base ++ ".x") kw) eqn:Heq; [|reflexivity].
  apply String.eqb_eq in Heq. subst kw. rewrite ends_with_app in Hkw.
  discriminate.
Qed.

(** X10 ([_resolve_version], lines 617-623).  A wildcard whose base is
    empty or has a character other than digits and dots is refused with
    status 2 and a warning, and nothing is printed on the standard
    output, not even the specifier.  The list of known versions has
    been obtained before the base is looked at. *)
Theorem resolve_invalid_pattern (fuel : nat) (e : bool) (base : string)
    (w : World Repo) :
  (nonempty base && all_chars is_digit_or_dot base)%bool = false ->
  have_transport E = true ->
  exists w0,
    capture (_update_remote_known_list_if_needed E) w = Ret (0, [known_list E]) w0
    /\ _resolve_version E (S fuel) e (base ++ ".x") w
       = Ret 2 (with_stderr
                  (stderr w0 ++ [program_name E ++ ": " ++ "resolve pattern '" ++ base
                                 ++ ".x' invalid for .x finding"]) w0)
    /\ stdout w0 = stdout w.
Proof.
  intros Hbad Ht.
  destruct (known_list_refresh_returns E w Ht) as (w0 & Hcap & _).
  exists w0. split; [exact Hcap|]. split.
  - cbn [_resolve_version].
    rewrite !wildcard_not_keyword by reflexivity.
    rewrite ends_with_app, strip_suffix_app. cbn [default from_option id].
    rewrite Hbad. cbn [negb].
    unfold bind at 1. rewrite Hcap. cbn [fst snd].
    unfold bind at 1, sh at 1, bind at 1, ret at 1.
    cbn [Z.eqb negb]. rewrite andb_false_r.
    unfold ret at 1, bind, warn, echo_err, modify, ret. reflexivity.
  - exact (proj1 (capture_stdout _ _ _ _ [] Hcap)).
Qed.

End PatternFacts.

Lemma resolve_invalid_pattern_witness :
  (Text.nonempty "1.beta" && Text.all_chars Text.is_digit_or_dot "1.beta")%bool = false
  /\ have_transport Examples.linux = true
  /\ exists w0,
       capture (_update_remote_known_list_if_needed Examples.linux) Examples.w_cached
       = Ret (0, [known_list Examples.linux]) w0
       /\ _resolve_version Examples.linux 1 true "1.beta.x" Examples.w_cached
          = Ret 2 (with_stderr
                     (stderr w0 ++ ["gimme: resolve pattern '1.beta.x' invalid for .x finding"])
                     w0)
       /\ stdout w0 = stdout Examples.w_cached.
Proof.
  split; [reflexivity|]. split; [reflexivity|].
  exact (resolve_invalid_pattern Examples.linux 0 true "1.beta" Examples.w_cached
           eq_refl eq_refl).
Defined.



Section RefreshTwice.
Context {Repo : Type} `{Git Repo}.
Variable E : Env.
Import Text.




End RefreshTwice.


(** ** More on the current stable version (lines 645-653, 665-672) *)

Section StableTwice.
Context {Repo : Type} `{Git Repo}.
Variable E : Env.
Import Text.


End StableTwice.

(** ** Properties of the installation strategies *)

Section UpstreamPattern.
Import Text.

Lemma nonzero_digit_is_digit (c : ascii) :
  is_nonzero_digit c = true -> is_digit c = true.
Proof.
  unfold is_nonzero_digit, is_digit. intros Hc.
  apply andb_prop in Hc as [Hlo Hhi]. rewrite Hhi, andb_true_r.
  apply Nat.leb_le. apply Nat.leb_le in Hlo. lia.
Qed.

Lemma digit_is_version_char (c : ascii) :
  is_digit c = true -> is_version_char c = true.
Proof.
  intros Hc. unfold is_version_char, is_alnum. rewrite Hc, orb_true_r. reflexivity.
Qed.

Lemma digit_not_dot (c : ascii) : is_digit c = true -> is_dot c = false.
Proof.
  intros Hc. destruct (is_dot c) eqn:Hd; [|reflexivity].
  apply Ascii.eqb_eq in Hd. subst c. discriminate Hc.
Qed.

Lemma allowed_tail_chars (s : string) (st : UpstreamState) :
  allowed_tail st s = true ->
  all_chars (fun c => is_version_char c || is_dot c)%bool s = true.
Proof.
  revert st. induction s as [|c r IH]; intros st; [reflexivity|].
  cbn [allowed_tail all_chars]. destruct st as [n| |n].
  - destruct (is_dot c) eqn:Hd.
    + intros Hr. rewrite orb_true_r. exact (IH _ Hr).
    + intros Hr. apply andb_prop in Hr as [Hr Hr']. apply andb_prop in Hr as [Hc _].
      rewrite (digit_is_version_char c Hc). exact (IH _ Hr').
  - intros Hr. apply andb_prop in Hr as [Hc Hr'].
    rewrite (digit_is_version_char c Hc). exact (IH _ Hr').
  - destruct (is_dot c) eqn:Hd.
    + intros Hr. rewrite orb_true_r. exact (IH _ Hr).
    + intros Hr. apply andb_prop in Hr as [Hr Hr']. apply andb_prop in Hr as [Hc _].
      rewrite Hc. exact (IH _ Hr').
Qed.

Lemma allowed_tail_minor (s : string) (n : nat) :
  allowed_tail (InMajor n) s = true ->
  match drop_while is_digit s with
  | String c (String d _) => (is_dot c && is_digit d)%bool
  | _ => false
  end = true.
Proof.
  revert n. induction s as [|c r IH]; intros n; [discriminate|].
  cbn [allowed_tail drop_while]. destruct (is_dot c) eqn:Hd.
  - intros Hr. destruct (is_digit c) eqn:Hc.
    { rewrite (digit_not_dot c Hc) in Hd. discriminate. }
    rewrite Hd. destruct r as [|d r']; [discriminate|].
    cbn [allowed_tail] in Hr. apply andb_prop in Hr as [-> _]. reflexivity.
  - intros Hr. apply andb_prop in Hr as [Hr Hr']. apply andb_prop in Hr as [-> _].
    exact (IH _ Hr').
Qed.

End UpstreamPattern.

(** X13 (ALLOWED_UPSTREAM_VERSION_RE, line 81, and the pattern of
    [_assert_version_given], line 728).  A version that may be asked
    of the download servers starts with a digit other than 0, consists
    of letters, digits, dots, underscores and hyphens, and is one that
    [_assert_version_given] accepts without asking git: digits, a dot
    and a digit. *)
Theorem allowed_upstream_is_release (version : string) :
  allowed_upstream_version version = true ->
  looks_like_release version = true
  /\ Text.all_chars (fun c => is_version_char c || Text.is_dot c)%bool version = true
  /\ Text.starts_with "0" version = false.
Proof.
  unfold allowed_upstream_version. destruct version as [|c r]; [discriminate|].
  intros Hv. apply andb_prop in Hv as [Hc Hr].
  pose proof (nonzero_digit_is_digit c Hc) as Hd. split; [|split].
  - unfold looks_like_release. cbn [Text.take_while Text.drop_while]. rewrite Hd.
    cbn [Text.nonempty andb]. exact (allowed_tail_minor r 0 Hr).
  - cbn [Text.all_chars]. rewrite (digit_is_version_char c Hd).
    exact (allowed_tail_chars r _ Hr).
  - unfold Text.starts_with. cbn [Text.strip_prefix].
    destruct (Ascii.eqb "0" c) eqn:H0; [|reflexivity].
    apply Ascii.eqb_eq in H0. subst c. discriminate Hc.
Qed.

Lemma allowed_upstream_is_release_witness :
  allowed_upstream_version "1.8beta2" = true
  /\ looks_like_release "1.8beta2" = true
  /\ Text.all_chars (fun c => is_version_char c || Text.is_dot c)%bool "1.8beta2" = true
  /\ Text.starts_with "0" "1.8beta2" = false.
Proof.
  split; [reflexivity|]. exact (allowed_upstream_is_release "1.8beta2" eq_refl).
Defined.

Section StrategyFacts.
Context {Repo : Type} `{Git Repo}.
Variable E : Env.
Variable GIMME_DOWNLOAD_BASE GIMME_BINARY_OSX GIMME_NO_ENV_ALIAS GIMME_INSTALL_RACE : string.
Variable unpack : string -> string -> Sh Repo Z.
Variable _compile go_install_race : string -> Sh Repo Z.
Variable ln_sf : string -> string -> Sh Repo Z.
Import Text.

Lemma starts_with_app (p s : string) : starts_with p (p ++ s) = true.
Proof. unfold starts_with. rewrite strip_prefix_app. reflexivity. Qed.

Lemma starts_with_app_assoc (p a b : string) : starts_with p ((p ++ a) ++ b) = true.
Proof. rewrite append_assoc. apply starts_with_app. Qed.

Lemma requests_under (p u : string) :
  starts_with p u = true -> Forall (fun r => starts_with p r = true) (requests E u).
Proof.
  intros Hu. unfold starts_with in Hu.
  destruct (strip_prefix p u) as [rest|] eqn:Hs; [|discriminate].
  apply strip_prefix_sound in Hs. subst u.
  unfold requests. destruct (remote E (p ++ rest));
    repeat constructor; auto using starts_with_app, starts_with_app_assoc.
Qed.

(** X14 ([_binary], lines 162-189, with [_do_curls]).  [_binary] has
    at least one candidate, and whatever it requests, archive or
    digest, is a file of the download base whose name starts with go,
    the version, a dot, the system, a hyphen and the architecture. *)
Theorem binary_requests_under_base (version file arch : string) (w : World Repo) :
  have_transport E = true ->
  let stem := GIMME_DOWNLOAD_BASE ++ "/go" ++ version ++ "." ++ GIMME_OS E ++ "-" ++ arch in
  binary_urls E GIMME_DOWNLOAD_BASE GIMME_BINARY_OSX version arch <> []
  /\ exists st w' reqs,
       _binary E GIMME_DOWNLOAD_BASE GIMME_BINARY_OSX version file arch w = Ret st w'
       /\ net_log w' = (net_log w ++ reqs)%list
       /\ Forall (fun u => starts_with stem u = true) reqs.
Proof.
  intros Ht stem.
  assert (Hurls : Forall (fun u => starts_with stem u = true)
                    (binary_urls E GIMME_DOWNLOAD_BASE GIMME_BINARY_OSX version arch)
                  /\ binary_urls E GIMME_DOWNLOAD_BASE GIMME_BINARY_OSX version arch <> []).
  { unfold binary_urls. fold stem.
    destruct (String.eqb (GIMME_OS E) "windows"),
      (String.eqb (GIMME_OS E) "darwin" && nonempty GIMME_BINARY_OSX)%bool,
      (String.eqb arch "arm");
      (split; [repeat constructor; apply starts_with_app|discriminate]). }
  destruct Hurls as [Hall Hne]. split; [exact Hne|].
  unfold _binary, _do_curls, _sha256sum_c, bind, get, ret. cbn beta iota.
  destruct (sha256sum_check E (fs w) (file ++ ".sha256")).
  - exists 0, w, []. split; [reflexivity|].
    split; [symmetry; apply app_nil_r|constructor].
  - destruct (do_curls_loop_facts E file
                (binary_urls E GIMME_DOWNLOAD_BASE GIMME_BINARY_OSX version arch) w Ht)
      as (st & w' & Hrun & tried & untried & Hsplit & Hlog & _).
    exists st, w', (flat_map (requests E) tried).
    split; [exact Hrun|]. split; [exact Hlog|].
    rewrite Hsplit in Hall. apply Forall_app in Hall as [Htried _].
    clear Hsplit Hlog. induction Htried as [|u l Hu _ IH]; [constructor|].
    cbn [flat_map]. apply Forall_app. split; [apply requests_under; exact Hu|exact IH].
Qed.










(** The archive that [_try_binary] downloads. *)
Definition binary_archive (version arch : string) : string :=
  let bin_tgz := GIMME_TMP E ++ "/go" ++ version ++ "." ++ GIMME_OS E ++ "." ++ arch
                 ++ ".tar.gz" in
  if String.eqb (GIMME_OS E) "windows"
  then default bin_tgz (strip_suffix ".tar.gz" bin_tgz) ++ ".zip"
  else bin_tgz.


(** X17 (lines 460, 477 and 935-949).  A version that may not be
    asked of the download servers, such as a branch name or a commit,
    is neither downloaded nor unpacked.  With the installation type
    binary and no installation to reuse, nothing is requested, no file
    changes and the shell exits with status 1 after two lines on the
    standard error; with the type auto and no installation to reuse,
    the outcome is that of [_try_git]. *)
Theorem install_without_download (ver : string) (w : World Repo) :
  allowed_upstream_version ver = false ->
  let strategies :=
    gimme_install E GIMME_DOWNLOAD_BASE GIMME_BINARY_OSX GIMME_NO_ENV_ALIAS
      GIMME_INSTALL_RACE unpack _compile go_install_race ln_sf ver in
  let try_git :=
    _try_git E GIMME_NO_ENV_ALIAS GIMME_INSTALL_RACE _compile go_install_race ln_sf ver in
  let failed (w' : World Repo) : Outcome Repo Z :=
    Exit 1 (with_stderr
              (stderr w' ++ [("I don't have any idea what to do with '" ++ ver ++ "'.")%string;
                             ("  (using download type '" ++ GIMME_TYPE E ++ "')")%string])
              w') in
  (GIMME_TYPE E = "binary" ->
   _try_existing E "binary" ver w = Ret 1 w ->
   strategies w = failed w)
  /\ (GIMME_TYPE E = "auto" ->
      _try_existing E EmptyString ver w = Ret 1 w ->
      strategies w
      = match try_git w with
        | Ret s w' => if s =? 0 then Ret 0 w' else failed w'
        | other => other
        end).
Proof.
  intros Hno strategies try_git failed. subst strategies failed. cbn beta.
  unfold gimme_install, install, _try_binary, _try_source.
  rewrite Hno. cbn [negb]. split.
  - intros -> Hex. cbn [String.eqb Ascii.eqb Bool.eqb].
    unfold bind at 1, bind at 1. rewrite Hex. cbn [Z.eqb].
    unfold ret at 1. cbn [Z.eqb].
    unfold bind, echo_err, modify, exit. f_equal.
    apply world_ext; cbn; rewrite <- ?app_assoc; reflexivity.
  - intros -> Hex. cbn [String.eqb Ascii.eqb Bool.eqb].
    unfold bind at 1, bind at 1. rewrite Hex. cbn [Z.eqb].
    unfold bind at 1, ret at 1. cbn [Z.eqb].
    unfold bind at 1, ret at 1. cbn [Z.eqb].
    unfold bind at 1. fold try_git.
    destruct (try_git w) as [s w'|c w'|]; [|reflexivity|reflexivity].
    destruct (s =? 0) eqn:Hs.
    + unfold ret. cbn [Z.eqb]. reflexivity.
    + unfold bind, echo_err, modify, exit. f_equal.
      apply world_ext; cbn; rewrite <- ?app_assoc; reflexivity.
Qed.

(** X18 ([_do_curl], lines 88-108, in the installation, lines
    935-949).  Without curl, wget and fetch, an installation of type
    auto of a version that may be asked of the download servers, of
    which there is no installation to reuse and no verified archive,
    ends the shell with status 1 at the first download: the message
    about the missing tools is the last on the standard error, nothing
    is requested, and git, which needs none of these tools, is not
    tried. *)
Theorem install_needs_download_tool (ver : string) (w : World Repo) :
  have_transport E = false ->
  GIMME_TYPE E = "auto" ->
  allowed_upstream_version ver = true ->
  _try_existing E EmptyString ver w = Ret 1 w ->
  sha256sum_check E (fs w) (binary_archive ver (GIMME_ARCH E) ++ ".sha256") = false ->
  exists w',
    gimme_install E GIMME_DOWNLOAD_BASE GIMME_BINARY_OSX GIMME_NO_ENV_ALIAS
      GIMME_INSTALL_RACE unpack _compile go_install_race ln_sf ver w = Exit 1 w'
    /\ last (stderr w') = Some "error: no curl, wget, or fetch found"
    /\ net_log w' = net_log w /\ git_log w' = git_log w /\ repo w' = repo w
    /\ stdout w' = stdout w.
Proof.
  intros Ht Htype Hok Hex Hsum.
  unfold gimme_install, install. rewrite Htype. cbn [String.eqb Ascii.eqb Bool.eqb].
  unfold bind at 1, bind at 1. rewrite Hex. cbn [Z.eqb].
  unfold bind at 1, _try_binary at 1. rewrite Hok. cbn [negb].
  fold (binary_archive ver (GIMME_ARCH E)).
  unfold bind at 1, _binary, _do_curls, bind at 1, _sha256sum_c, bind at 1, get at 1.
  unfold ret at 1. rewrite Hsum.
  destruct (binary_urls E GIMME_DOWNLOAD_BASE GIMME_BINARY_OSX ver (GIMME_ARCH E))
    as [|url rest] eqn:Hurls.
  { exfalso. revert Hurls. unfold binary_urls.
    destruct (String.eqb (GIMME_OS E) "windows"),
      (String.eqb (GIMME_OS E) "darwin" && nonempty GIMME_BINARY_OSX)%bool,
      (String.eqb (GIMME_ARCH E) "arm"); discriminate. }
  cbn [_do_curls_loop]. unfold bind at 1, _do_curl. rewrite Ht.
  unfold bind, mkdir_p, modify, echo_err, exit.
  eexists. split; [reflexivity|].
  cbn [stderr net_log git_log repo stdout with_stderr].
  split; [apply last_snoc|].
  destruct (fs w !! dirname (binary_archive ver (GIMME_ARCH E))); repeat split.
Qed.

End StrategyFacts.
Lemma binary_requests_under_base_witness :
  have_transport Tools.host = true
  /\ exists st w' reqs,
       _binary Tools.host Tools.download_base "osx10.8" "1.21.0" Tools.archive "amd64"
         (Examples.world_of ∅ 1000000) = Ret st w'
       /\ net_log w' = reqs
       /\ Forall (fun u => Text.starts_with "https://dl.google.com/go/go1.21.0.linux-amd64" u
                           = true) reqs.
Proof.
  split; [reflexivity|].
  exact (proj2 (binary_requests_under_base Tools.host Tools.download_base "osx10.8"
                  "1.21.0" Tools.archive "amd64" (Examples.world_of ∅ 1000000) eq_refl)).
Defined.




Lemma install_without_download_witness :
  let E := Tools.host in
  let w := Examples.world_of ∅ 1000000 in
  allowed_upstream_version "master" = false
  /\ GIMME_TYPE E = "auto"
  /\ _try_existing E EmptyString "master" w = Ret 1 w
  /\ gimme_install E Tools.download_base "osx10.8" EmptyString EmptyString Tools.unpack
       Tools.compile Tools.install_race Tools.ln_sf "master" w
     = match _try_git E EmptyString EmptyString Tools.compile Tools.install_race
               Tools.ln_sf "master" w with
       | Ret s w' =>
           if s =? 0 then Ret 0 w'
           else Exit 1 (with_stderr
                          (stderr w' ++ ["I don't have any idea what to do with 'master'.";
                                         "  (using download type 'auto')"]) w')
       | other => other
       end.
Proof.
  intros E w.
  assert (H1 : allowed_upstream_version "master" = false) by reflexivity.
  assert (H2 : GIMME_TYPE E = "auto") by reflexivity.
  assert (H3 : _try_existing E EmptyString "master" w = Ret 1 w)
    by (vm_compute; reflexivity).
  split; [exact H1|]. split; [exact H2|]. split; [exact H3|].
  exact (proj2 (install_without_download E Tools.download_base "osx10.8" EmptyString
                  EmptyString Tools.unpack Tools.compile Tools.install_race Tools.ln_sf
                  "master" w H1) H2 H3).
Defined.

Lemma install_needs_download_tool_witness :
  let E := Examples.with_remote Tools.releases Tools.offline in
  let w := Examples.world_of ∅ 1000000 in
  have_transport E = false
  /\ GIMME_TYPE E = "auto"
  /\ allowed_upstream_version "1.21.0" = true
  /\ _try_existing E EmptyString "1.21.0" w = Ret 1 w
  /\ sha256sum_check E (fs w) (binary_archive E "1.21.0" (GIMME_ARCH E) ++ ".sha256")
     = false
  /\ exists w',
       gimme_install E Tools.download_base "osx10.8" EmptyString EmptyString Tools.unpack
         Tools.compile Tools.install_race Tools.ln_sf "1.21.0" w = Exit 1 w'
       /\ git_log w' = [].
Proof.
  intros E w.
  assert (H1 : have_transport E = false) by reflexivity.
  assert (H2 : GIMME_TYPE E = "auto") by reflexivity.
  assert (H3 : allowed_upstream_version "1.21.0" = true) by reflexivity.
  assert (H4 : _try_existing E EmptyString "1.21.0" w = Ret 1 w)
    by (vm_compute; reflexivity).
  assert (H5 : sha256sum_check E (fs w)
                 (binary_archive E "1.21.0" (GIMME_ARCH E) ++ ".sha256") = false)
    by reflexivity.
  split; [exact H1|]. split; [exact H2|]. split; [exact H3|]. split; [exact H4|].
  split; [exact H5|].
  destruct (install_needs_download_tool E Tools.download_base "osx10.8" EmptyString
              EmptyString Tools.unpack Tools.compile Tools.install_race Tools.ln_sf
              "1.21.0" w H1 H2 H3 H4 H5)
    as (w' & Hrun & _ & _ & Hgit & _).
  exists w'. split; [exact Hrun|exact Hgit].
Defined.

Section VersintFacts.
Import Text Versint.

(** The numbers of a version in the four places of the format. *)
Definition version_key (numbers : list N) : list N :=
  [nth 0 numbers 0%N; nth 1 numbers 0%N; nth 2 numbers 0%N; nth 3 numbers 0%N].

Fixpoint lex_compare (x y : list N) : comparison :=
  match x, y with
  | [], [] => Eq
  | [], _ :: _ => Lt
  | _ :: _, [] => Gt
  | a :: x', b :: y' =>
      match (a ?= b)%N with
      | Eq => lex_compare x' y'
      | o => o
      end
  end.

Lemma all_below (P : N -> bool) (k : nat) :
  forallb P (map N.of_nat (seq 0 k)) = true ->
  forall n, (n < N.of_nat k)%N -> P n = true.
Proof.
  intros Hall n Hn. rewrite forallb_forall in Hall. apply Hall.
  apply in_map_iff. exists (N.to_nat n). split; [apply N2Nat.id|].
  apply in_seq. lia.
Qed.

Lemma pad3_length (n : N) : (n < 1000)%N -> String.length (pad3 n) = 3%nat.
Proof.
  intros Hn.
  apply (all_below (fun n => Nat.eqb (String.length (pad3 n)) 3) 1000) in Hn;
    [apply Nat.eqb_eq; exact Hn|].
  vm_compute. reflexivity.
Qed.

(** The three digits that [%03d] prints for a number below 1000. *)
Definition three_digits (n : N) : string :=
  String (digit_char (n / 100)) (String (digit_char (n / 10)) (String (digit_char n) EmptyString)).

Lemma pad3_digits (n : N) : (n < 1000)%N -> pad3 n = three_digits n.
Proof.
  intros Hn.
  apply (all_below (fun n => String.eqb (pad3 n) (three_digits n)) 1000) in Hn;
    [apply String.eqb_eq; exact Hn|].
  vm_compute. reflexivity.
Qed.

Lemma digit_char_compare (x y : N) :
  Ascii.compare (digit_char x) (digit_char y) = (x mod 10 ?= y mod 10)%N.
Proof.
  unfold Ascii.compare, digit_char.
  pose proof (N.mod_lt x 10 ltac:(lia)). pose proof (N.mod_lt y 10 ltac:(lia)).
  rewrite !N_ascii_embedding by lia.
  destruct (N.compare_spec (x mod 10) (y mod 10));
    [apply N.compare_eq_iff|apply N.compare_lt_iff|apply N.compare_gt_iff]; lia.
Qed.

Lemma pad3_compare (n m : N) :
  (n < 1000)%N -> (m < 1000)%N ->
  String.compare (pad3 n) (pad3 m) = (n ?= m)%N.
Proof.
  intros Hn Hm. rewrite !pad3_digits by assumption.
  unfold three_digits. cbn [String.compare]. rewrite !digit_char_compare.
  pose proof (N.div_mod n 10 ltac:(lia)) as Hn0.
  pose proof (N.div_mod (n / 10) 10 ltac:(lia)) as Hn1.
  pose proof (N.div_mod m 10 ltac:(lia)) as Hm0.
  pose proof (N.div_mod (m / 10) 10 ltac:(lia)) as Hm1.
  rewrite N.Div0.div_div in Hn1, Hm1. change (10 * 10)%N with 100%N in Hn1, Hm1.
  pose proof (N.mod_lt n 10 ltac:(lia)). pose proof (N.mod_lt m 10 ltac:(lia)).
  pose proof (N.mod_lt (n / 10) 10 ltac:(lia)).
  pose proof (N.mod_lt (m / 10) 10 ltac:(lia)).
  assert (Hna : ((n / 100) mod 10 = n / 100)%N)
    by (apply N.mod_small, N.Div0.div_lt_upper_bound; lia).
  assert (Hma : ((m / 100) mod 10 = m / 100)%N)
    by (apply N.mod_small, N.Div0.div_lt_upper_bound; lia).
  rewrite Hna, Hma. clear Hna Hma.
  set (a := (n / 100)%N) in *. set (a' := (m / 100)%N) in *.
  set (b := ((n / 10) mod 10)%N) in *. set (b' := ((m / 10) mod 10)%N) in *.
  set (q := (n / 10)%N) in *. set (q' := (m / 10)%N) in *.
  set (c := (n mod 10)%N) in *. set (c' := (m mod 10)%N) in *.
  clearbody a a' b b' q q' c c'.
  destruct (N.compare_spec a a') as [Ha|Ha|Ha].
  - destruct (N.compare_spec b b') as [Hbb|Hbb|Hbb].
    + destruct (N.compare_spec c c') as [Hcc|Hcc|Hcc];
        symmetry; [apply N.compare_eq_iff|apply N.compare_lt_iff|apply N.compare_gt_iff];
        lia.
    + symmetry. apply N.compare_lt_iff. lia.
    + symmetry. apply N.compare_gt_iff. lia.
  - symmetry. apply N.compare_lt_iff. lia.
  - symmetry. apply N.compare_gt_iff. lia.
Qed.

Lemma compare_app (u v s t : string) :
  String.length u = String.length v ->
  String.compare (u ++ s) (v ++ t)
  = match String.compare u v with
    | Eq => String.compare s t
    | o => o
    end.
Proof.
  revert v. induction u as [|c u IH]; intros [|d v] Hlen; try discriminate.
  - reflexivity.
  - cbn [String.append String.compare]. injection Hlen as Hlen.
    destruct (Ascii.compare c d); [apply IH; exact Hlen|reflexivity|reflexivity].
Qed.

Lemma pad3_compare_app (n m : N) (s t : string) :
  (n < 1000)%N -> (m < 1000)%N ->
  String.compare (pad3 n ++ s) (pad3 m ++ t)
  = match (n ?= m)%N with
    | Eq => String.compare s t
    | o => o
    end.
Proof.
  intros Hn Hm. rewrite compare_app by (rewrite !pad3_length; auto).
  rewrite pad3_compare by assumption. reflexivity.
Qed.

Lemma printf_versint_short (l : list N) :
  (length l <= 4)%nat ->
  printf_versint l
  = "1" ++ pad3 (nth 0 l 0%N) ++ pad3 (nth 1 l 0%N) ++ pad3 (nth 2 l 0%N)
    ++ pad3 (nth 3 l 0%N).
Proof.
  intros Hl. destruct l as [|a [|b [|c [|d [|e r]]]]]; try reflexivity.
  cbn [length] in Hl. lia.
Qed.

Lemma nth_below (l : list N) (i : nat) :
  Forall (fun n => (n < 1000)%N) l -> (nth i l 0 < 1000)%N.
Proof.
  intros Hall. revert i. induction Hall as [|x l Hx _ IH]; intros [|i]; cbn [nth];
    try lia; auto.
Qed.

(** Two versions of at most four numbers below 1000 compare, as
    integers of [_versint], like their numbers compare place by place. *)
Lemma versint_compare (a b : string) :
  (length (version_numbers a) <= 4)%nat ->
  (length (version_numbers b) <= 4)%nat ->
  Forall (fun n => (n < 1000)%N) (version_numbers a) ->
  Forall (fun n => (n < 1000)%N) (version_numbers b) ->
  String.compare (_versint a) (_versint b)
  = lex_compare (version_key (version_numbers a)) (version_key (version_numbers b)).
Proof.
  intros Hla Hlb Ha Hb. unfold _versint.
  rewrite !printf_versint_short by assumption.
  cbn [String.append String.compare Ascii.compare].
  change (N_of_ascii "1" ?= N_of_ascii "1")%N with Eq.
  cbn iota.
  rewrite !pad3_compare_app by (apply nth_below; assumption).
  rewrite <- (append_nil_r (pad3 (nth 3 (version_numbers a) 0%N))).
  rewrite <- (append_nil_r (pad3 (nth 3 (version_numbers b) 0%N))).
  rewrite pad3_compare_app by (apply nth_below; assumption).
  unfold version_key. cbn [lex_compare String.compare].
  repeat match goal with |- context [(?x ?= ?y)%N] => destruct (x ?= y)%N end;
    reflexivity.
Qed.

End VersintFacts.

(** X19 ([_versint], lines 768-771).  For two versions with at most
    four numbers, each below 1000, the integer of the first sorts
    before the integer of the second exactly when the numbers of the
    first, completed with zeros to four, come before those of the
    second in the order of the first difference. *)
Theorem versint_orders_versions (a b : string) :
  (length (Versint.version_numbers a) <= 4)%nat ->
  (length (Versint.version_numbers b) <= 4)%nat ->
  Forall (fun n => (n < 1000)%N) (Versint.version_numbers a) ->
  Forall (fun n => (n < 1000)%N) (Versint.version_numbers b) ->
  String.ltb (Versint._versint a) (Versint._versint b) = true
  <-> lex_compare (version_key (Versint.version_numbers a))
                  (version_key (Versint.version_numbers b)) = Lt.
Proof.
  intros Hla Hlb Ha Hb. unfold String.ltb.
  rewrite (versint_compare a b Hla Hlb Ha Hb).
  destruct (lex_compare _ _); split; congruence.
Qed.

Lemma versint_orders_versions_witness :
  (length (Versint.version_numbers "1.9.7") <= 4)%nat
  /\ (length (Versint.version_numbers "1.10beta1") <= 4)%nat
  /\ Forall (fun n => (n < 1000)%N) (Versint.version_numbers "1.9.7")
  /\ Forall (fun n => (n < 1000)%N) (Versint.version_numbers "1.10beta1")
  /\ String.ltb (Versint._versint "1.9.7") (Versint._versint "1.10beta1") = true.
Proof.
  assert (H1 : (length (Versint.version_numbers "1.9.7") <= 4)%nat)
    by (vm_compute; lia).
  assert (H2 : (length (Versint.version_numbers "1.10beta1") <= 4)%nat)
    by (vm_compute; lia).
  assert (H3 : Forall (fun n => (n < 1000)%N) (Versint.version_numbers "1.9.7"))
    by (vm_compute; repeat constructor).
  assert (H4 : Forall (fun n => (n < 1000)%N) (Versint.version_numbers "1.10beta1"))
    by (vm_compute; repeat constructor).
  split; [exact H1|]. split; [exact H2|]. split; [exact H3|]. split; [exact H4|].
  apply (proj2 (versint_orders_versions "1.9.7" "1.10beta1" H1 H2 H3 H4)).
  reflexivity.
Defined.

(** X20 (the case on GIMME_ARCH, lines 882-896).  For the architecture
    arm64 and a version with at most four numbers, each below 1000, the
    script goes on exactly when the version is master or its numbers
    are not below 1.5; so a version without any digit other than
    master, such as stable, oldstable, tip or the name of a branch,
    makes the script exit. *)
Theorem arm64_support (version : string) :
  (length (Versint.version_numbers version) <= 4)%nat ->
  Forall (fun n => (n < 1000)%N) (Versint.version_numbers version) ->
  (Versint.normalize_arch "arm64" version = Some "arm64"
   <-> version = "master"
       \/ lex_compare (version_key (Versint.version_numbers version))
                      [1; 5; 0; 0]%N <> Lt)
  /\ (Versint.normalize_arch "arm64" version = None
      <-> version <> "master"
          /\ lex_compare (version_key (Versint.version_numbers version))
                         [1; 5; 0; 0]%N = Lt)
  /\ (Versint.digit_runs version = [] -> version <> "master" ->
      Versint.normalize_arch "arm64" version = None).
Proof.
  intros Hl Hall.
  assert (Hcmp : String.ltb (Versint._versint version) (Versint._versint "1.5")
                 = match lex_compare (version_key (Versint.version_numbers version))
                                     [1; 5; 0; 0]%N with
                   | Lt => true
                   | _ => false
                   end).
  { assert (H15 : (length (Versint.version_numbers "1.5") <= 4)%nat)
      by (vm_compute; lia).
    assert (H15' : Forall (fun n => (n < 1000)%N) (Versint.version_numbers "1.5"))
      by (vm_compute; repeat constructor).
    unfold String.ltb. rewrite (versint_compare version "1.5" Hl H15 Hall H15').
    reflexivity. }
  unfold Versint.normalize_arch, Versint.arm64_unsupported.
  cbn [String.eqb Ascii.eqb Bool.eqb]. rewrite Hcmp.
  destruct (String.eqb version "master") eqn:Hm.
  - apply String.eqb_eq in Hm. cbn [negb andb].
    split; [split; auto|]. split; [split; [discriminate|intros [Hx _]; contradiction]|].
    intros _ Hx. contradiction.
  - apply String.eqb_neq in Hm. cbn [negb andb]. split; [|split].
    + destruct (lex_compare _ _); split; try discriminate; auto;
        intros [Hx|Hx]; congruence.
    + destruct (lex_compare _ _); split; try discriminate; auto;
        intros [_ Hx]; congruence.
    + intros Hruns _. unfold Versint.version_numbers. rewrite Hruns. reflexivity.
Qed.

Lemma arm64_support_witness :
  (length (Versint.version_numbers "stable") <= 4)%nat
  /\ Forall (fun n => (n < 1000)%N) (Versint.version_numbers "stable")
  /\ Versint.normalize_arch "arm64" "stable" = None.
Proof.
  assert (H1 : (length (Versint.version_numbers "stable") <= 4)%nat)
    by (vm_compute; lia).
  assert (H2 : Forall (fun n => (n < 1000)%N) (Versint.version_numbers "stable"))
    by (vm_compute; constructor).
  split; [exact H1|]. split; [exact H2|].
  apply (proj2 (proj2 (arm64_support "stable" H1 H2))); [reflexivity|discriminate].
Defined.

(** X21 (the cases on GIMME_ARCH and GIMME_HOSTARCH, lines 882-903).
    The names of architectures are normalised once: what either case
    leaves is left as it is by the same case, and neither leaves
    x86_64, x86 or a name that starts with arm other than arm and
    arm64. *)
Theorem arch_normalisation_idempotent (arch version : string) :
  Versint.normalize_hostarch (Versint.normalize_hostarch arch)
  = Versint.normalize_hostarch arch
  /\ (forall arch', Versint.normalize_arch arch version = Some arch' ->
       Versint.normalize_arch arch' version = Some arch'
       /\ arch' = Versint.normalize_hostarch arch)
  /\ (Text.starts_with "arm" (Versint.normalize_hostarch arch) = true ->
      Versint.normalize_hostarch arch = "arm"
      \/ Versint.normalize_hostarch arch = "arm64").
Proof.
  unfold Versint.normalize_hostarch, Versint.normalize_arch.
  destruct (String.eqb arch "x86_64") eqn:H1.
  { split; [reflexivity|]. split; [|discriminate].
    intros arch' [= <-]. split; reflexivity. }
  destruct (String.eqb arch "x86") eqn:H2.
  { split; [reflexivity|]. split; [|discriminate].
    intros arch' [= <-]. split; reflexivity. }
  destruct (String.eqb arch "arm64") eqn:H3.
  { rewrite H1, H2, H3. split; [reflexivity|]. split.
    - destruct (Versint.arm64_unsupported version) eqn:Hu; [discriminate|].
      intros arch' [= <-]. rewrite H1, H2, H3. split; reflexivity.
    - intros _. right. apply String.eqb_eq. exact H3. }
  destruct (Text.starts_with "arm" arch) eqn:H4.
  { split; [reflexivity|]. split; [|auto].
    intros arch' [= <-]. split; reflexivity. }
  rewrite H1, H2, H3, H4. split; [reflexivity|]. split; [|discriminate].
  intros arch' [= <-]. rewrite H1, H2, H3, H4. split; reflexivity.
Qed.

Section CliFacts.
Import Cli.

Lemma parse_modifiers (flags rest : list string) (fi fk : bool) :
  forallb (fun w => is_force w || is_force_known w || is_dummy w)%bool flags = true ->
  parse fi fk (flags ++ rest)
  = parse (fi || existsb is_force flags) (fk || existsb is_force_known flags) rest.
Proof.
  revert fi fk. induction flags as [|a flags IH]; intros fi fk Hall.
  - cbn [existsb app]. rewrite !orb_false_r. reflexivity.
  - cbn [forallb] in Hall. apply andb_prop in Hall as [Ha Hall].
    cbn [app parse existsb].
    assert (Hres : forall l, In l [["-h"; "--help"; "help"; "wat"];
                                   ["-V"; "--version"; "version"];
                                   ["-r"; "--resolve"; "resolve"];
                                   ["-l"; "--list"; "list"];
                                   ["-k"; "--known"; "known"]] ->
                             one_of l a = false).
    { intros l Hl. unfold is_force, is_force_known, is_dummy, one_of in Ha.
      cbn [existsb] in Ha. rewrite !orb_false_r in Ha.
      repeat (apply orb_prop in Ha as [Ha|Ha]);
        apply String.eqb_eq in Ha; subst a;
        cbn [In] in Hl; repeat (destruct Hl as [<-|Hl]; [reflexivity|]);
        destruct Hl. }
    rewrite !Hres by (cbn [In]; auto 10).
    destruct (is_force a) eqn:Hf.
    + rewrite IH by exact Hall. rewrite orb_true_r. cbn [orb].
      destruct (is_force_known a) eqn:Hk.
      * exfalso. unfold is_force, is_force_known, one_of in Hf, Hk.
        cbn [existsb] in Hf, Hk. rewrite !orb_false_r in Hf, Hk.
        repeat (apply orb_prop in Hf as [Hf|Hf]);
          apply String.eqb_eq in Hf; subst a; discriminate Hk.
      * reflexivity.
    + cbn [orb]. destruct (is_force_known a) eqn:Hk.
      * rewrite IH by exact Hall. rewrite orb_true_r. reflexivity.
      * cbn [orb] in Ha. rewrite Ha. rewrite IH by exact Hall. reflexivity.
Qed.

End CliFacts.

(** X22 (the loop over the arguments, lines 816-880).  The words that
    force the installation or the update of the list and the dummy
    words -i and install are read in any number and order in front of
    the first word that is none of the reserved ones; the installation
    is forced exactly when one of them is -f, --force or force, and
    likewise for the update.  The loop stops at that first other word:
    it and the word after it, when they are not empty, become the
    version and the prefix, so a flag that follows the version is not
    read as a flag. *)
Theorem flags_before_version (flags rest : list string) (v version prefix : string) :
  forallb (fun w => Cli.is_force w || Cli.is_force_known w || Cli.is_dummy w)%bool flags
  = true ->
  Cli.is_reserved v = false ->
  Cli.parse false false (flags ++ v :: rest)
  = Cli.Install (existsb Cli.is_force flags) (existsb Cli.is_force_known flags) (v :: rest)
  /\ Cli.positional (v :: rest) version prefix
     = (if Text.nonempty v then v else version,
        if Text.nonempty (hd EmptyString rest) then hd EmptyString rest else prefix).
Proof.
  intros Hflags Hv.
  assert (Hstop : forall fi fk l, Cli.parse fi fk (v :: l) = Cli.Install fi fk (v :: l)).
  { intros fi fk l. unfold Cli.is_reserved in Hv.
    do 7 (apply orb_false_elim in Hv as [Hv ?]).
    cbn [Cli.parse].
    repeat match goal with Hx : _ = false |- _ => rewrite Hx; clear Hx end.
    reflexivity. }
  split.
  - rewrite parse_modifiers by exact Hflags. apply Hstop.
  - unfold Cli.positional. destruct rest; reflexivity.
Qed.

Lemma flags_before_version_witness :
  forallb (fun w => Cli.is_force w || Cli.is_force_known w || Cli.is_dummy w)%bool
    ["install"; "-f"; "force-known-update"] = true
  /\ Cli.is_reserved "1.21.0" = false
  /\ Cli.parse false false ["install"; "-f"; "force-known-update"; "1.21.0"; "-f"]
     = Cli.Install true true ["1.21.0"; "-f"]
  /\ Cli.positional ["1.21.0"; "-f"] EmptyString "/home/u/.gimme/versions"
     = ("1.21.0", "-f").
Proof.
  split; [reflexivity|]. split; [reflexivity|].
  exact (flags_before_version ["install"; "-f"; "force-known-update"] ["-f"] "1.21.0"
           EmptyString "/home/u/.gimme/versions" eq_refl eq_refl).
Defined.

Section ListingFacts.
Context {Repo : Type} `{Git Repo}.
Variable E : Env.
Variable go_env_goroot : Z * string.
Variable echo_e : string -> string.
Import Text.

Lemma starts_with_false (p s : string) :
  starts_with p s = false -> strip_prefix p s = None.
Proof. unfold starts_with. destruct (strip_prefix p s); [discriminate|reflexivity]. Qed.

Lemma find_last_none (needle t : string) :
  contains needle t = false -> find_last needle t = None.
Proof.
  induction t as [|c r IH]; cbn [contains find_last]; intros Hc;
    apply orb_false_elim in Hc as [Hs Hc].
  - apply starts_with_false. exact Hs.
  - rewrite (IH Hc). apply starts_with_false. exact Hs.
Qed.

Lemma find_last_go (p t : string) :
  contains "/go" t = false ->
  find_last "/go" (p ++ String "/" (String "g" (String "o" t))) = Some t.
Proof.
  intros Ht. induction p as [|c p IH].
  - cbn [String.append find_last]. rewrite (find_last_none "/go" t Ht).
    destruct t; reflexivity.
  - cbn [String.append find_last]. rewrite IH. reflexivity.
Qed.

Lemma no_slash_no_go (t : string) :
  any_char is_slash t = false -> contains "/go" t = false.
Proof.
  induction t as [|c r IH]; [reflexivity|].
  cbn [any_char contains]. intros Hc. apply orb_false_elim in Hc as [Hc Hr].
  rewrite (IH Hr), orb_false_r. rewrite starts_with_cons.
  unfold is_slash in Hc. rewrite Ascii.eqb_sym, Hc. reflexivity.
Qed.

Lemma starts_with_shorter (p a b : string) :
  starts_with p (a ++ b) = true ->
  (String.length p <= String.length a)%nat ->
  starts_with p a = true.
Proof.
  revert a. induction p as [|x p IH]; intros a Hs Hlen; [apply starts_with_nil|].
  destruct a as [|y a]; [cbn [String.length] in Hlen; lia|].
  cbn [String.append] in Hs. rewrite starts_with_cons in *.
  apply andb_prop in Hs as [-> Hs]. cbn [andb].
  apply IH; [exact Hs|]. cbn [String.length] in Hlen. lia.
Qed.

Lemma find_first_cons (needle : string) (c : ascii) (r : string) :
  find_first needle (String c r)
  = if starts_with needle (String c r) then Some EmptyString
    else match find_first needle r with
         | Some t => Some (String c t)
         | None => None
         end.
Proof. reflexivity. Qed.

Lemma find_first_system (os v rest : string) :
  contains (String "." (os ++ ".")) (v ++ String "." os) = false ->
  find_first (String "." (os ++ ".")) (v ++ String "." (os ++ String "." rest)) = Some v.
Proof.
  induction v as [|c v IH]; intros Hc.
  - cbn [String.append]. rewrite find_first_cons.
    replace (String "." (os ++ String "." rest))
      with (String "." (os ++ ".") ++ rest)
      by (cbn [String.append]; rewrite append_assoc; reflexivity).
    rewrite starts_with_app. reflexivity.
  - cbn [String.append contains] in Hc. apply orb_false_elim in Hc as [Hs Hc].
    cbn [String.append]. rewrite find_first_cons, (IH Hc).
    destruct (starts_with (String "." (os ++ "."))
                (String c (v ++ String "." (os ++ String "." rest)))) eqn:Hhere;
      [|reflexivity].
    exfalso.
    replace (String c (v ++ String "." (os ++ String "." rest)))
      with (String c (v ++ String "." os) ++ String "." rest) in Hhere
      by (cbn [String.append]; rewrite append_assoc; reflexivity).
    apply starts_with_shorter in Hhere; [congruence|].
    cbn [String.length]. rewrite !length_append. cbn [String.length]. lia.
Qed.

(** The name of the directory of a binary installation gives back the
    version. *)
Lemma cleaned_install_dir (v arch : string) :
  any_char is_slash (v ++ String "." (GIMME_OS E ++ String "." arch)) = false ->
  contains (String "." (GIMME_OS E ++ ".")) (v ++ String "." (GIMME_OS E)) = false ->
  cleaned E (GIMME_VERSION_PREFIX E ++ "/go" ++ v ++ "." ++ GIMME_OS E ++ "." ++ arch) = v.
Proof.
  intros Hslash Hos. unfold cleaned.
  cbn [String.append]. 
  rewrite (find_last_go (GIMME_VERSION_PREFIX E)
             (v ++ String "." (GIMME_OS E ++ String "." arch)))
    by (apply no_slash_no_go; exact Hslash).
  cbn [default from_option id].
  rewrite (find_first_system (GIMME_OS E) v arch Hos). reflexivity.
Qed.

Lemma contains_here (needle s : string) :
  starts_with needle s = true -> contains needle s = true.
Proof. intros Hs. destruct s; cbn [contains]; rewrite Hs; reflexivity. Qed.

Lemma contains_app (needle a b : string) :
  contains needle (a ++ needle ++ b) = true.
Proof.
  induction a as [|c a IH].
  - cbn [String.append]. apply contains_here, starts_with_app.
  - cbn [String.append contains]. rewrite IH. apply orb_true_r.
Qed.

Lemma glob_versions_lists (f : gmap string Node) (v arch : string) (n : Node) :
  f !! (GIMME_VERSION_PREFIX E ++ "/go" ++ v ++ "." ++ GIMME_OS E ++ "." ++ arch)
  = Some n ->
  any_char is_slash (v ++ String "." (GIMME_OS E ++ String "." arch)) = false ->
  In (GIMME_VERSION_PREFIX E ++ "/go" ++ v ++ "." ++ GIMME_OS E ++ "." ++ arch)
     (glob_versions E f).
Proof.
  intros Hf Hslash. unfold glob_versions.
  apply (Permutation_in _ (Permutation_sym (sort_by_perm _ _))).
  apply filter_In. split.
  - apply in_map_iff. eexists (_, n). split; [reflexivity|].
    apply list_elem_of_In, elem_of_map_to_list. exact Hf.
  - replace (GIMME_VERSION_PREFIX E ++ "/go" ++ v ++ "." ++ GIMME_OS E ++ "." ++ arch)
      with ((GIMME_VERSION_PREFIX E ++ "/go")
            ++ v ++ String "." (GIMME_OS E ++ String "." arch))
      by (rewrite append_assoc; reflexivity).
    rewrite strip_prefix_app. cbn [String.append] in Hslash. rewrite Hslash. cbn [negb andb].
    replace (String "." (GIMME_OS E ++ String "." arch))
      with (String "." (GIMME_OS E ++ ".") ++ arch)
      by (cbn [String.append]; rewrite append_assoc; reflexivity).
    apply (contains_app (String "." (GIMME_OS E ++ ".")) v arch).
Qed.

Lemma print_versions_run (cur : string) (lines : list string) (w : World Repo) :
  exists err,
    print_versions echo_e cur lines w
    = Ret tt (with_stderr (stderr w ++ err)
                (with_stdout (stdout w ++ map (fun l => echo_e (ifs_trim l)) lines) w)).
Proof.
  revert w. induction lines as [|l lines IH]; intros w.
  - exists []. cbn [print_versions map]. unfold ret. f_equal.
    apply world_ext; cbn; rewrite ?app_nil_r; reflexivity.
  - cbn [print_versions map].
    destruct (String.eqb (ifs_trim l) cur).
    + unfold bind at 1, echo_err at 1, modify at 1.
      unfold bind at 1, echo at 1, modify at 1.
      destruct (IH (with_stdout
                      (stdout (with_stderr (stderr w ++ [" <= current"]) w)
                       ++ [echo_e (ifs_trim l)])
                      (with_stderr (stderr w ++ [" <= current"]) w)))
        as (err & ->).
      exists (" <= current" :: err). f_equal.
      apply world_ext; cbn; rewrite <- ?app_assoc; reflexivity.
    + unfold bind at 1, ret at 1. unfold bind at 1, echo at 1, modify at 1.
      destruct (IH (with_stdout (stdout w ++ [echo_e (ifs_trim l)]) w)) as (err & ->).
      exists err. f_equal.
      apply world_ext; cbn; rewrite <- ?app_assoc; reflexivity.
Qed.

(** What [_list_versions] prints when its standard error is discarded. *)
Definition installed_names (w : World Repo) : list string :=
  if test_d (fs w) (GIMME_VERSION_PREFIX E) then
    map (fun l => echo_e (ifs_trim l))
        (_version_sort E
           (flat_map (fun d => echo_word (cleaned E d)) (glob_versions E (fs w))))
  else [].

Lemma list_versions_run (e : bool) (w : World Repo) :
  go_env_goroot.1 = 0 ->
  quiet (_list_versions E go_env_goroot echo_e e) w
  = Ret 0 (with_stdout (stdout w ++ installed_names w) w).
Proof.
  intros Hgo.
  unfold quiet, _list_versions, installed_names, bind at 1, get at 1.
  destruct (test_d (fs w) (GIMME_VERSION_PREFIX E)); cbn [negb].
  - rewrite Hgo. unfold bind at 1, sh at 1, bind at 1, ret at 1.
    cbn [Z.eqb negb]. rewrite andb_false_r. unfold ret at 1. unfold bind at 1.
    destruct (print_versions_run (cleaned E go_env_goroot.2)
                (_version_sort E
                   (flat_map (fun d => echo_word (cleaned E d)) (glob_versions E (fs w))))
                w)
      as (err & ->).
    reflexivity.
  - unfold ret. f_equal. apply world_ext; cbn; rewrite ?app_nil_r; reflexivity.
Qed.

Lemma in_uniq (x : string) (l : list string) : In x l <-> In x (uniq l).
Proof.
  induction l as [|a l IH]; [reflexivity|].
  destruct l as [|b l]; [reflexivity|].
  change (uniq (a :: b :: l))
    with (if String.eqb a b then uniq (b :: l) else a :: uniq (b :: l)).
  destruct (String.eqb a b) eqn:Hab.
  - apply String.eqb_eq in Hab. subst b. rewrite <- IH. cbn [In]. tauto.
  - cbn [In] in *. tauto.
Qed.

(** X23 ([_list_known] and [_list_versions], lines 519-542 and
    574-582).  On a host whose sort has --version-sort and where go
    env GOROOT succeeds, once the list of known versions has been
    obtained, [_list_known] prints exactly
    the lines that are not empty of the list of known versions and of
    the names of the installed versions, each one at least once, and
    changes nothing else; its status is 1 when it prints nothing and 0
    otherwise.  The directory of a binary installation of a version is
    listed under the name of the version. *)
Theorem list_known_complete (e : bool) (w w' : World Repo) (catalog : list string) :
  have_version_sort E = true ->
  go_env_goroot.1 = 0 ->
  capture (_update_remote_known_list_if_needed E) w = Ret (0, [known_list E]) w' ->
  file_lines (fs w') (known_list E) = Some catalog ->
  exists st out,
    _list_known E go_env_goroot echo_e e w = Ret st (with_stdout (stdout w' ++ out) w')
    /\ (forall v, In v out <->
                  nonempty v = true /\ (In v (installed_names w') \/ In v catalog))
    /\ (out = [] -> st = 1) /\ (out <> [] -> st = 0)
    /\ (forall v arch n,
          test_d (fs w') (GIMME_VERSION_PREFIX E) = true ->
          fs w' !! (GIMME_VERSION_PREFIX E ++ "/go" ++ v ++ "." ++ GIMME_OS E ++ "."
                    ++ arch) = Some n ->
          any_char is_slash (v ++ String "." (GIMME_OS E ++ String "." arch)) = false ->
          contains (String "." (GIMME_OS E ++ ".")) (v ++ String "." (GIMME_OS E))
          = false ->
          nonempty v = true -> is_echo_option v = false ->
          ifs_trim v = v -> echo_e v = v ->
          In v out).
Proof.
  intros Hsort Hgo Hcap Hfile.
  set (lines := List.filter nonempty (installed_names w' ++ catalog)).
  assert (Hperm : forall l, Permutation (_version_sort E l) l).
  { intros l. unfold _version_sort. rewrite Hsort. apply sort_by_perm. }
  assert (Hin : forall v, In v (uniq (_version_sort E lines)) <->
                          nonempty v = true
                          /\ (In v (installed_names w') \/ In v catalog)).
  { intros v. rewrite <- in_uniq. split.
    - intros Hv. apply (Permutation_in _ (Hperm lines)) in Hv.
      apply filter_In in Hv as [Hv Hne]. apply in_app_iff in Hv. auto.
    - intros [Hne Hv]. apply (Permutation_in _ (Permutation_sym (Hperm lines))).
      apply filter_In. split; [apply in_app_iff; exact Hv|exact Hne]. }
  exists (match lines with [] => 1 | _ => 0 end), (uniq (_version_sort E lines)).
  split; [|split; [exact Hin|split; [|split]]].
  - unfold _list_known, bind at 1. rewrite Hcap. cbn [fst snd].
    unfold bind at 1, sh at 1, bind at 1, ret at 1. cbn [Z.eqb negb].
    rewrite andb_false_r. unfold ret at 1.
    rewrite subst_value_single by (unfold known_list; apply nonempty_app_r; reflexivity).
    unfold bind at 1, capture at 1, bind at 1.
    rewrite (list_versions_run e _ Hgo).
    unfold cat, bind at 1, get at 1. cbn [fs with_stdout]. rewrite Hfile.
    unfold bind at 1. rewrite echo_all_run. unfold ret at 1.
    cbn [fst snd stdout with_stdout app]. fold lines.
    unfold bind at 1. rewrite echo_all_run. unfold ret.
    change (installed_names (with_stdout [] w')) with (installed_names w').
    fold lines. reflexivity.
  - intros Hout. destruct lines as [|l ls] eqn:Hl; [reflexivity|].
    exfalso. assert (Hx : In l (uniq (_version_sort E (l :: ls)))).
    { rewrite <- in_uniq. apply (Permutation_in _ (Permutation_sym (Hperm _))).
      left. reflexivity. }
    rewrite Hout in Hx. destruct Hx.
  - intros Hout. destruct lines as [|l ls] eqn:Hl; [|reflexivity].
    exfalso. apply Hout. unfold _version_sort. rewrite Hsort. reflexivity.
  - intros v arch n Hd Hdir Hslash Hos Hne Hopt Htrim Hecho.
    apply Hin. split; [exact Hne|]. left.
    unfold installed_names. rewrite Hd.
    apply in_map_iff. exists v. split; [rewrite Htrim; exact Hecho|].
    apply (Permutation_in _ (Permutation_sym (Hperm _))).
    apply in_flat_map.
    exists (GIMME_VERSION_PREFIX E ++ "/go" ++ v ++ "." ++ GIMME_OS E ++ "." ++ arch).
    split; [apply (glob_versions_lists (fs w') v arch n Hdir Hslash)|].
    rewrite cleaned_install_dir by assumption.
    unfold echo_word. rewrite Hopt. left. reflexivity.
Qed.

(** X24 ([_list_known] and [_list_versions], lines 525 and 578-581).
    Under errexit, when go env GOROOT fails, as it does when no go is
    in PATH, and the directory of versions exists, the subshell that
    lists the installed versions ends before it prints the list of
    known versions: [_list_known] prints nothing, whatever the list
    holds, and returns 1. *)
Theorem list_known_needs_go (w w' : World Repo) (out : list string) :
  go_env_goroot.1 <> 0 ->
  test_d (fs w') (GIMME_VERSION_PREFIX E) = true ->
  capture (_update_remote_known_list_if_needed E) w = Ret (0, out) w' ->
  _list_known E go_env_goroot echo_e true w = Ret 1 w'.
Proof.
  intros Hgo Hd Hcap.
  unfold _list_known, bind at 1. rewrite Hcap. cbn [fst snd].
  unfold bind at 1, sh at 1, bind at 1, ret at 1. cbn [Z.eqb negb andb].
  unfold ret at 1.
  unfold bind at 1, capture at 1, bind at 1, quiet, _list_versions, bind at 1, get at 1.
  cbn [fs with_stdout]. rewrite Hd. cbn [negb].
  unfold bind at 1, sh at 1, bind at 1, ret at 1.
  apply Z.eqb_neq in Hgo. rewrite Hgo. cbn [negb andb]. unfold exit.
  cbn [fst snd stdout with_stdout with_stderr List.filter].
  rewrite version_sort_nil. cbn [uniq echo_all].
  unfold bind, ret. f_equal. apply world_ext; reflexivity.
Qed.

End ListingFacts.

Lemma list_known_complete_witness :
  let E := Examples.linux in
  let w := Tools.w_two_installed in
  have_version_sort E = true
  /\ capture (_update_remote_known_list_if_needed E) w = Ret (0, [known_list E]) w
  /\ file_lines (fs w) (known_list E) = Some ["1.21.0"; "1.21.5"; "1.22.0"]
  /\ exists st out,
       _list_known E (0, Examples.go_dir) (fun s => s) true w
       = Ret st (with_stdout (stdout w ++ out) w)
       /\ In "1.9.7" out /\ In "1.22.0" out /\ st = 0.
Proof.
  intros E w.
  assert (H1 : have_version_sort E = true) by reflexivity.
  assert (H2 : capture (_update_remote_known_list_if_needed E) w
               = Ret (0, [known_list E]) w) by (vm_compute; reflexivity).
  assert (H3 : file_lines (fs w) (known_list E) = Some ["1.21.0"; "1.21.5"; "1.22.0"])
    by (vm_compute; reflexivity).
  split; [exact H1|]. split; [exact H2|]. split; [exact H3|].
  destruct (list_known_complete E (0, Examples.go_dir) (fun s => s) true w w
              ["1.21.0"; "1.21.5"; "1.22.0"] H1 eq_refl H2 H3)
    as (st & out & Hrun & Hin & _ & Hst & Hdir).
  assert (Hknown : In "1.22.0" out).
  { apply Hin. split; [reflexivity|]. right. cbn [In]. auto. }
  exists st, out. split; [exact Hrun|]. split; [|split; [exact Hknown|]].
  - apply (Hdir "1.9.7" "amd64" (Dir 999000)); reflexivity.
  - apply Hst. intros Hnil. rewrite Hnil in Hknown. destruct Hknown.
Defined.

Lemma list_known_needs_go_witness :
  let E := Examples.linux in
  let w := Tools.w_two_installed in
  (127, EmptyString).1 <> 0
  /\ test_d (fs w) (GIMME_VERSION_PREFIX E) = true
  /\ capture (_update_remote_known_list_if_needed E) w = Ret (0, [known_list E]) w
  /\ _list_known E (127, EmptyString) (fun s => s) true w = Ret 1 w.
Proof.
  intros E w.
  assert (H1 : (127, EmptyString).1 <> 0) by discriminate.
  assert (H2 : test_d (fs w) (GIMME_VERSION_PREFIX E) = true) by (vm_compute; reflexivity).
  assert (H3 : capture (_update_remote_known_list_if_needed E) w
               = Ret (0, [known_list E]) w) by (vm_compute; reflexivity).
  split; [exact H1|]. split; [exact H2|]. split; [exact H3|].
  exact (list_known_needs_go E (127, EmptyString) (fun s => s) w w [known_list E]
           H1 H2 H3).
Defined.

